(** * pi-replicant: repository resolver and policy-enforced supervisor

    A shallow embedding of [extensions/replicant/subproc.ts] (the tool-call
    policy checker, the policy hook and the run supervisor) and of
    [extensions/replicant/offworld.ts] (the repository resolver), followed by
    the properties stated about them.

    Modelling conventions.
    - A JavaScript string is a [string]: one [ascii] per code unit, so the
      model speaks about text whose code units are below 256.  White space
      (as seen by [trim]) is then U+0009..U+000D, U+0020 and U+00A0, and the
      UTF-8 size of a code unit is 1 below 128 and 2 from 128 on.
    - The budgets of the policy checker are integers ([Z]); the optional
      budgets handed to the supervisor are IEEE numbers, modelled by
      [JsNumber] (NaN, the two infinities, or a finite rational).
    - [node:path] is the POSIX flavour.  A resolved path is kept as its list
      of normalised segments and printed back with a leading slash. *)

From Stdlib Require Import ZArith String Ascii List Bool Lia.
From Stdlib Require Import QArith Qround DecimalString.
Import ListNotations.

Local Open Scope list_scope.
Local Open Scope string_scope.

(* ===================================================================== *)
(** ** JavaScript strings *)
(* ===================================================================== *)

Module JsStr.

Definition chr (n : nat) : ascii := ascii_of_nat n.

Definition slash : ascii := "/"%char.
Definition backslash : ascii := chr 92.
Definition newline : ascii := chr 10.
Definition colon : ascii := ":"%char.

(** [WhiteSpace] and [LineTerminator] code units below 256. *)
Definition is_ws (c : ascii) : bool :=
  let n := nat_of_ascii c in
  ((9 <=? n)%nat && (n <=? 13)%nat) || (n =? 32)%nat || (n =? 160)%nat.

Fixpoint trimStart (s : string) : string :=
  match s with
  | EmptyString => EmptyString
  | String c r => if is_ws c then trimStart r else s
  end.

Fixpoint trimEnd (s : string) : string :=
  match s with
  | EmptyString => EmptyString
  | String c r =>
      match trimEnd r with
      | EmptyString => if is_ws c then EmptyString else String c EmptyString
      | r' => String c r'
      end
  end.

(** [String.prototype.trim] *)
Definition trim (s : string) : string := trimEnd (trimStart s).

(** [s.startsWith(p)] *)
Fixpoint startsWith (s p : string) {struct p} : bool :=
  match p with
  | EmptyString => true
  | String b p' =>
      match s with
      | EmptyString => false
      | String a s' => Ascii.eqb a b && startsWith s' p'
      end
  end.

(** [s.endsWith(c)] for a one-unit suffix. *)
Fixpoint endsWithChar (s : string) (c : ascii) : bool :=
  match s with
  | EmptyString => false
  | String a EmptyString => Ascii.eqb a c
  | String _ r => endsWithChar r c
  end.

(** [s.split(c)] for a one-unit separator: never the empty list. *)
Fixpoint split (c : ascii) (s : string) : list string :=
  match s with
  | EmptyString => [EmptyString]
  | String a r =>
      if Ascii.eqb a c then EmptyString :: split c r
      else match split c r with
           | h :: t => String a h :: t
           | [] => [String a EmptyString]
           end
  end.

(** [l.join(sep)] *)
Definition join (sep : string) (l : list string) : string := String.concat sep l.

(** [s.includes(c)] for a one-unit needle. *)
Fixpoint includesChar (s : string) (c : ascii) : bool :=
  match s with
  | EmptyString => false
  | String a r => Ascii.eqb a c || includesChar r c
  end.

Fixpoint mapChars (f : ascii -> ascii) (s : string) : string :=
  match s with
  | EmptyString => EmptyString
  | String a r => String (f a) (mapChars f r)
  end.

(** [s.replace(/\\/g, "/")] *)
Definition backslashesToSlashes (s : string) : string :=
  mapChars (fun a => if Ascii.eqb a backslash then slash else a) s.

(** [s.replace(/^@/, "")] *)
Definition stripLeadingAt (s : string) : string :=
  match s with
  | String a r => if Ascii.eqb a "@"%char then r else s
  | EmptyString => EmptyString
  end.

(** A string is falsy exactly when it is empty. *)
Definition nonEmpty (s : string) : bool :=
  match s with EmptyString => false | _ => true end.

(** The truth test on an optional string ([if (x)], [x && ...], [!x]):
    the string when it is there and not empty. *)
Definition truthyText (o : option string) : option string :=
  match o with
  | Some t => if nonEmpty t then Some t else None
  | None => None
  end.

(** Template interpolation of an integer. *)
Definition ofZ (z : Z) : string := NilZero.string_of_int (Z.to_int z).

(** [Buffer.byteLength(s, "utf-8")] on code units below 256. *)
Fixpoint byteLength (s : string) : nat :=
  match s with
  | EmptyString => 0%nat
  | String a r => ((if (nat_of_ascii a <? 128)%nat then 1 else 2) + byteLength r)%nat
  end.

End JsStr.

(* ===================================================================== *)
(** ** JavaScript values *)
(* ===================================================================== *)

#[local] Set Warnings "-register-all".

Inductive JsNumber : Type :=
| NaN
| PosInfinity
| NegInfinity
| Finite (q : Q).

Inductive JsValue : Type :=
| JUndefined
| JNull
| JBool (b : bool)
| JNum (n : JsNumber)
| JStr (s : string)
| JArr (items : list JsValue)
| JObj (fields : list (string * JsValue)).

Module Js.

Fixpoint lookup (k : string) (fields : list (string * JsValue)) : JsValue :=
  match fields with
  | [] => JUndefined
  | (k', v) :: rest => if String.eqb k k' then v else lookup k rest
  end.

(** Property read [v.k] for the data properties the programme reads
    ([path], [role], [content], ...): only a plain object carries them. *)
Definition get (v : JsValue) (k : string) : JsValue :=
  match v with
  | JObj fields => lookup k fields
  | _ => JUndefined
  end.

Definition truthy (v : JsValue) : bool :=
  match v with
  | JUndefined | JNull => false
  | JBool b => b
  | JNum NaN => false
  | JNum (Finite q) => negb (Qeq_bool q 0)
  | JNum _ => true
  | JStr s => JsStr.nonEmpty s
  | JArr _ | JObj _ => true
  end.

(** [typeof v === "object"] *)
Definition isObjectType (v : JsValue) : bool :=
  match v with
  | JNull | JArr _ | JObj _ => true
  | _ => false
  end.

(** [typeof v === "string" ? v : undefined] *)
Definition asString (v : JsValue) : option string :=
  match v with
  | JStr s => Some s
  | _ => None
  end.

End Js.

(* ===================================================================== *)
(** ** [node:path], POSIX flavour *)
(* ===================================================================== *)

Module PosixPath.

Import JsStr.

(** [path.isAbsolute] *)
Definition isAbsolute (p : string) : bool := startsWith p "/".

(** One step of Node's [normalizeString]: [stack] holds the segments kept
    so far, innermost first. *)
Definition pushSegment (allowAboveRoot : bool) (stack : list string) (seg : string)
  : list string :=
  if String.eqb seg "" || String.eqb seg "." then stack
  else if String.eqb seg ".." then
    match stack with
    | top :: below =>
        if String.eqb top ".." then (if allowAboveRoot then seg :: stack else stack)
        else below
    | [] => if allowAboveRoot then [seg] else []
    end
  else seg :: stack.

Definition normalizeSegments (allowAboveRoot : bool) (segs : list string) : list string :=
  rev (fold_left (pushSegment allowAboveRoot) segs []).

(** The right-to-left scan of [path.resolve]: stop at the first absolute
    argument, skip empty ones. *)
Fixpoint resolveScan (revArgs : list string) (acc : string) : string * bool :=
  match revArgs with
  | [] => (acc, false)
  | p :: rest =>
      if nonEmpty p then
        let acc' := p ++ "/" ++ acc in
        if isAbsolute p then (acc', true) else resolveScan rest acc'
      else resolveScan rest acc
  end.

(** Absolute flag and normalised segments of [path.resolve(...args)], with
    [pcwd] standing for [process.cwd()]. *)
Definition resolveSegments (pcwd : string) (args : list string) : bool * list string :=
  let '(joined, absolute) := resolveScan (rev args ++ [pcwd])%list "" in
  (absolute, normalizeSegments (negb absolute) (split slash joined)).

Definition render (r : bool * list string) : string :=
  let '(absolute, segs) := r in
  if absolute then "/" ++ join "/" segs
  else match segs with
       | [] => "."
       | _ => join "/" segs
       end.

(** [path.resolve(...args)] *)
Definition resolve (pcwd : string) (args : list string) : string :=
  render (resolveSegments pcwd args).

Definition segmentsOf (pcwd : string) (p : string) : list string :=
  snd (resolveSegments pcwd [p]).

Fixpoint stripCommon (a b : list string) : list string * list string :=
  match a, b with
  | x :: a', y :: b' => if String.eqb x y then stripCommon a' b' else (a, b)
  | _, _ => (a, b)
  end.

(** [path.relative(from, to)]: both ends are resolved, the common leading
    segments are dropped, one [..] is emitted per segment left in [from],
    then what is left of [to].  (Node's early exits for equal arguments
    produce the empty string, as this does.  Node works on the characters
    of the two resolved paths, which are absolute because [process.cwd()]
    is; on absolute paths that is this computation on segments.) *)
Definition relative (pcwd : string) (from to : string) : string :=
  let '(fromRest, toRest) := stripCommon (segmentsOf pcwd from) (segmentsOf pcwd to) in
  join "/" (repeat ".." (List.length fromRest) ++ toRest)%list.

(** [path.normalize] *)
Definition normalize (p : string) : string :=
  if negb (nonEmpty p) then "."
  else
    let absolute := isAbsolute p in
    let trailing := endsWithChar p slash in
    let body := join "/" (normalizeSegments (negb absolute) (split slash p)) in
    if negb (nonEmpty body) then
      (if absolute then "/" else if trailing then "./" else ".")
    else
      let body' := if trailing then body ++ "/" else body in
      if absolute then "/" ++ body' else body'.

(** [path.join(...args)] *)
Definition joinPaths (args : list string) : string :=
  match filter nonEmpty args with
  | [] => "."
  | parts => normalize (join "/" parts)
  end.

End PosixPath.

(* ===================================================================== *)
(** ** The tool-call policy checker ([subproc.ts]) *)
(* ===================================================================== *)

Module Policy.

Import JsStr PosixPath.

Record ResolvedScope : Type := {
  cwd : string;
  allowedRoots : list string;
  allowedFiles : list string
}.

Record ToolCallPolicyInput : Type := {
  toolName : string;
  input : JsValue;
  turnIndex : Z;
  toolCalls : Z;
  maxTurns : Z;
  maxToolCalls : Z;
  scope : ResolvedScope
}.

Definition normalizeToolPath (input : string) : string :=
  stripLeadingAt (trim input).

Definition isWithinPath (pcwd : string) (targetPath rootPath : string) : bool :=
  let relative := relative pcwd rootPath targetPath in
  String.eqb relative "" || (negb (startsWith relative "..") && negb (isAbsolute relative)).

Definition hasUnsafeGlobSegments (pattern : string) : bool :=
  let normalized := trim (backslashesToSlashes pattern) in
  if negb (nonEmpty normalized) then false
  else if isAbsolute normalized then true
  else existsb (fun segment => String.eqb segment "..") (split slash normalized).

Definition normalizeToolInput (input : JsValue) : JsValue :=
  if Js.truthy input && Js.isObjectType input then input else JObj [].

Definition pathSensitiveTools : list string := ["read"; "grep"; "find"; "ls"].

(** [typeof toolInput.path === "string" ? ... : "."] *)
Definition rawPathOf (toolInput : JsValue) : string :=
  match Js.asString (Js.get toolInput "path") with
  | Some p => p
  | None =>
      match Js.asString (Js.get toolInput "file_path") with
      | Some p => p
      | None => "."
      end
  end.

(** The glob-bearing argument that is tested for [tool]: [pattern] of
    [find], [glob] of [grep], when it is a string. *)
Definition unsafeArgument (tool field : string) (name : string) (toolInput : JsValue)
  : option string :=
  if String.eqb name tool then
    match Js.asString (Js.get toolInput field) with
    | Some p => if hasUnsafeGlobSegments p then Some p else None
    | None => None
    end
  else None.

Definition turnBudgetMessage (turnIndex maxTurns : Z) : string :=
  let humanTurn := Z.min (turnIndex + 1) maxTurns in
  "Replicant subagent turn budget exceeded (" ++ ofZ humanTurn ++ "/" ++ ofZ maxTurns
  ++ ") before producing a final answer.".

Definition toolCallBudgetMessage (toolCalls maxToolCalls : Z) : string :=
  "Replicant subagent tool call budget exceeded (" ++ ofZ toolCalls ++ "/"
  ++ ofZ maxToolCalls ++ "). Narrow the task for focused exploration.".

Definition findPatternMessage (pattern : string) : string :=
  "Replicant subagent attempted out-of-scope find pattern: " ++ pattern
  ++ ". Parent-directory and absolute patterns are not allowed.".

Definition grepGlobMessage (glob : string) : string :=
  "Replicant subagent attempted out-of-scope grep glob: " ++ glob
  ++ ". Parent-directory and absolute globs are not allowed.".

Definition outOfScopeMessage (name rawPath : string) (sc : ResolvedScope) : string :=
  let files := join ", " (allowedFiles sc) in
  "Replicant subagent attempted out-of-scope " ++ name ++ " path: " ++ rawPath
  ++ ". Allowed roots: " ++ join ", " (allowedRoots sc)
  ++ ". Allowed files: " ++ (if nonEmpty files then files else "(none)") ++ ".".

(** [pcwd] is [process.cwd()], which [path.resolve] and [path.relative]
    fall back to when handed relative paths. *)
Definition getToolCallPolicyViolation (pcwd : string) (options : ToolCallPolicyInput)
  : option string :=
  let name := toolName options in
  let sc := scope options in
  if (turnIndex options >=? maxTurns options - 1)%Z then
    Some (turnBudgetMessage (turnIndex options) (maxTurns options))
  else if (toolCalls options >=? maxToolCalls options)%Z then
    Some (toolCallBudgetMessage (toolCalls options) (maxToolCalls options))
  else if negb (existsb (String.eqb name) pathSensitiveTools) then None
  else if (List.length (allowedRoots sc) =? 0)%nat && (List.length (allowedFiles sc) =? 0)%nat
  then None
  else
    let toolInput := normalizeToolInput (input options) in
    let rawPath := rawPathOf toolInput in
    match unsafeArgument "find" "pattern" name toolInput with
    | Some pattern => Some (findPatternMessage pattern)
    | None =>
        match unsafeArgument "grep" "glob" name toolInput with
        | Some glob => Some (grepGlobMessage glob)
        | None =>
            let resolvedPath := resolve pcwd [cwd sc; normalizeToolPath rawPath] in
            let allowedByRoot :=
              existsb (fun root => isWithinPath pcwd resolvedPath root) (allowedRoots sc) in
            let allowedByFile :=
              existsb (fun file => String.eqb resolvedPath file) (allowedFiles sc) in
            if allowedByRoot || allowedByFile then None
            else Some (outOfScopeMessage name rawPath sc)
        end
    end.

End Policy.

(* ===================================================================== *)
(** ** The policy hook of [createPolicyExtension] *)
(* ===================================================================== *)

Module Hook.

Import JsStr.

Record ReplicantPolicyState : Type := {
  turnIndex : Z;
  toolCalls : Z;
  violation : option string;
  turnBudgetBlocked : option string
}.

(** What the [tool_call] handler hands back to the session. *)
Record Block : Type := { block : bool; reason : string }.

(** One run of a handler: the policy record as it is left, whether
    [ctx.abort()] was called, and the value returned. *)
Record Step : Type := {
  state : ReplicantPolicyState;
  abortRequested : bool;
  returned : option Block
}.

(** [a ?? b] on an optional string. *)
Definition nullish (a : option string) (b : string) : string :=
  match a with
  | Some x => x
  | None => b
  end.

(** [pi.on("turn_start", ...)] *)
Definition onTurnStart (policyState : ReplicantPolicyState) (eventTurnIndex : Z)
  : ReplicantPolicyState :=
  {| turnIndex := eventTurnIndex;
     toolCalls := toolCalls policyState;
     violation := violation policyState;
     turnBudgetBlocked := turnBudgetBlocked policyState |}.

(** [pi.on("tool_call", ...)] *)
Definition onToolCall (pcwd : string) (scope : Policy.ResolvedScope)
    (maxTurns maxToolCalls : Z) (policyState : ReplicantPolicyState)
    (eventToolName : string) (eventInput : JsValue) : Step :=
  let found :=
    Policy.getToolCallPolicyViolation pcwd
      {| Policy.toolName := eventToolName;
         Policy.input := eventInput;
         Policy.turnIndex := turnIndex policyState;
         Policy.toolCalls := toolCalls policyState;
         Policy.maxTurns := maxTurns;
         Policy.maxToolCalls := maxToolCalls;
         Policy.scope := scope |} in
  let allowed :=
    {| state := {| turnIndex := turnIndex policyState;
                   toolCalls := toolCalls policyState + 1;
                   violation := violation policyState;
                   turnBudgetBlocked := turnBudgetBlocked policyState |};
       abortRequested := false;
       returned := None |} in
  match found with
  | Some text =>
      if nonEmpty text then
        let blockedOnFinalTurn := (turnIndex policyState >=? maxTurns - 1)%Z in
        if blockedOnFinalTurn then
          {| state := {| turnIndex := turnIndex policyState;
                         toolCalls := toolCalls policyState;
                         violation := violation policyState;
                         turnBudgetBlocked :=
                           Some (nullish (turnBudgetBlocked policyState) text) |};
             abortRequested := false;
             returned := Some {| block := true; reason := text |} |}
        else
          {| state := {| turnIndex := turnIndex policyState;
                         toolCalls := toolCalls policyState;
                         violation := Some (nullish (violation policyState) text);
                         turnBudgetBlocked := turnBudgetBlocked policyState |};
             abortRequested := true;
             returned := Some {| block := true; reason := text |} |}
      else allowed
  | None => allowed
  end.

End Hook.

(* ===================================================================== *)
(** ** The run supervisor ([runReplicantSubprocess]) *)
(* ===================================================================== *)

Module Supervisor.

Import JsStr.

Inductive ReplicantPhase : Type :=
| booting | exploring | writing | done | error | aborted.

Inductive ToolEventType : Type := tool_start | tool_end.

Record ToolEvent : Type := {
  type : ToolEventType;
  toolName : string;
  args : option JsValue;
  isError : option bool;
  timestamp : Z
}.

Record Truncation : Type := {
  stdoutOverflow : bool;
  stderrOverflow : bool;
  finalTextTruncated : bool
}.

(** [ReplicantSubprocessDetails], without the free-text [message] of the
    progress notifications and the never-assigned [stderrPreview].  The
    notifications themselves ([emit], [onUpdate] and the heartbeat timer)
    write nothing else and are not part of the model. *)
Record ReplicantSubprocessDetails : Type := {
  phase : ReplicantPhase;
  toolCalls : Z;
  toolErrors : Z;
  turns : Z;
  maxTurns : Z;
  maxToolCalls : Z;
  exitCode : option Z;
  stopReason : option string;
  errorMessage : option string;
  truncation : Truncation;
  events : list ToolEvent
}.

Record Scope : Type := {
  allowedRoots : list string;
  allowedFiles : option (list string)
}.

(** The plain data of the options; [optMaxTurns] and [optMaxToolCalls] are
    the optional [maxTurns] and [maxToolCalls].  The signal, the observer
    and the session factory are played by a [SessionScript]. *)
Record RunReplicantSubprocessOptions : Type := {
  cwd : string;
  systemPrompt : string;
  taskPrompt : string;
  tools : list string;
  model : option string;
  optMaxTurns : option JsNumber;
  optMaxToolCalls : option JsNumber;
  scope : option Scope
}.

Record ReplicantSessionFactoryInput : Type := {
  inCwd : string;
  inSystemPrompt : string;
  inTools : list string;
  inModel : option string;
  inMaxTurns : Z;
  inMaxToolCalls : Z;
  inScope : option Scope;
  inPolicyState : Hook.ReplicantPolicyState
}.

Record ReplicantSubprocessResult : Type := {
  finalText : string;
  details : ReplicantSubprocessDetails
}.

(** How a call ends: the promise resolves with a result, or rejects with an
    error; the caller has seen the details record through [onUpdate] either
    way, so the rejected case keeps it. *)
Inductive RunOutcome : Type :=
| Resolved (result : ReplicantSubprocessResult)
| Rejected (errorText : string) (seen : ReplicantSubprocessDetails).

(** What the outside world does during one call.  The session is opaque:
    the supervisor sees the events it delivers, whether [prompt] throws, its
    message log, and the policy record the session's hooks have been
    writing to.  [SignalAborted] is the abort listener firing. *)
Inductive Stimulus : Type :=
| Delivered (event : JsValue) (now : Z)
| SignalAborted.

Record SessionScript : Type := {
  factoryFailure : option string;
  signalAbortedAtBoot : bool;
  stimuli : list Stimulus;
  promptFailure : option string;
  messages : list JsValue;
  policyAtSettle : Hook.ReplicantPolicyState
}.

Definition MAX_EVENTS_TO_KEEP : nat := 120.
Definition DEFAULT_MAX_TURNS : Z := 8.
Definition DEFAULT_MAX_TOOL_CALLS : Z := 40.

Definition isString (v : JsValue) (s : string) : bool :=
  match v with
  | JStr x => String.eqb x s
  | _ => false
  end.

Definition textOfPart (part : JsValue) : option string :=
  if isString (Js.get part "type") "text" then Js.asString (Js.get part "text") else None.

Fixpoint textBlocks (parts : list JsValue) : list string :=
  match parts with
  | [] => []
  | part :: rest =>
      match textOfPart part with
      | Some t => t :: textBlocks rest
      | None => textBlocks rest
      end
  end.

Definition extractAssistantText (message : JsValue) : string :=
  if negb (Js.truthy message) || negb (isString (Js.get message "role") "assistant") then ""
  else match Js.get message "content" with
       | JArr parts => join "" (textBlocks parts)
       | _ => ""
       end.

(** Scans from the end: the last entry whose [role] is [assistant]. *)
Fixpoint getLastAssistantMessage (messages : list JsValue) : option JsValue :=
  match messages with
  | [] => None
  | m :: rest =>
      match getLastAssistantMessage rest with
      | Some found => Some found
      | None => if isString (Js.get m "role") "assistant" then Some m else None
      end
  end.

(** [resolveScope] *)
Definition resolveScope (pcwd : string) (cwd : string) (scope : option Scope)
  : Policy.ResolvedScope :=
  {| Policy.cwd := cwd;
     Policy.allowedRoots :=
       map (fun root => PosixPath.resolve pcwd [cwd; root])
           (match scope with Some sc => allowedRoots sc | None => [] end);
     Policy.allowedFiles :=
       map (fun file => PosixPath.resolve pcwd [cwd; file])
           (match scope with
            | Some sc => match allowedFiles sc with Some fs => fs | None => [] end
            | None => []
            end) |}.

(** The [tool_call] hook that [createDefaultSession] installs. *)
Definition defaultToolCallHook (pcwd : string) (input : ReplicantSessionFactoryInput)
  : Hook.ReplicantPolicyState -> string -> JsValue -> Hook.Step :=
  Hook.onToolCall pcwd (resolveScope pcwd (inCwd input) (inScope input))
                  (inMaxTurns input) (inMaxToolCalls input).

(** [typeof v === "number" && Number.isFinite(v) && v > 0 ? Math.floor(v) : fallback] *)
Definition effectiveBudget (v : option JsNumber) (fallback : Z) : Z :=
  match v with
  | Some (Finite q) => if negb (Qle_bool q 0) then Qfloor q else fallback
  | _ => fallback
  end.

Definition effectiveMaxTurns (options : RunReplicantSubprocessOptions) : Z :=
  effectiveBudget (optMaxTurns options) DEFAULT_MAX_TURNS.

Definition effectiveMaxToolCalls (options : RunReplicantSubprocessOptions) : Z :=
  effectiveBudget (optMaxToolCalls options) DEFAULT_MAX_TOOL_CALLS.

Definition initialDetails (options : RunReplicantSubprocessOptions)
  : ReplicantSubprocessDetails :=
  {| phase := booting;
     toolCalls := 0;
     toolErrors := 0;
     turns := 0;
     maxTurns := effectiveMaxTurns options;
     maxToolCalls := effectiveMaxToolCalls options;
     exitCode := None;
     stopReason := None;
     errorMessage := None;
     truncation := {| stdoutOverflow := false; stderrOverflow := false;
                      finalTextTruncated := false |};
     events := [] |}.

Definition initialPolicyState : Hook.ReplicantPolicyState :=
  {| Hook.turnIndex := 0; Hook.toolCalls := 0;
     Hook.violation := None; Hook.turnBudgetBlocked := None |}.

Definition factoryInput (options : RunReplicantSubprocessOptions)
  : ReplicantSessionFactoryInput :=
  {| inCwd := cwd options;
     inSystemPrompt := systemPrompt options;
     inTools := tools options;
     inModel := model options;
     inMaxTurns := effectiveMaxTurns options;
     inMaxToolCalls := effectiveMaxToolCalls options;
     inScope := scope options;
     inPolicyState := initialPolicyState |}.

(** *** Field updates of the shared details record *)

Definition setPhase (p : ReplicantPhase) (d : ReplicantSubprocessDetails) :=
  {| phase := p; toolCalls := toolCalls d; toolErrors := toolErrors d; turns := turns d;
     maxTurns := maxTurns d; maxToolCalls := maxToolCalls d; exitCode := exitCode d;
     stopReason := stopReason d; errorMessage := errorMessage d;
     truncation := truncation d; events := events d |}.

Definition setCounters (calls errors turnCount : Z) (d : ReplicantSubprocessDetails) :=
  {| phase := phase d; toolCalls := calls; toolErrors := errors; turns := turnCount;
     maxTurns := maxTurns d; maxToolCalls := maxToolCalls d; exitCode := exitCode d;
     stopReason := stopReason d; errorMessage := errorMessage d;
     truncation := truncation d; events := events d |}.

Definition setExitCode (c : Z) (d : ReplicantSubprocessDetails) :=
  {| phase := phase d; toolCalls := toolCalls d; toolErrors := toolErrors d; turns := turns d;
     maxTurns := maxTurns d; maxToolCalls := maxToolCalls d; exitCode := Some c;
     stopReason := stopReason d; errorMessage := errorMessage d;
     truncation := truncation d; events := events d |}.

Definition setStopReason (r : option string) (d : ReplicantSubprocessDetails) :=
  {| phase := phase d; toolCalls := toolCalls d; toolErrors := toolErrors d; turns := turns d;
     maxTurns := maxTurns d; maxToolCalls := maxToolCalls d; exitCode := exitCode d;
     stopReason := r; errorMessage := errorMessage d;
     truncation := truncation d; events := events d |}.

Definition setErrorMessage (m : option string) (d : ReplicantSubprocessDetails) :=
  {| phase := phase d; toolCalls := toolCalls d; toolErrors := toolErrors d; turns := turns d;
     maxTurns := maxTurns d; maxToolCalls := maxToolCalls d; exitCode := exitCode d;
     stopReason := stopReason d; errorMessage := m;
     truncation := truncation d; events := events d |}.

Definition setFinalTextTruncated (b : bool) (d : ReplicantSubprocessDetails) :=
  {| phase := phase d; toolCalls := toolCalls d; toolErrors := toolErrors d; turns := turns d;
     maxTurns := maxTurns d; maxToolCalls := maxToolCalls d; exitCode := exitCode d;
     stopReason := stopReason d; errorMessage := errorMessage d;
     truncation := {| stdoutOverflow := stdoutOverflow (truncation d);
                      stderrOverflow := stderrOverflow (truncation d);
                      finalTextTruncated := b |};
     events := events d |}.

(** [details.events.push(e); if (details.events.length > MAX_EVENTS_TO_KEEP)
    details.events.shift()] *)
Definition pushEvent (e : ToolEvent) (d : ReplicantSubprocessDetails) :=
  let pushed := (events d ++ [e])%list in
  {| phase := phase d; toolCalls := toolCalls d; toolErrors := toolErrors d; turns := turns d;
     maxTurns := maxTurns d; maxToolCalls := maxToolCalls d; exitCode := exitCode d;
     stopReason := stopReason d; errorMessage := errorMessage d;
     truncation := truncation d;
     events := if (MAX_EVENTS_TO_KEEP <? List.length pushed)%nat then tl pushed else pushed |}.

(** *** The run as it unfolds *)

Record RunState : Type := {
  current : ReplicantSubprocessDetails;
  text : string;
  abortedBySignal : bool
}.

Definition eventToolName (event : JsValue) : string :=
  match Js.asString (Js.get event "toolName") with
  | Some n => n
  | None => "unknown"
  end.

(** The stop reason and error message an assistant message carries over
    into the details; a field that is not a string leaves the old value. *)
Definition absorbMessage (message : JsValue) (d : ReplicantSubprocessDetails)
  : ReplicantSubprocessDetails :=
  let d1 :=
    match Js.asString (Js.get message "stopReason") with
    | Some r => setStopReason (Some r) d
    | None => d
    end in
  match Js.asString (Js.get message "errorMessage") with
  | Some m => if nonEmpty (trim m) then setErrorMessage (Some (trim m)) d1 else d1
  | None => d1
  end.

Definition latestText (message : JsValue) (previous : string) : string :=
  let t := extractAssistantText message in
  if nonEmpty t then t else previous.

(** The listener passed to [session.subscribe]. *)
Definition onSessionEvent (event : JsValue) (now : Z) (st : RunState) : RunState :=
  let d := current st in
  let kind := Js.get event "type" in
  if isString kind "turn_end" then
    {| current := setCounters (toolCalls d) (toolErrors d) (turns d + 1) d;
       text := text st; abortedBySignal := abortedBySignal st |}
  else if isString kind "tool_execution_start" then
    let d1 := setCounters (toolCalls d + 1) (toolErrors d) (turns d) (setPhase exploring d) in
    {| current := pushEvent {| type := tool_start; toolName := eventToolName event;
                               args := Some (Js.get event "args"); isError := None;
                               timestamp := now |} d1;
       text := text st; abortedBySignal := abortedBySignal st |}
  else if isString kind "tool_execution_end" then
    let failed := Js.truthy (Js.get event "isError") in
    let d1 := setCounters (toolCalls d) (if failed then toolErrors d + 1 else toolErrors d)
                          (turns d) (setPhase exploring d) in
    {| current := pushEvent {| type := tool_end; toolName := eventToolName event;
                               args := None; isError := Some failed;
                               timestamp := now |} d1;
       text := text st; abortedBySignal := abortedBySignal st |}
  else if isString kind "message_update" then
    {| current := setPhase writing d; text := text st;
       abortedBySignal := abortedBySignal st |}
  else if isString kind "message_end"
          && isString (Js.get (Js.get event "message") "role") "assistant" then
    let message := Js.get event "message" in
    {| current := setPhase writing (absorbMessage message d);
       text := latestText message (text st);
       abortedBySignal := abortedBySignal st |}
  else st.

(** [onAbort] *)
Definition onAbort (st : RunState) : RunState :=
  {| current := setPhase aborted (current st); text := text st; abortedBySignal := true |}.

Definition react (st : RunState) (s : Stimulus) : RunState :=
  match s with
  | Delivered event now => onSessionEvent event now st
  | SignalAborted => onAbort st
  end.

(** After [prompt] settles: the session's own log is consulted for a last
    assistant message. *)
Definition consultLog (messages : list JsValue) (st : RunState) : RunState :=
  match getLastAssistantMessage messages with
  | Some lastAssistant =>
      {| current := absorbMessage lastAssistant (current st);
         text := latestText lastAssistant (text st);
         abortedBySignal := abortedBySignal st |}
  | None => st
  end.

Definition failWith (p : ReplicantPhase) (message : option string) (errorText : string)
    (d : ReplicantSubprocessDetails) : RunOutcome :=
  let d1 := setPhase p d in
  let d2 := match message with Some m => setErrorMessage (Some m) d1 | None => d1 end in
  Rejected errorText (setExitCode 1 d2).

Definition stopReasonText (reason : string) (d : ReplicantSubprocessDetails) : string :=
  match truthyText (errorMessage d) with
  | Some m => "Replicant subagent reported stopReason=" ++ reason ++ ": " ++ m
  | None => "Replicant subagent reported stopReason=" ++ reason ++ "."
  end.

Definition stopReasonIs (d : ReplicantSubprocessDetails) (reason : string) : bool :=
  match stopReason d with
  | Some r => String.eqb r reason
  | None => false
  end.

Section Ceiling.

(** [DEFAULT_MAX_BYTES] and [DEFAULT_MAX_LINES] are constants of the agent
    library the programme imports; they are parameters here. *)
Variables DEFAULT_MAX_BYTES DEFAULT_MAX_LINES : nat.

Definition MAX_FINAL_TEXT_BYTES : nat := DEFAULT_MAX_BYTES.
Definition MAX_FINAL_TEXT_LINES : nat := DEFAULT_MAX_LINES.

Record TruncationResult : Type := { content : string; truncated : bool }.

(** The leading whole lines that fit: at most [linesLeft] of them, and at
    most [maxBytes] bytes counting one byte for each joining newline. *)
Fixpoint leadingLines (lines : list string) (linesLeft : nat) (first : bool)
    (usedBytes maxBytes : nat) : list string :=
  match lines, linesLeft with
  | line :: rest, S k =>
      let lineBytes := (byteLength line + (if first then 0 else 1))%nat in
      if (maxBytes <? usedBytes + lineBytes)%nat then []
      else line :: leadingLines rest k false (usedBytes + lineBytes)%nat maxBytes
  | _, _ => []
  end.

(** Modelled from the spec: [truncateHead], a helper of the imported agent
    library whose source is not part of the repository.  "Truncate the
    final text to a fixed maximum byte/line ceiling, from the head": text
    within both ceilings comes back as it is and is not flagged; otherwise
    the result is flagged and holds the leading whole lines that fit (none
    when the first line alone is over the byte ceiling). *)
Definition truncateHead (input : string) (maxBytes maxLines : nat) : TruncationResult :=
  let lines := split newline input in
  if (List.length lines <=? maxLines)%nat && (byteLength input <=? maxBytes)%nat then
    {| content := input; truncated := false |}
  else
    {| content := join (String newline "") (leadingLines lines maxLines true 0 maxBytes);
       truncated := true |}.

Definition truncationMarker : string :=
  String newline (String newline "[replicant output truncated]").

(** The decisions taken once [prompt] has settled and the log has been
    consulted, in the order of the source. *)
Definition settle (policy : Hook.ReplicantPolicyState) (promptError : option string)
    (st : RunState) : RunOutcome :=
  let d := current st in
  match truthyText (Hook.violation policy) with
  | Some v => failWith error (Some v) v d
  | None =>
  if abortedBySignal st then failWith aborted None "Replicant subagent was aborted." d
  else
  match promptError with
  | Some e => failWith error (Some e) e d
  | None =>
  match (if nonEmpty (trim (text st)) then None
         else truthyText (Hook.turnBudgetBlocked policy)) with
  | Some b => failWith error (Some b) b d
  | None =>
  if stopReasonIs d "error" then failWith error None (stopReasonText "error" d) d
  else if stopReasonIs d "aborted" then failWith aborted None (stopReasonText "aborted" d) d
  else
    let cut := truncateHead (if nonEmpty (text st) then text st else "(no output)")
                            MAX_FINAL_TEXT_BYTES MAX_FINAL_TEXT_LINES in
    let finalOutput :=
      if truncated cut then content cut ++ truncationMarker else content cut in
    Resolved {| finalText := finalOutput;
                details := setExitCode 0 (setPhase done
                             (setFinalTextTruncated (truncated cut) d)) |}
  end end end.

(** [runReplicantSubprocess]: [script] plays the session factory, the
    session and the cancellation signal. *)
Definition runReplicantSubprocess (options : RunReplicantSubprocessOptions)
    (script : SessionScript) : RunOutcome :=
  let booted := {| current := initialDetails options; text := "";
                   abortedBySignal := false |} in
  match factoryFailure script with
  | Some e => Rejected e (current booted)
  | None =>
      let attached := if signalAbortedAtBoot script then onAbort booted else booted in
      let prompted := fold_left react (stimuli script) attached in
      settle (policyAtSettle script) (promptFailure script)
             (consultLog (messages script) prompted)
  end.

End Ceiling.

End Supervisor.

(* ===================================================================== *)
(** ** The repository resolver ([offworld.ts]) *)
(* ===================================================================== *)

(** The parsed output of [ow map show --json].  [fullName] is not part of
    the declared type: it is the value under the key [fullName] when the
    parsed object has that key, which [toRepoSlug] tests for. *)
Module MapShowJson.
Record t : Type := {
  found : bool;
  scope : option string;
  qualifiedName : option string;
  fullName : option string;
  localPath : option string;
  primary : option string;
  referencePath : option string;
  keywords : option (list string)
}.
End MapShowJson.

Module MapSearchEntry.
Record t : Type := {
  qualifiedName : string;
  fullName : string;
  localPath : string;
  primary : string;
  keywords : list string;
  score : Q
}.
End MapSearchEntry.

Module ResolvedRepo.
Inductive Origin : Type := existing | pulled.
Record t : Type := {
  repo : string;
  qualifiedName : string;
  scope : string;
  clonePath : string;
  referencePath : string;
  resolvedFrom : Origin;
  searchCandidates : list (string * Q)
}.
End ResolvedRepo.

Module Offworld.

Import JsStr.

Inductive ErrorCode : Type :=
| ow_missing | repo_unresolved | repo_ambiguous | missing_assets
| pull_rejected | pull_failed | invalid_map.

(** [ReplicantOffworldError], without its free-form [details] payload. *)
Record ReplicantOffworldError : Type := {
  message : string;
  code : ErrorCode;
  remediation : option string
}.

(** A promise of the resolver: fulfilled, or rejected with its error. *)
Inductive Attempt (A : Type) : Type :=
| Fulfilled (value : A)
| Failed (err : ReplicantOffworldError).
Arguments Fulfilled {A} value.
Arguments Failed {A} err.

Definition andThen {A B : Type} (a : Attempt A) (k : A -> Attempt B) : Attempt B :=
  match a with
  | Fulfilled v => k v
  | Failed e => Failed e
  end.

Notation "x <- a ;; k" := (andThen a (fun x => k))
  (at level 61, a at next level, right associativity).

Definition raise {A : Type} (m : string) (c : ErrorCode) (r : option string) : Attempt A :=
  Failed {| message := m; code := c; remediation := r |}.

Record OwExecResult : Type := { stdout : string; stderr : string; exitStatus : Z }.

Inductive FileKind : Type := Directory | RegularFile | OtherKind.

(** What the machine answers at one moment: the [ow] binary and the disk.
    [stat p = None] is [fs.stat] throwing. *)
Record HostState : Type := {
  exec : list string -> OwExecResult;
  stat : string -> option FileKind
}.

(** The host of one resolution.  A pull is the only step that changes what
    the machine answers: [afterPull] is the machine once it has run.  The
    working directory and the signal handed to [pi.exec], and the [onStatus]
    notifications, are not part of the model. *)
Record Host : Type := {
  hasUI : bool;
  beforePull : HostState;
  afterPull : HostState;
  select : string -> list string -> option string;
  confirm : string -> string -> bool
}.

Record ResolveRepoOptions : Type := {
  task : string;
  repoHint : option string
}.

(** The argument of [toRepoSlug]: one of the two shapes of its union type. *)
Inductive SlugSource : Type :=
| WithQualifiedName (qualifiedName : option string)
| WithFullName (fullName : string).

Definition toRepoSlug (entry : SlugSource) : string :=
  match entry with
  | WithFullName fullName => fullName
  | WithQualifiedName qualifiedName =>
      let q := match qualifiedName with Some x => x | None => "" end in
      if includesChar q colon then nth 1 (split colon q) q else q
  end.

(** A map entry as [toRepoSlug] sees it: ["fullName" in entry] comes
    first. *)
Definition entryOfShow (show : MapShowJson.t) : SlugSource :=
  match MapShowJson.fullName show with
  | Some fullName => WithFullName fullName
  | None => WithQualifiedName (MapShowJson.qualifiedName show)
  end.

Definition pathIsDir (m : HostState) (p : string) : bool :=
  match stat m p with
  | Some Directory => true
  | _ => false
  end.

Definition pathIsFile (m : HostState) (p : string) : bool :=
  match stat m p with
  | Some RegularFile => true
  | _ => false
  end.

Definition pathLooksLikeClone (m : HostState) (repoPath : string) : bool :=
  if negb (pathIsDir m repoPath) then false
  else match stat m (PosixPath.joinPaths [repoPath; ".git"]) with
       | Some Directory | Some RegularFile => true
       | _ => false
       end.

Definition allowlist : list string := ["--version"; "map show"; "map search"; "pull"].

Definition commandHead (args : list string) : string :=
  match args with
  | first :: _ =>
      if String.eqb first "--version" then "--version"
      else if String.eqb first "pull" then "pull"
      else join " " (firstn 2 args)
  | [] => ""
  end.

Definition runOw (m : HostState) (args : list string) : Attempt OwExecResult :=
  if negb (existsb (String.eqb (commandHead args)) allowlist) then
    raise ("Disallowed ow command: ow " ++ join " " args) invalid_map None
  else Fulfilled (exec m args).

Definition ensureOwInstalled (m : HostState) : Attempt unit :=
  result <- runOw m ["--version"] ;;
  if negb (exitStatus result =? 0)%Z then
    raise "Offworld CLI (`ow`) is not available." ow_missing
          (Some "Install Offworld: curl -fsSL https://offworld.sh/install | bash")
  else Fulfilled tt.

(** [task.trim().replace(/\s+/g, " ").slice(0, 120)] *)
Fixpoint collapseSpaces (s : string) (inRun : bool) : string :=
  match s with
  | EmptyString => EmptyString
  | String c r =>
      if is_ws c then (if inRun then collapseSpaces r true
                       else String " "%char (collapseSpaces r true))
      else String c (collapseSpaces r false)
  end.

Definition extractSearchTerm (task : string) : string :=
  substring 0 120 (collapseSpaces (trim task) false).

(** [s] between two double quotes. *)
Definition quoted (s : string) : string :=
  String (chr 34) (s ++ String (chr 34) "").

Definition buildPullArgs (repo : string) : list string := ["pull"; repo; "--clone-only"].

Definition formatOwCommand (args : list string) : string := "ow " ++ join " " args.

Definition pullRepo (m : HostState) (repo : string) : Attempt unit :=
  let pullArgs := buildPullArgs repo in
  let pullCommand := formatOwCommand pullArgs in
  result <- runOw m pullArgs ;;
  if negb (exitStatus result =? 0)%Z then
    raise ("Failed to pull " ++ repo ++ ".") pull_failed
          (Some ("Run manually: " ++ pullCommand))
  else Fulfilled tt.

(** [picked.replace(/\s+\(score [^)]+\)\s*$/, "")] *)
Fixpoint allSpaces (s : string) : bool :=
  match s with
  | EmptyString => true
  | String c r => is_ws c && allSpaces r
  end.

Fixpoint afterScoreBody (s : string) (seen : bool) : bool :=
  match s with
  | EmptyString => false
  | String c r =>
      if Ascii.eqb c ")"%char then seen && allSpaces r else afterScoreBody r true
  end.

Definition scoreTail (s : string) : bool :=
  if startsWith s "(score " then afterScoreBody (substring 7 (String.length s - 7) s) false
  else false.

Fixpoint spacesThenScoreTail (s : string) (seen : bool) : bool :=
  match s with
  | EmptyString => false
  | String c r => if is_ws c then spacesThenScoreTail r true else seen && scoreTail s
  end.

Fixpoint stripScoreSuffix (s : string) : string :=
  match s with
  | EmptyString => EmptyString
  | String c r => if spacesThenScoreTail s false then EmptyString
                  else String c (stripScoreSuffix r)
  end.

Section Resolver.

(** Library and regular-expression services the resolver relies on, kept
    abstract: [JSON.parse] followed by the unchecked cast to the declared
    type ([None] when parsing throws), the printing of a number inside a
    template, and the two-pattern scan of [extractRepoHintFromTask]. *)
Variable parseShow : string -> option MapShowJson.t.
Variable parseSearch : string -> option (list MapSearchEntry.t).
Variable numberToString : Q -> string.
Variable extractRepoHintFromTask : string -> option string.

Definition parseJson {T : Type} (parse : string -> option T) (raw context : string)
  : Attempt T :=
  match parse raw with
  | Some v => Fulfilled v
  | None => raise ("Failed to parse JSON from " ++ context ++ ".") invalid_map None
  end.

Definition mapShow (m : HostState) (repo : string) : Attempt MapShowJson.t :=
  result <- runOw m ["map"; "show"; repo; "--json"] ;;
  if negb (exitStatus result =? 0)%Z then
    raise ("Failed to run ow map show " ++ repo ++ " --json.") invalid_map None
  else parseJson parseShow (stdout result) ("ow map show " ++ repo ++ " --json").

Definition mapSearch (m : HostState) (term : string) : Attempt (list MapSearchEntry.t) :=
  result <- runOw m ["map"; "search"; term; "--json"] ;;
  if negb (exitStatus result =? 0)%Z then
    raise ("Failed to run ow map search " ++ term ++ " --json.") invalid_map None
  else parseJson parseSearch (stdout result) ("ow map search " ++ term ++ " --json").

Definition label (c : MapSearchEntry.t) : string :=
  MapSearchEntry.fullName c ++ " (score " ++ numberToString (MapSearchEntry.score c) ++ ")".

Definition selectCandidate (ctx : Host) (candidates : list MapSearchEntry.t)
  : Attempt MapSearchEntry.t :=
  match candidates with
  | [only] => Fulfilled only
  | _ =>
      let max := Nat.min 6 (List.length candidates) in
      let top := firstn max candidates in
      if hasUI ctx then
        let options := map (fun c => (label c, c)) top in
        match truthyText
                (select ctx "Choose repository for replicant" (map fst options)) with
        | None =>
            raise "Repository selection canceled." repo_unresolved
                  (Some "Re-run with an explicit `repo` value.")
        | Some picked =>
            match find (fun option => String.eqb (fst option) picked) options with
            | Some pickedOption => Fulfilled (snd pickedOption)
            | None =>
                let pickedRepo := stripScoreSuffix picked in
                match find (fun c => String.eqb (MapSearchEntry.fullName c) pickedRepo) top with
                | Some matched => Fulfilled matched
                | None =>
                    raise "Repository selection did not match available candidates."
                          repo_ambiguous (Some "Re-run with an explicit `repo` value.")
                end
            end
        end
      else
        raise "Multiple Offworld map matches found; repository is ambiguous in non-interactive mode."
              repo_ambiguous
              (Some ("Re-run with an explicit `repo` value (e.g. `repo: " ++ quoted "owner/repo"
                     ++ "`)."))
  end.

Definition falsy (o : option string) : bool :=
  match truthyText o with
  | Some _ => false
  | None => true
  end.

(** The search branch: taken when neither the hint nor the task names a
    repository. *)
Definition searchAndSelect (ctx : Host) (task : string)
  : Attempt (string * list (string * Q)) :=
  let term := extractSearchTerm task in
  matches <- mapSearch (beforePull ctx) term ;;
  let searchCandidates :=
    map (fun m => (MapSearchEntry.fullName m, MapSearchEntry.score m)) matches in
  if (List.length matches =? 0)%nat then
    raise "No Offworld map matches found for this task." repo_unresolved
          (Some ("Pull a repository first, e.g. `ow pull owner/repo --clone-only`, then retry with `repo: "
                 ++ quoted "owner/repo" ++ "`."))
  else
    selected <- selectCandidate ctx matches ;;
    Fulfilled (MapSearchEntry.fullName selected, searchCandidates).

(** The pull branch: taken when the map entry has no usable clone.  Yields
    the machine and the map entry to go on with. *)
Definition pullMissing (ctx : Host) (effectiveRepo : string)
  : Attempt (HostState * MapShowJson.t) :=
  if hasUI ctx
     && negb (confirm ctx "Pull repository with Offworld?"
                ("Replicant needs a local clone for " ++ effectiveRepo ++ ". Run ow pull "
                 ++ effectiveRepo ++ " --clone-only now?"))
  then
    raise ("Pull canceled for " ++ effectiveRepo ++ ".") pull_rejected
          (Some ("Run manually: ow pull " ++ effectiveRepo ++ " --clone-only"))
  else
    _ <- pullRepo (beforePull ctx) effectiveRepo ;;
    show <- mapShow (afterPull ctx) effectiveRepo ;;
    Fulfilled (afterPull ctx, show).

Definition referenceOk (m : HostState) (referencePath : string) : bool :=
  (0 <? String.length referencePath)%nat
  && negb (endsWithChar referencePath slash)
  && negb (endsWithChar referencePath backslash)
  && pathIsFile m referencePath.

Definition resolveRepoWithOffworld (ctx : Host) (options : ResolveRepoOptions)
  : Attempt ResolvedRepo.t :=
  _ <- ensureOwInstalled (beforePull ctx) ;;
  let hinted :=
    match repoHint options with
    | Some h => Some h
    | None => extractRepoHintFromTask (task options)
    end in
  chosen <- (if falsy hinted then searchAndSelect ctx (task options)
             else Fulfilled (match hinted with Some h => h | None => "" end, [])) ;;
  let '(selectedRepo, searchCandidates) := chosen in
  if negb (nonEmpty selectedRepo) then
    raise "Repository could not be determined." repo_unresolved None
  else
    show <- mapShow (beforePull ctx) selectedRepo ;;
    if negb (MapShowJson.found show) then
      raise ("Repository not found in Offworld map: " ++ selectedRepo) repo_unresolved
            (Some ("Run: ow pull " ++ selectedRepo ++ " --clone-only"))
    else
      let effectiveRepo := toRepoSlug (entryOfShow show) in
      let hasClone :=
        match truthyText (MapShowJson.localPath show) with
        | Some localPath => pathLooksLikeClone (beforePull ctx) localPath
        | None => false
        end in
      let missingAssets := negb hasClone in
      located <- (if missingAssets then
                    pulledShow <- pullMissing ctx effectiveRepo ;;
                    Fulfilled (ResolvedRepo.pulled, pulledShow)
                  else Fulfilled (ResolvedRepo.existing, (beforePull ctx, show))) ;;
      let '(resolvedFrom, (machine, show)) := located in
      let clonePath := match MapShowJson.localPath show with Some x => x | None => "" end in
      let referencePath :=
        match MapShowJson.referencePath show with Some x => x | None => "" end in
      let cloneOk := (0 <? String.length clonePath)%nat && pathLooksLikeClone machine clonePath in
      let resolvedReferencePath :=
        if referenceOk machine referencePath then referencePath else "" in
      if negb cloneOk then
        raise ("Offworld map entry is incomplete after resolution for " ++ effectiveRepo
               ++ ". clone=false") missing_assets
              (Some ("Run: ow pull " ++ effectiveRepo ++ " --clone-only"))
      else
        Fulfilled
          {| ResolvedRepo.repo := effectiveRepo;
             ResolvedRepo.qualifiedName :=
               match MapShowJson.qualifiedName show with
               | Some x => x
               | None => "github.com:" ++ effectiveRepo
               end;
             ResolvedRepo.scope :=
               match MapShowJson.scope show with Some x => x | None => "unknown" end;
             ResolvedRepo.clonePath := clonePath;
             ResolvedRepo.referencePath := resolvedReferencePath;
             ResolvedRepo.resolvedFrom := resolvedFrom;
             ResolvedRepo.searchCandidates := searchCandidates |}.

End Resolver.

End Offworld.

(* ===================================================================== *)
(** ** Vocabulary of the statements *)
(* ===================================================================== *)

Module Stated.

Import JsStr PosixPath Policy.

(** Containment by path prefix: the segments of the root lead the segments
    of the target. *)
Definition liesWithin (pcwd target root : string) : Prop :=
  exists rest, segmentsOf pcwd target = (segmentsOf pcwd root ++ rest)%list.

(** The same, where the first segment below the root, if there is one, does
    not itself begin with two dots. *)
Definition liesPlainlyWithin (pcwd target root : string) : Prop :=
  exists rest,
    segmentsOf pcwd target = (segmentsOf pcwd root ++ rest)%list
    /\ match rest with
       | [] => True
       | s :: _ => startsWith s ".." = false
       end.

Definition underBudget (o : ToolCallPolicyInput) : Prop :=
  (turnIndex o < maxTurns o - 1)%Z /\ (toolCalls o < maxToolCalls o)%Z.

(** A non-empty scope. *)
Definition restricted (sc : ResolvedScope) : Prop :=
  allowedRoots sc <> [] \/ allowedFiles sc <> [].

(** The string [pattern] of a [find] call or the string [glob] of a [grep]
    call, when the call has one. *)
Definition globArgument (o : ToolCallPolicyInput) : option string :=
  if String.eqb (toolName o) "find" then
    Js.asString (Js.get (normalizeToolInput (input o)) "pattern")
  else if String.eqb (toolName o) "grep" then
    Js.asString (Js.get (normalizeToolInput (input o)) "glob")
  else None.

Definition noUnsafeGlob (o : ToolCallPolicyInput) : Prop :=
  forall p, globArgument o = Some p -> hasUnsafeGlobSegments p = false.

(** An absolute pattern, or one with a [..] segment. *)
Definition escapes (p : string) : Prop :=
  isAbsolute p = true \/ In ".." (split slash p).

(** The path argument of a call, as written by the caller. *)
Definition pathArgument (o : ToolCallPolicyInput) : string :=
  rawPathOf (normalizeToolInput (input o)).

(** The path the checker tests: the argument trimmed, freed of one leading
    [@], and resolved against the scope's working directory. *)
Definition testedPath (pcwd : string) (o : ToolCallPolicyInput) : string :=
  resolve pcwd [cwd (scope o); normalizeToolPath (pathArgument o)].

(** The path argument resolved against the scope's working directory as it
    stands. *)
Definition plainlyResolvedPath (pcwd : string) (o : ToolCallPolicyInput) : string :=
  resolve pcwd [cwd (scope o); pathArgument o].

Definition inScope (pcwd : string) (o : ToolCallPolicyInput) (resolved : string) : Prop :=
  (exists root, In root (allowedRoots (scope o)) /\ liesWithin pcwd resolved root)
  \/ In resolved (allowedFiles (scope o)).

Definition plainlyInScope (pcwd : string) (o : ToolCallPolicyInput) (resolved : string)
  : Prop :=
  (exists root, In root (allowedRoots (scope o)) /\ liesPlainlyWithin pcwd resolved root)
  \/ In resolved (allowedFiles (scope o)).

(** The scope rule with the path argument resolved as it stands and with
    containment by path prefix. *)
Definition statedScopeRule (pcwd : string) (o : ToolCallPolicyInput) : Prop :=
  In (toolName o) pathSensitiveTools ->
  underBudget o ->
  restricted (scope o) ->
  noUnsafeGlob o ->
  (getToolCallPolicyViolation pcwd o = None
   <-> inScope pcwd o (plainlyResolvedPath pcwd o))
  /\ (~ inScope pcwd o (plainlyResolvedPath pcwd o) ->
      getToolCallPolicyViolation pcwd o
      = Some (outOfScopeMessage (toolName o) (pathArgument o) (scope o))).

(** *** Sample calls *)

Definition repoScope : ResolvedScope :=
  {| cwd := "/work/repo"; allowedRoots := ["/work/repo"]; allowedFiles := [] |}.

Definition openScope : ResolvedScope :=
  {| cwd := "/work/repo"; allowedRoots := []; allowedFiles := [] |}.

Definition sampleCall (tool : string) (fields : list (string * JsValue))
    (turn calls : Z) (sc : ResolvedScope) : ToolCallPolicyInput :=
  {| toolName := tool; input := JObj fields; turnIndex := turn; toolCalls := calls;
     maxTurns := 6; maxToolCalls := 24; scope := sc |}.

(** [read] of a path written with a leading [@]. *)
Definition atPathCall : ToolCallPolicyInput :=
  sampleCall "read" [("path", JStr "@/etc/passwd")] 0 0 repoScope.

(** [read] below a directory of the repository whose name begins with two
    dots. *)
Definition dottedNameCall : ToolCallPolicyInput :=
  sampleCall "read" [("path", JStr "..cache/notes.md")] 0 0 repoScope.

Definition readmeCall : ToolCallPolicyInput :=
  sampleCall "read" [("path", JStr "README.md")] 0 0 repoScope.

(** [find] with a parent-directory pattern under an open scope. *)
Definition openScopeFind : ToolCallPolicyInput :=
  sampleCall "find" [("path", JStr "."); ("pattern", JStr "../**/*.ts")] 0 0 openScope.

Definition scopedFind : ToolCallPolicyInput :=
  sampleCall "find" [("path", JStr "."); ("pattern", JStr "../**/*.ts")] 0 0 repoScope.

(** Both budgets used up at once. *)
Definition spentCall : ToolCallPolicyInput :=
  sampleCall "read" [("path", JStr "README.md")] 5 24 repoScope.

Definition lastCallOfBudget : ToolCallPolicyInput :=
  sampleCall "read" [("path", JStr "README.md")] 0 24 repoScope.

(** A segment of a resolved path: not empty and free of separators. *)
Definition properSegment (s : string) : Prop :=
  s <> "" /\ includesChar s slash = false.

(** [f] applied to the last element only. *)
Fixpoint mapLast {A : Type} (f : A -> A) (l : list A) : list A :=
  match l with
  | [] => []
  | x :: r =>
      match r with
      | [] => [f x]
      | _ => x :: mapLast f r
      end
  end.

End Stated.

#[local] Set Warnings "-abstract-large-number".

Module StatedRun.

Import JsStr Supervisor.

(** The run state when the terminal decisions are taken: the boot state,
    the abort listener when the signal had already fired, every stimulus in
    order, and the look at the session's log. *)
Definition settledState (options : RunReplicantSubprocessOptions) (script : SessionScript)
  : RunState :=
  let booted := {| current := initialDetails options; text := "";
                   abortedBySignal := false |} in
  consultLog (messages script)
    (fold_left react (stimuli script)
       (if signalAbortedAtBoot script then onAbort booted else booted)).

Definition isSignal (s : Stimulus) : bool :=
  match s with
  | SignalAborted => true
  | Delivered _ _ => false
  end.

(** The cancellation signal fired, before the session was attached or
    while it ran. *)
Definition signalFired (script : SessionScript) : bool :=
  signalAbortedAtBoot script || existsb isSignal (stimuli script).

(** A value that passes a JavaScript truth test: a string that is there and
    is not empty. *)
Definition recorded (o : option string) : option string := truthyText o.

(** Empty, or white space only. *)
Definition blank (t : string) : Prop := nonEmpty (trim t) = false.

Definition detailsOf (out : RunOutcome) : ReplicantSubprocessDetails :=
  match out with
  | Resolved r => details r
  | Rejected _ d => d
  end.

(** The error raised (if any), the final phase and the exit code. *)
Definition ending (out : RunOutcome) : option string * ReplicantPhase * option Z :=
  match out with
  | Resolved r => (None, phase (details r), exitCode (details r))
  | Rejected e d => (Some e, phase d, exitCode d)
  end.

Definition lineCount (s : string) : nat := List.length (split newline s).

(** At or below the ceiling of [maxBytes] bytes and [maxLines] lines. *)
Definition withinCeiling (maxBytes maxLines : nat) (s : string) : Prop :=
  (lineCount s <= maxLines)%nat /\ (byteLength s <= maxBytes)%nat.

(** The text handed to truncation: the final text, or a placeholder when
    there is none. *)
Definition shownText (t : string) : string :=
  if nonEmpty t then t else "(no output)".

(** Bytes of [lines] once joined by newlines; [first] tells whether the
    first of them opens the text. *)
Fixpoint joinedBytes (first : bool) (lines : list string) : nat :=
  match lines with
  | [] => 0
  | line :: rest =>
      (byteLength line + (if first then 0 else 1) + joinedBytes false rest)%nat
  end.

(** A budget option that is omitted, not a finite number, or not strictly
    positive. *)
Definition unusableBudget (v : option JsNumber) : Prop :=
  v = None \/ v = Some NaN \/ v = Some PosInfinity \/ v = Some NegInfinity
  \/ exists q, v = Some (Finite q) /\ (q <= 0)%Q.

(** *** Sample runs *)

Definition sampleOptions : RunReplicantSubprocessOptions :=
  {| cwd := "/work/repo"; systemPrompt := "sys"; taskPrompt := "task";
     tools := ["read"]; model := None; optMaxTurns := None;
     optMaxToolCalls := None; scope := None |}.

Definition fractionalOptions : RunReplicantSubprocessOptions :=
  {| cwd := "/work/repo"; systemPrompt := "sys"; taskPrompt := "task";
     tools := ["read"]; model := None; optMaxTurns := Some (Finite (5 # 2));
     optMaxToolCalls := Some (Finite (-3)); scope := None |}.

Definition assistantMessage (body stop : string) : JsValue :=
  JObj [("role", JStr "assistant");
        ("content", JArr [JObj [("type", JStr "text"); ("text", JStr body)]]);
        ("stopReason", JStr stop)].

(** A session that ends without any assistant message. *)
Definition silentScript : SessionScript :=
  {| factoryFailure := None; signalAbortedAtBoot := false; stimuli := [];
     promptFailure := None; messages := [];
     policyAtSettle := initialPolicyState |}.

(** A session that answers in one message. *)
Definition answeringScript (body : string) : SessionScript :=
  {| factoryFailure := None; signalAbortedAtBoot := false;
     stimuli := [Delivered (JObj [("type", JStr "message_end");
                                  ("message", assistantMessage body "end_turn")]) 0];
     promptFailure := None; messages := [assistantMessage body "end_turn"];
     policyAtSettle := initialPolicyState |}.

(** A session whose only message reports an upstream failure. *)
Definition upstreamFailureScript : SessionScript :=
  let message :=
    JObj [("role", JStr "assistant");
          ("content", JArr [JObj [("type", JStr "text"); ("text", JStr "")]]);
          ("stopReason", JStr "error");
          ("errorMessage", JStr "upstream failed")] in
  {| factoryFailure := None; signalAbortedAtBoot := false;
     stimuli := [Delivered (JObj [("type", JStr "message_end"); ("message", message)]) 0];
     promptFailure := None; messages := [message];
     policyAtSettle := initialPolicyState |}.

(** A session that answers although the signal had fired before it was
    attached. *)
Definition cancelledScript : SessionScript :=
  {| factoryFailure := None; signalAbortedAtBoot := true;
     stimuli := [Delivered (JObj [("type", JStr "message_end");
                                  ("message", assistantMessage "done" "end_turn")]) 0];
     promptFailure := None; messages := [assistantMessage "done" "end_turn"];
     policyAtSettle := initialPolicyState |}.

(** A session that answers [body] after a tool call was blocked on the
    final turn. *)
Definition blockedScript (body : string) : SessionScript :=
  {| factoryFailure := None; signalAbortedAtBoot := false;
     stimuli := [Delivered (JObj [("type", JStr "message_end");
                                  ("message", assistantMessage body "end_turn")]) 0];
     promptFailure := None; messages := [assistantMessage body "end_turn"];
     policyAtSettle :=
       {| Hook.turnIndex := 0; Hook.toolCalls := 0; Hook.violation := None;
          Hook.turnBudgetBlocked :=
            Some "Replicant subagent turn budget exceeded (6/6) before producing a final answer." |} |}.

(** A session that reads one file and then answers [body]. *)
Definition readingScript (body : string) : SessionScript :=
  {| factoryFailure := None; signalAbortedAtBoot := false;
     stimuli :=
       [Delivered (JObj [("type", JStr "tool_execution_start"); ("toolName", JStr "read");
                         ("args", JObj [("path", JStr "README.md")])]) 1;
        Delivered (JObj [("type", JStr "tool_execution_end"); ("toolName", JStr "read");
                         ("isError", JBool false)]) 2;
        Delivered (JObj [("type", JStr "message_end");
                         ("message", assistantMessage body "end_turn")]) 3];
     promptFailure := None; messages := [assistantMessage body "end_turn"];
     policyAtSettle := initialPolicyState |}.

(** [line-1], ..., [line-n], one per line. *)
Fixpoint numberedLinesFrom (first count : nat) : list string :=
  match count with
  | O => []
  | S k => ("line-" ++ ofZ (Z.of_nat first)) :: numberedLinesFrom (S first) k
  end.

Definition numberedLines (n : nat) : string :=
  join (String newline "") (numberedLinesFrom 1 n).

(** A session stopped by the policy hook, cancelled from outside, and whose
    prompt call threw, all at once. *)
Definition crowdedScript : SessionScript :=
  {| factoryFailure := None; signalAbortedAtBoot := false;
     stimuli := [SignalAborted];
     promptFailure := Some "socket closed";
     messages := [assistantMessage "partial" "error"];
     policyAtSettle :=
       {| Hook.turnIndex := 2; Hook.toolCalls := 3;
          Hook.violation := Some "out of scope";
          Hook.turnBudgetBlocked := Some "turn budget" |} |}.

End StatedRun.

Module StatedResolver.

Import JsStr Offworld.

(** The hint the resolver starts from: the explicit one, else the one read
    off the task. *)
Definition hintOf (extractRepoHintFromTask : string -> option string)
    (options : ResolveRepoOptions) : option string :=
  match repoHint options with
  | Some h => Some h
  | None => extractRepoHintFromTask (task options)
  end.







(** The slug as text after the last colon. *)
Definition afterLastColon (q : string) : string := last (split colon q) "".

(** *** A sample host *)

Definition entry (name : string) (rank : Q) : MapSearchEntry.t :=
  {| MapSearchEntry.qualifiedName := "github.com:" ++ name;
     MapSearchEntry.fullName := name;
     MapSearchEntry.localPath := "/clones/" ++ name;
     MapSearchEntry.primary := "reference.md";
     MapSearchEntry.keywords := [];
     MapSearchEntry.score := rank |}.

Definition twoMatches : list MapSearchEntry.t :=
  [entry "badlogic/pi-mono" (97 # 100); entry "default-anton/pi-librarian" (11 # 100)].

(** The decoders of the sample host: the search output [two] stands for
    the two matches, the show output [dir] for an entry whose reference
    path ends in a separator. *)
Definition sampleParseSearch (raw : string) : option (list MapSearchEntry.t) :=
  if String.eqb raw "two" then Some twoMatches else None.

Definition sampleParseShow (raw : string) : option MapShowJson.t :=
  if String.eqb raw "dir" then
    Some {| MapShowJson.found := true;
            MapShowJson.scope := Some "global";
            MapShowJson.qualifiedName := Some "github.com:default-anton/pi-librarian";
            MapShowJson.fullName := None;
            MapShowJson.localPath := Some "/clones/pi-librarian";
            MapShowJson.primary := None;
            MapShowJson.referencePath := Some "/refs/references/";
            MapShowJson.keywords := None |}
  else None.

Definition sampleMachine : HostState :=
  {| exec := fun args =>
       match args with
       | ["--version"] => {| stdout := "offworld v0.3.8"; stderr := ""; exitStatus := 0 |}
       | "map" :: "search" :: _ => {| stdout := "two"; stderr := ""; exitStatus := 0 |}
       | "map" :: "show" :: _ => {| stdout := "dir"; stderr := ""; exitStatus := 0 |}
       | _ => {| stdout := ""; stderr := "unexpected command"; exitStatus := 1 |}
       end;
     stat := fun p =>
       if String.eqb p "/clones/pi-librarian" then Some Directory
       else if String.eqb p "/clones/pi-librarian/.git" then Some Directory
       else if String.eqb p "/refs/references" then Some Directory
       else if String.eqb p "/refs/references/" then Some Directory
       else None |}.

Definition sampleHost : Host :=
  {| hasUI := false;
     beforePull := sampleMachine;
     afterPull := sampleMachine;
     select := fun _ _ => None;
     confirm := fun _ _ => true |}.

Definition searchingOptions : ResolveRepoOptions :=
  {| task := "trace subagent architecture"; repoHint := None |}.

Definition hintedOptions : ResolveRepoOptions :=
  {| task := "inspect bootstrap policy";
     repoHint := Some "default-anton/pi-librarian" |}.

Definition noHint (task : string) : option string := None.

Definition plainNumber (q : Q) : string := "0".

End StatedResolver.

(* ===================================================================== *)
(** ** The rest of [subproc.ts] *)
(* ===================================================================== *)

(** A synchronous call that returns a value or throws an [Error]. *)
Inductive Thrown (A : Type) : Type :=
| Returns (value : A)
| Throws (message : string).
Arguments Returns {A} value.
Arguments Throws {A} message.

Module Session.

Import JsStr.

(** [s.indexOf(c)] for a one-unit needle; [None] is [-1]. *)
Fixpoint indexOfChar (s : string) (c : ascii) : option nat :=
  match s with
  | EmptyString => None
  | String a r =>
      if Ascii.eqb a c then Some 0%nat
      else match indexOfChar r c with
           | Some i => Some (S i)
           | None => None
           end
  end.

(** [s.slice(from)] for [0 <= from]. *)
Fixpoint sliceFrom (from : nat) (s : string) : string :=
  match from, s with
  | O, _ => s
  | S k, String _ r => sliceFrom k r
  | S _, EmptyString => EmptyString
  end.

(** [s.slice(0, to)] for [0 <= to]. *)
Fixpoint sliceTo (to : nat) (s : string) : string :=
  match to, s with
  | O, _ => EmptyString
  | S k, String a r => String a (sliceTo k r)
  | S _, EmptyString => EmptyString
  end.

Record ParsedModel : Type := { provider : option string; modelId : string }.

Definition invalidModelFormat (model : string) : string :=
  "Invalid replicant model format: " ++ model ++ ". Expected provider/model.".

Definition parseModel (model : option string) : Thrown (option ParsedModel) :=
  match truthyText model with
  | None => Returns None
  | Some model =>
      let trimmed := trim model in
      if negb (nonEmpty trimmed) then Returns None
      else
        match indexOfChar trimmed slash with
        | None => Returns (Some {| provider := None; modelId := trimmed |})
        | Some slashAt =>
            if (slashAt =? 0)%nat || (slashAt =? String.length trimmed - 1)%nat then
              Throws (invalidModelFormat model)
            else
              let provider := trim (sliceTo slashAt trimmed) in
              let modelId := trim (sliceFrom (slashAt + 1) trimmed) in
              if negb (nonEmpty provider) || negb (nonEmpty modelId) then
                Throws (invalidModelFormat model)
              else Returns (Some {| provider := Some provider; modelId := modelId |})
        end
  end.

(** The four read-only tools a session can be given; [createReadTool(cwd)]
    and its siblings are library constructors, kept as tags. *)
Inductive ReadOnlyTool : Type := ReadTool | GrepTool | FindTool | LsTool.

Definition toolNamed (toolName : string) : option ReadOnlyTool :=
  if String.eqb toolName "read" then Some ReadTool
  else if String.eqb toolName "grep" then Some GrepTool
  else if String.eqb toolName "find" then Some FindTool
  else if String.eqb toolName "ls" then Some LsTool
  else None.

(** The loop of [createReadOnlyToolsForSession]: [seen] is the set of names
    met so far, [selected] the tools pushed so far. *)
Fixpoint selectTools (toolNames seen : list string) (selected : list ReadOnlyTool)
  : Thrown (list ReadOnlyTool) :=
  match toolNames with
  | [] => Returns selected
  | toolName :: rest =>
      if existsb (String.eqb toolName) seen then selectTools rest seen selected
      else
        match toolNamed toolName with
        | Some tool => selectTools rest (toolName :: seen) (selected ++ [tool])%list
        | None => Throws ("Replicant subagent requested unsupported tool: " ++ toolName)
        end
  end.

Definition createReadOnlyToolsForSession (toolNames : list string)
  : Thrown (list ReadOnlyTool) :=
  selectTools toolNames [] [].

(** What the session tells the policy extension, in order. *)
Inductive PolicyEvent : Type :=
| TurnStart (turnIndex : Z)
| ToolCall (toolName : string) (input : JsValue).

(** The handlers of [createPolicyExtension] run on one event. *)
Definition onPolicyEvent (pcwd : string) (scope : Policy.ResolvedScope)
    (maxTurns maxToolCalls : Z) (policyState : Hook.ReplicantPolicyState)
    (event : PolicyEvent) : Hook.Step :=
  match event with
  | TurnStart turnIndex =>
      {| Hook.state := Hook.onTurnStart policyState turnIndex;
         Hook.abortRequested := false;
         Hook.returned := None |}
  | ToolCall toolName input =>
      Hook.onToolCall pcwd scope maxTurns maxToolCalls policyState toolName input
  end.

(** The policy record after a sequence of events, and how many tool calls
    were let through. *)
Fixpoint runPolicy (pcwd : string) (scope : Policy.ResolvedScope)
    (maxTurns maxToolCalls : Z) (policyState : Hook.ReplicantPolicyState)
    (events : list PolicyEvent) : Hook.ReplicantPolicyState :=
  match events with
  | [] => policyState
  | event :: rest =>
      runPolicy pcwd scope maxTurns maxToolCalls
        (Hook.state (onPolicyEvent pcwd scope maxTurns maxToolCalls policyState event)) rest
  end.

Definition letThrough (step : Hook.Step) : bool :=
  match Hook.returned step with
  | Some _ => false
  | None => true
  end.

Fixpoint callsLetThrough (pcwd : string) (scope : Policy.ResolvedScope)
    (maxTurns maxToolCalls : Z) (policyState : Hook.ReplicantPolicyState)
    (events : list PolicyEvent) : Z :=
  match events with
  | [] => 0
  | event :: rest =>
      let step := onPolicyEvent pcwd scope maxTurns maxToolCalls policyState event in
      ((match event with
        | ToolCall _ _ => if letThrough step then 1 else 0
        | TurnStart _ => 0
        end)
       + callsLetThrough pcwd scope maxTurns maxToolCalls (Hook.state step) rest)%Z
  end.

End Session.

(* ===================================================================== *)
(** ** Parameter checks ([schemas.ts]) *)
(* ===================================================================== *)

Module Schemas.

Import JsStr.

Definition MAX_TASK_LENGTH : nat := 4000.
Definition MAX_REPO_LENGTH : nat := 200.
Definition MAX_CWD_LENGTH : nat := 1000.

(** General category [Cc] below 256: U+0000..U+001F and U+007F..U+009F. *)
Definition isControl (c : ascii) : bool :=
  let n := nat_of_ascii c in
  (n <=? 31)%nat || ((127 <=? n)%nat && (n <=? 159)%nat).

(** A code unit matched by [[^\P{Cc}\n\t]]: a control character other than
    the line feed and the tab. *)
Definition isForbidden (c : ascii) : bool :=
  isControl c && negb (Ascii.eqb c newline) && negb (Ascii.eqb c (chr 9)).

Fixpoint anyChar (test : ascii -> bool) (s : string) : bool :=
  match s with
  | EmptyString => false
  | String a r => test a || anyChar test r
  end.

Definition assertNoControlChars (value fieldName : string) : Thrown unit :=
  if anyChar isForbidden value then
    Throws ("Invalid " ++ fieldName ++ ": control characters are not allowed.")
  else Returns tt.

(** One position of an anchored pattern: a literal, the dot (any unit but
    a line terminator) or a class of literals. *)
Inductive Atom : Type :=
| Lit (c : ascii)
| Dot
| OneOf (cs : list ascii).

Definition atomMatches (a : Atom) (c : ascii) : bool :=
  match a with
  | Lit x => Ascii.eqb c x
  | Dot => negb (Ascii.eqb c newline || Ascii.eqb c (chr 13))
  | OneOf cs => existsb (Ascii.eqb c) cs
  end.

(** What is left of [s] after the atoms matched its beginning. *)
Fixpoint afterPrefix (atoms : list Atom) (s : string) : option string :=
  match atoms with
  | [] => Some s
  | a :: rest =>
      match s with
      | EmptyString => None
      | String c r => if atomMatches a c then afterPrefix rest r else None
      end
  end.

Fixpoint lits (s : string) : list Atom :=
  match s with
  | EmptyString => []
  | String c r => Lit c :: lits r
  end.

(** [github.com] as the patterns write it: the dot is not escaped. *)
Definition githubHost : list Atom := (lits "github" ++ [Dot] ++ lits "com")%list.

(** [s.replace(/^https?:\/\/github.com\//, "")] *)
Definition stripGithubUrl (s : string) : string :=
  match afterPrefix (lits "https://" ++ githubHost ++ lits "/")%list s with
  | Some r => r
  | None =>
      match afterPrefix (lits "http://" ++ githubHost ++ lits "/")%list s with
      | Some r => r
      | None => s
      end
  end.

(** [s.replace(/^github.com[:/]/, "")] *)
Definition stripGithubHost (s : string) : string :=
  match afterPrefix (githubHost ++ [OneOf [colon; slash]])%list s with
  | Some r => r
  | None => s
  end.

(** [s.replace(/\.git$/, "")] *)
Fixpoint stripDotGit (s : string) : string :=
  match s with
  | EmptyString => EmptyString
  | String c r => if String.eqb s ".git" then EmptyString else String c (stripDotGit r)
  end.

Definition normalizeRepoHint (repo : option string) : option string :=
  match truthyText repo with
  | None => None
  | Some repo =>
      let trimmed := trim repo in
      if negb (nonEmpty trimmed) then None
      else Some (trim (stripDotGit (stripGithubHost (stripGithubUrl trimmed))))
  end.

End Schemas.

(* ===================================================================== *)
(** ** The tool entry point ([index.ts]) *)
(* ===================================================================== *)

Module Index.

Import JsStr.

Record AgentDefinition : Type := {
  name : string;
  description : string;
  model : option string;
  tools : list string;
  systemPrompt : string
}.

Record ReplicantParams : Type := {
  task : string;
  repo : option string;
  cwd : option string
}.

Definition RECON_TOOLS : list string := ["read"; "grep"; "find"; "ls"].
Definition MAX_TURNS : Z := 10.
Definition MAX_TOOL_CALLS : Z := 60.

Definition toolsForAgent (agent : AgentDefinition) : list string :=
  let selected := filter (fun tool => existsb (String.eqb tool) (tools agent)) RECON_TOOLS in
  if (0 <? List.length selected)%nat then selected else ["read"; "grep"; "find"; "ls"].

Definition tooLong (field : option string) (limit : nat) : bool :=
  match truthyText field with
  | Some v => (limit <? String.length v)%nat
  | None => false
  end.

Definition checkOptional (field : option string) (fieldName : string) : Thrown unit :=
  match truthyText field with
  | Some v => Schemas.assertNoControlChars v fieldName
  | None => Returns tt
  end.

Definition validateParams (params : ReplicantParams) : Thrown ReplicantParams :=
  if (Schemas.MAX_TASK_LENGTH <? String.length (task params))%nat then
    Throws "Invalid task: max length is 4000."
  else if tooLong (repo params) Schemas.MAX_REPO_LENGTH then
    Throws "Invalid repo: max length is 200."
  else if tooLong (cwd params) Schemas.MAX_CWD_LENGTH then
    Throws "Invalid cwd: max length is 1000."
  else
    match Schemas.assertNoControlChars (task params) "task" with
    | Throws m => Throws m
    | Returns _ =>
        match checkOptional (repo params) "repo" with
        | Throws m => Throws m
        | Returns _ =>
            match checkOptional (cwd params) "cwd" with
            | Throws m => Throws m
            | Returns _ => Returns params
            end
        end
    end.

(** [modelFromContext]: [model] is [ctx.model]. *)
Definition modelFromContext (model : JsValue) : option string :=
  let provider :=
    match Js.asString (Js.get model "provider") with Some p => trim p | None => "" end in
  let modelId :=
    match Js.asString (Js.get model "id") with Some m => trim m | None => "" end in
  if negb (nonEmpty provider) || negb (nonEmpty modelId) then None
  else Some (provider ++ "/" ++ modelId).

(** [hostModel ?? agentModel ?? "claude-sonnet-4-5"] *)
Definition modelForRecon (hostModel agentModel : option string) : string :=
  match hostModel with
  | Some h => h
  | None =>
      match agentModel with
      | Some a => a
      | None => "claude-sonnet-4-5"
      end
  end.

(** [toRepoRelativeDisplayPath], with [pcwd] standing for
    [process.cwd()]. *)
Definition toRepoRelativeDisplayPath (pcwd : string) (rawPath : string)
    (repoRoot : option string) : string :=
  match truthyText repoRoot with
  | None => rawPath
  | Some repoRoot =>
      let absoluteRoot := PosixPath.resolve pcwd [repoRoot] in
      let absolutePath :=
        if PosixPath.isAbsolute rawPath then PosixPath.normalize rawPath
        else PosixPath.resolve pcwd [absoluteRoot; rawPath] in
      let relative := PosixPath.relative pcwd absoluteRoot absolutePath in
      if String.eqb relative "" then "."
      else if negb (startsWith relative "..") && negb (PosixPath.isAbsolute relative)
           then backslashesToSlashes relative
      else rawPath
  end.

(** What [execute] hands to the resolver: the task as given and the
    normalized hint. *)
Definition resolverOptions (params : ReplicantParams) : Offworld.ResolveRepoOptions :=
  {| Offworld.task := task params;
     Offworld.repoHint := Schemas.normalizeRepoHint (repo params) |}.

(** The scope [execute] hands to the supervisor. *)
Definition subprocessScope (resolvedRepo : ResolvedRepo.t) : Supervisor.Scope :=
  {| Supervisor.allowedRoots := [ResolvedRepo.clonePath resolvedRepo];
     Supervisor.allowedFiles :=
       Some (if nonEmpty (ResolvedRepo.referencePath resolvedRepo)
             then [ResolvedRepo.referencePath resolvedRepo] else []) |}.

(** The scope the default session's policy hook then checks against. *)
Definition productionScope (pcwd : string) (resolvedRepo : ResolvedRepo.t)
  : Policy.ResolvedScope :=
  Supervisor.resolveScope pcwd (ResolvedRepo.clonePath resolvedRepo)
    (Some (subprocessScope resolvedRepo)).

End Index.

(* ===================================================================== *)
(** ** The resolver with the commands it runs *)
(* ===================================================================== *)

(** The functions of [offworld.ts] once more, each paired with the list of
    argument vectors it hands to [pi.exec("ow", ...)], in order. *)
Module Commands.

Import JsStr Offworld.

Definition Logged (A : Type) : Type := (list (list string) * Attempt A)%type.

Definition quiet {A : Type} (a : Attempt A) : Logged A := ([], a).

Definition thenLogged {A B : Type} (a : Logged A) (k : A -> Logged B) : Logged B :=
  match a with
  | (log, Fulfilled v) => let '(more, r) := k v in ((log ++ more)%list, r)
  | (log, Failed e) => (log, Failed e)
  end.

Notation "x <~ a ;; k" := (thenLogged a (fun x => k))
  (at level 61, a at next level, right associativity).

Definition runOw (m : HostState) (args : list string) : Logged OwExecResult :=
  if negb (existsb (String.eqb (commandHead args)) allowlist) then
    quiet (raise ("Disallowed ow command: ow " ++ join " " args) invalid_map None)
  else ([args], Fulfilled (exec m args)).

Definition ensureOwInstalled (m : HostState) : Logged unit :=
  result <~ runOw m ["--version"] ;;
  quiet (if negb (exitStatus result =? 0)%Z then
           raise "Offworld CLI (`ow`) is not available." ow_missing
                 (Some "Install Offworld: curl -fsSL https://offworld.sh/install | bash")
         else Fulfilled tt).

Definition pullRepo (m : HostState) (repo : string) : Logged unit :=
  let pullArgs := buildPullArgs repo in
  let pullCommand := formatOwCommand pullArgs in
  result <~ runOw m pullArgs ;;
  quiet (if negb (exitStatus result =? 0)%Z then
           raise ("Failed to pull " ++ repo ++ ".") pull_failed
                 (Some ("Run manually: " ++ pullCommand))
         else Fulfilled tt).

Section Resolver.

Variable parseShow : string -> option MapShowJson.t.
Variable parseSearch : string -> option (list MapSearchEntry.t).
Variable numberToString : Q -> string.
Variable extractRepoHintFromTask : string -> option string.

Definition mapShow (m : HostState) (repo : string) : Logged MapShowJson.t :=
  result <~ runOw m ["map"; "show"; repo; "--json"] ;;
  quiet (if negb (exitStatus result =? 0)%Z then
           raise ("Failed to run ow map show " ++ repo ++ " --json.") invalid_map None
         else parseJson parseShow (stdout result) ("ow map show " ++ repo ++ " --json")).

Definition mapSearch (m : HostState) (term : string) : Logged (list MapSearchEntry.t) :=
  result <~ runOw m ["map"; "search"; term; "--json"] ;;
  quiet (if negb (exitStatus result =? 0)%Z then
           raise ("Failed to run ow map search " ++ term ++ " --json.") invalid_map None
         else parseJson parseSearch (stdout result) ("ow map search " ++ term ++ " --json")).

Definition searchAndSelect (ctx : Host) (task : string)
  : Logged (string * list (string * Q)) :=
  let term := extractSearchTerm task in
  matches <~ mapSearch (beforePull ctx) term ;;
  let searchCandidates :=
    map (fun m => (MapSearchEntry.fullName m, MapSearchEntry.score m)) matches in
  if (List.length matches =? 0)%nat then
    quiet (raise "No Offworld map matches found for this task." repo_unresolved
             (Some ("Pull a repository first, e.g. `ow pull owner/repo --clone-only`, then retry with `repo: "
                    ++ quoted "owner/repo" ++ "`.")))
  else
    selected <~ quiet (selectCandidate numberToString ctx matches) ;;
    quiet (Fulfilled (MapSearchEntry.fullName selected, searchCandidates)).

Definition pullMissing (ctx : Host) (effectiveRepo : string)
  : Logged (HostState * MapShowJson.t) :=
  if hasUI ctx
     && negb (confirm ctx "Pull repository with Offworld?"
                ("Replicant needs a local clone for " ++ effectiveRepo ++ ". Run ow pull "
                 ++ effectiveRepo ++ " --clone-only now?"))
  then
    quiet (raise ("Pull canceled for " ++ effectiveRepo ++ ".") pull_rejected
             (Some ("Run manually: ow pull " ++ effectiveRepo ++ " --clone-only")))
  else
    _ <~ pullRepo (beforePull ctx) effectiveRepo ;;
    show <~ mapShow (afterPull ctx) effectiveRepo ;;
    quiet (Fulfilled (afterPull ctx, show)).

Definition resolveRepoWithOffworld (ctx : Host) (options : ResolveRepoOptions)
  : Logged ResolvedRepo.t :=
  _ <~ ensureOwInstalled (beforePull ctx) ;;
  let hinted :=
    match repoHint options with
    | Some h => Some h
    | None => extractRepoHintFromTask (task options)
    end in
  chosen <~ (if falsy hinted then searchAndSelect ctx (task options)
             else quiet (Fulfilled (match hinted with Some h => h | None => "" end, []))) ;;
  let '(selectedRepo, searchCandidates) := chosen in
  if negb (nonEmpty selectedRepo) then
    quiet (raise "Repository could not be determined." repo_unresolved None)
  else
    show <~ mapShow (beforePull ctx) selectedRepo ;;
    if negb (MapShowJson.found show) then
      quiet (raise ("Repository not found in Offworld map: " ++ selectedRepo) repo_unresolved
               (Some ("Run: ow pull " ++ selectedRepo ++ " --clone-only")))
    else
      let effectiveRepo := toRepoSlug (entryOfShow show) in
      let hasClone :=
        match truthyText (MapShowJson.localPath show) with
        | Some localPath => pathLooksLikeClone (beforePull ctx) localPath
        | None => false
        end in
      let missingAssets := negb hasClone in
      located <~ (if missingAssets then
                    pulledShow <~ pullMissing ctx effectiveRepo ;;
                    quiet (Fulfilled (ResolvedRepo.pulled, pulledShow))
                  else quiet (Fulfilled (ResolvedRepo.existing, (beforePull ctx, show)))) ;;
      let '(resolvedFrom, (machine, show)) := located in
      let clonePath := match MapShowJson.localPath show with Some x => x | None => "" end in
      let referencePath :=
        match MapShowJson.referencePath show with Some x => x | None => "" end in
      let cloneOk := (0 <? String.length clonePath)%nat && pathLooksLikeClone machine clonePath in
      let resolvedReferencePath :=
        if referenceOk machine referencePath then referencePath else "" in
      if negb cloneOk then
        quiet (raise ("Offworld map entry is incomplete after resolution for " ++ effectiveRepo
                      ++ ". clone=false") missing_assets
                 (Some ("Run: ow pull " ++ effectiveRepo ++ " --clone-only")))
      else
        quiet (Fulfilled
          {| ResolvedRepo.repo := effectiveRepo;
             ResolvedRepo.qualifiedName :=
               match MapShowJson.qualifiedName show with
               | Some x => x
               | None => "github.com:" ++ effectiveRepo
               end;
             ResolvedRepo.scope :=
               match MapShowJson.scope show with Some x => x | None => "unknown" end;
             ResolvedRepo.clonePath := clonePath;
             ResolvedRepo.referencePath := resolvedReferencePath;
             ResolvedRepo.resolvedFrom := resolvedFrom;
             ResolvedRepo.searchCandidates := searchCandidates |}).

End Resolver.

End Commands.

(* ===================================================================== *)
(** ** Vocabulary of the further statements *)
(* ===================================================================== *)

Module StatedMore.

Import JsStr PosixPath.

(** An ordinary name of a path: not empty, not [.] or [..], free of
    slashes. *)
Definition ordinaryName (s : string) : Prop :=
  s <> "" /\ s <> "." /\ s <> ".." /\ includesChar s slash = false.

(** How often [test] holds along [l]. *)
Fixpoint countZ {A : Type} (test : A -> bool) (l : list A) : Z :=
  match l with
  | [] => 0
  | x :: r => ((if test x then 1 else 0) + countZ test r)%Z
  end.

Definition eventKindIs (kind : string) (s : Supervisor.Stimulus) : bool :=
  match s with
  | Supervisor.Delivered event _ => Supervisor.isString (Js.get event "type") kind
  | Supervisor.SignalAborted => false
  end.

(** A message the assistant wrote. *)
Definition isAssistant (m : JsValue) : bool :=
  Supervisor.isString (Js.get m "role") "assistant".

(** The messages a run gets to see: those of the [message_end] events, in
    order, then the session's log. *)
Fixpoint endedMessages (stimuli : list Supervisor.Stimulus) : list JsValue :=
  match stimuli with
  | [] => []
  | Supervisor.Delivered event _ :: rest =>
      if Supervisor.isString (Js.get event "type") "message_end"
      then Js.get event "message" :: endedMessages rest
      else endedMessages rest
  | Supervisor.SignalAborted :: rest => endedMessages rest
  end.

Definition isCommand (first second : string) (args : list string) : bool :=
  match args with
  | a :: b :: _ => String.eqb a first && String.eqb b second
  | _ => false
  end.

Definition isPull (args : list string) : bool :=
  match args with
  | a :: _ => String.eqb a "pull"
  | [] => false
  end.

(** The four command shapes of the resolver. *)
Definition permittedShape (args : list string) : Prop :=
  args = ["--version"]
  \/ (exists repo, args = ["map"; "show"; repo; "--json"])
  \/ (exists term, args = ["map"; "search"; term; "--json"])
  \/ (exists repo, args = ["pull"; repo; "--clone-only"]).

End StatedMore.

Module StatedRunMore.

Import JsStr Supervisor.

(** The record a delivered event adds to [details.events], if any. *)
Definition toolEventOf (s : Stimulus) : option ToolEvent :=
  match s with
  | Delivered event now =>
      if isString (Js.get event "type") "tool_execution_start" then
        Some {| type := tool_start; toolName := eventToolName event;
                args := Some (Js.get event "args"); isError := None; timestamp := now |}
      else if isString (Js.get event "type") "tool_execution_end" then
        Some {| type := tool_end; toolName := eventToolName event; args := None;
                isError := Some (Js.truthy (Js.get event "isError")); timestamp := now |}
      else None
  | SignalAborted => None
  end.

Fixpoint toolEventsOf (stimuli : list Stimulus) : list ToolEvent :=
  match stimuli with
  | [] => []
  | s :: rest =>
      match toolEventOf s with
      | Some e => e :: toolEventsOf rest
      | None => toolEventsOf rest
      end
  end.

(** The last [k] elements of [l], all of it when it is shorter. *)
Definition lastN {A : Type} (k : nat) (l : list A) : list A :=
  skipn (List.length l - k) l.

Definition failedToolEnd (s : Stimulus) : bool :=
  match s with
  | Delivered event _ =>
      isString (Js.get event "type") "tool_execution_end"
      && Js.truthy (Js.get event "isError")
  | SignalAborted => false
  end.

(** [t] is empty or the text of an assistant message among [seen]. *)
Definition comesFrom (seen : list JsValue) (t : string) : Prop :=
  t = "" \/ exists m, In m seen /\ StatedMore.isAssistant m = true
                      /\ extractAssistantText m = t.

(** A resolved repository as the tool entry point may receive one. *)
Definition sampleRepo : ResolvedRepo.t :=
  {| ResolvedRepo.repo := "default-anton/pi-librarian";
     ResolvedRepo.qualifiedName := "github.com:default-anton/pi-librarian";
     ResolvedRepo.scope := "global";
     ResolvedRepo.clonePath := "/clones/pi-librarian";
     ResolvedRepo.referencePath := "";
     ResolvedRepo.resolvedFrom := ResolvedRepo.existing;
     ResolvedRepo.searchCandidates := [] |}.

End StatedRunMore.

Module StatedResolverMore.

Import JsStr Offworld.

(** *** A host that has to pull *)

Definition pullExec (args : list string) : OwExecResult :=
  match args with
  | ["--version"] => {| stdout := "offworld v0.3.8"; stderr := ""; exitStatus := 0 |}
  | "map" :: "show" :: _ => {| stdout := "dir"; stderr := ""; exitStatus := 0 |}
  | "pull" :: _ => {| stdout := ""; stderr := ""; exitStatus := 0 |}
  | _ => {| stdout := ""; stderr := "unexpected command"; exitStatus := 1 |}
  end.

(** The disk before the pull holds nothing; after it, what the sample
    machine holds. *)
Definition bareMachine : HostState :=
  {| exec := pullExec; stat := fun _ => None |}.

Definition clonedMachine : HostState :=
  {| exec := pullExec; stat := stat StatedResolver.sampleMachine |}.

Definition pullingHost : Host :=
  {| hasUI := true;
     beforePull := bareMachine;
     afterPull := clonedMachine;
     select := fun _ _ => None;
     confirm := fun _ _ => true |}.

(** What resolving the sample hint on that host gives. *)
Definition pulledRepo : ResolvedRepo.t :=
  {| ResolvedRepo.repo := "default-anton/pi-librarian";
     ResolvedRepo.qualifiedName := "github.com:default-anton/pi-librarian";
     ResolvedRepo.scope := "global";
     ResolvedRepo.clonePath := "/clones/pi-librarian";
     ResolvedRepo.referencePath := "";
     ResolvedRepo.resolvedFrom := ResolvedRepo.pulled;
     ResolvedRepo.searchCandidates := [] |}.

(** *** A map whose entries carry a full name *)

(** The decoder of a map whose [show] output has the key [fullName]. *)
Definition namedParseShow (raw : string) : option MapShowJson.t :=
  if String.eqb raw "dir" then
    Some {| MapShowJson.found := true;
            MapShowJson.scope := Some "global";
            MapShowJson.qualifiedName := Some "github.com:default-anton/pi-librarian";
            MapShowJson.fullName := Some "anton/librarian:fork";
            MapShowJson.localPath := Some "/clones/pi-librarian";
            MapShowJson.primary := None;
            MapShowJson.referencePath := None;
            MapShowJson.keywords := None |}
  else None.

(** *** A host whose user picks the second option *)

Definition choosingHost : Host :=
  {| hasUI := true;
     beforePull := StatedResolver.sampleMachine;
     afterPull := StatedResolver.sampleMachine;
     select := fun _ options => nth_error options 1;
     confirm := fun _ _ => true |}.

End StatedResolverMore.

Module StatedInputs.

Import JsStr.

(** Every white-space unit of [s] is a plain space that no white space
    follows. *)
Fixpoint spacedOnce (s : string) : bool :=
  match s with
  | EmptyString => true
  | String c r =>
      (if is_ws c then
         Ascii.eqb c " "%char
         && match r with
            | String d _ => negb (is_ws d)
            | EmptyString => true
            end
       else true)
      && spacedOnce r
  end.

(** [s] does not begin with white space. *)
Definition headNotSpace (s : string) : Prop :=
  match s with
  | EmptyString => True
  | String c _ => is_ws c = false
  end.

(** The spellings of the GitHub host that a repository hint may carry in
    front of [owner/repo]. *)
Definition githubPrefixes : list string :=
  [""; "https://github.com/"; "http://github.com/"; "github.com/"; "github.com:"].

(** The three anchored patterns of [normalizeRepoHint]. *)
Definition urlPattern : list Schemas.Atom :=
  (Schemas.lits "https://" ++ Schemas.githubHost ++ Schemas.lits "/")%list.
Definition plainUrlPattern : list Schemas.Atom :=
  (Schemas.lits "http://" ++ Schemas.githubHost ++ Schemas.lits "/")%list.
Definition hostPattern : list Schemas.Atom :=
  (Schemas.githubHost ++ [Schemas.OneOf [colon; slash]])%list.

End StatedInputs.
(* ===================================================================== *)
(** * Properties *)
(* ===================================================================== *)

(** Case analysis on every test and optional value met in the goal. *)
Ltac split_branches :=
  repeat match goal with
         | |- context [if ?c then _ else _] => destruct c
         | |- context [match ?c with Some _ => _ | None => _ end] => destruct c
         end.

(** ** Strings and paths *)

Section StringFacts.

Import JsStr.

Lemma split_nonempty (c : ascii) (s : string) : split c s <> [].
Proof.
  induction s as [|a r IH]; simpl; [discriminate|].
  destruct (Ascii.eqb a c); [discriminate|].
  destruct (split c r); [contradiction | discriminate].
Qed.

Lemma split_cons (c a : ascii) (r : string) :
  Ascii.eqb a c = false ->
  exists h t, split c r = h :: t /\ split c (String a r) = String a h :: t.
Proof.
  intros Hne. simpl. rewrite Hne.
  destruct (split c r) as [|h t] eqn:E.
  - exfalso. now apply (split_nonempty c r).
  - now exists h, t.
Qed.

Lemma split_sep (c : ascii) (r : string) :
  split c (String c r) = "" :: split c r.
Proof. simpl. now rewrite Ascii.eqb_refl. Qed.

(** No segment of a split holds the separator. *)
Lemma split_segments_free (c : ascii) (s : string) :
  Forall (fun seg => includesChar seg c = false) (split c s).
Proof.
  induction s as [|a r IH].
  - repeat constructor.
  - destruct (Ascii.eqb a c) eqn:E.
    + apply Ascii.eqb_eq in E. subst a. rewrite split_sep. now constructor.
    + destruct (split_cons c a r E) as (h & t & Hr & Hs).
      rewrite Hs. rewrite Hr in IH. inversion IH; subst.
      constructor; [simpl; now rewrite E | assumption].
Qed.

Lemma startsWith_dots_append (s x : string) :
  startsWith s ".." = false -> startsWith (s ++ String slash x) ".." = false.
Proof.
  destruct s as [|a [|b s]]; simpl; intros H.
  - reflexivity.
  - destruct (Ascii.eqb a "."); reflexivity.
  - exact H.
Qed.

Lemma join_cons (sep s : string) (l : list string) :
  join sep (s :: l) = match l with [] => s | _ => s ++ sep ++ join sep l end.
Proof. reflexivity. Qed.

End StringFacts.

Section PathFacts.

Import JsStr PosixPath Policy Stated.

Lemma pushSegment_proper (above : bool) (stack : list string) (seg : string) :
  includesChar seg slash = false ->
  Forall properSegment stack ->
  Forall properSegment (pushSegment above stack seg).
Proof.
  intros Hfree Hstack. unfold pushSegment.
  destruct (String.eqb seg "") eqn:E0; [exact Hstack|].
  destruct (String.eqb seg ".") eqn:E1; [exact Hstack|]. simpl.
  destruct (String.eqb seg "..") eqn:E2.
  - apply String.eqb_eq in E2. subst seg.
    destruct stack as [|top below].
    + destruct above; repeat constructor. discriminate.
    + destruct (String.eqb top "..").
      * destruct above; [|exact Hstack].
        constructor; [split; [discriminate | reflexivity] | exact Hstack].
      * now inversion Hstack.
  - constructor; [|exact Hstack].
    split; [|exact Hfree].
    intros ->. discriminate.
Qed.

Lemma fold_pushSegment_proper (above : bool) (segs stack : list string) :
  Forall (fun seg => includesChar seg slash = false) segs ->
  Forall properSegment stack ->
  Forall properSegment (fold_left (pushSegment above) segs stack).
Proof.
  revert stack. induction segs as [|seg segs IH]; intros stack Hsegs Hstack; simpl.
  - exact Hstack.
  - inversion Hsegs; subst. apply IH; [assumption|].
    now apply pushSegment_proper.
Qed.

Lemma segmentsOf_proper (pcwd p : string) :
  Forall properSegment (segmentsOf pcwd p).
Proof.
  unfold segmentsOf, resolveSegments.
  destruct (resolveScan _ _) as [joined absolute]. simpl.
  unfold normalizeSegments. apply Forall_rev.
  apply fold_pushSegment_proper; [apply split_segments_free | constructor].
Qed.

Lemma stripCommon_prefix (a rest : list string) :
  stripCommon a (a ++ rest) = ([], rest).
Proof.
  induction a as [|x a IH]; simpl; [reflexivity|].
  now rewrite String.eqb_refl.
Qed.

Lemma stripCommon_nil (a b r : list string) :
  stripCommon a b = ([], r) -> b = (a ++ r)%list.
Proof.
  revert b. induction a as [|x a IH]; intros b H; simpl in *.
  - now inversion H.
  - destruct b as [|y b]; [discriminate|].
    destruct (String.eqb x y) eqn:E; [|discriminate].
    apply String.eqb_eq in E. subst y. f_equal. now apply IH.
Qed.

Lemma join_dots_first (l : list string) :
  exists tail, join "/" (".." :: l) = String "." (String "." tail).
Proof.
  rewrite join_cons. destruct l; simpl; eauto.
Qed.

Lemma proper_join_relative (s : string) (l : list string) :
  properSegment s -> isAbsolute (join "/" (s :: l)) = false.
Proof.
  intros [Hne Hfree]. rewrite join_cons.
  destruct s as [|a s]; [contradiction|].
  simpl in Hfree. apply orb_false_iff in Hfree as [Ha _].
  unfold isAbsolute. destruct l; simpl; unfold slash in Ha; now rewrite Ha.
Qed.

Lemma proper_join_dots (s : string) (l : list string) :
  startsWith (join "/" (s :: l)) ".." = startsWith s "..".
Proof.
  rewrite join_cons. destruct l as [|x l]; [reflexivity|].
  destruct s as [|a [|b s]]; simpl.
  - reflexivity.
  - destruct (Ascii.eqb a "."); reflexivity.
  - reflexivity.
Qed.

Lemma proper_join_nonempty (s : string) (l : list string) :
  properSegment s -> String.eqb (join "/" (s :: l)) "" = false.
Proof.
  intros [Hne _]. rewrite join_cons.
  destruct s as [|a s]; [contradiction|]. destruct l; reflexivity.
Qed.

(** What [isWithinPath] accepts, in terms of segments. *)
Lemma isWithinPath_spec (pcwd target root : string) :
  isWithinPath pcwd target root = true <-> liesPlainlyWithin pcwd target root.
Proof.
  unfold isWithinPath, relative, liesPlainlyWithin.
  pose proof (segmentsOf_proper pcwd target) as Htarget.
  destruct (stripCommon (segmentsOf pcwd root) (segmentsOf pcwd target))
    as [fromRest toRest] eqn:E.
  destruct fromRest as [|f fromRest].
  - apply stripCommon_nil in E. cbn [List.length repeat app].
    assert (Hrest : Forall properSegment toRest).
    { rewrite E in Htarget. apply Forall_app in Htarget. tauto. }
    split.
    + intros H. exists toRest. split; [exact E|].
      destruct toRest as [|s l]; [exact I|].
      inversion Hrest; subst.
      rewrite proper_join_nonempty in H by assumption.
      rewrite proper_join_dots in H. rewrite orb_false_l in H.
      apply andb_true_iff in H as [H _]. now apply negb_true_iff in H.
    + intros (rest & Hseg & Hplain).
      rewrite E in Hseg. apply app_inv_head in Hseg. subst rest.
      destruct toRest as [|s l]; [reflexivity|].
      inversion Hrest; subst.
      rewrite proper_join_nonempty, proper_join_dots, proper_join_relative by assumption.
      now rewrite Hplain.
  - split.
    + intros H. exfalso.
      destruct (join_dots_first (repeat ".." (List.length fromRest) ++ toRest))
        as [tail Htail].
      cbn [List.length repeat app] in H. rewrite Htail in H.
      discriminate.
    + intros (rest & Hseg & _). exfalso.
      rewrite Hseg, stripCommon_prefix in E. discriminate.
Qed.

Lemma liesPlainlyWithin_liesWithin (pcwd target root : string) :
  liesPlainlyWithin pcwd target root -> liesWithin pcwd target root.
Proof. intros (rest & H & _). now exists rest. Qed.

End PathFacts.

Section GlobFacts.

Import JsStr PosixPath Policy Stated.

Lemma b2s_cons (a : ascii) (r : string) :
  backslashesToSlashes (String a r)
  = String (if Ascii.eqb a backslash then slash else a) (backslashesToSlashes r).
Proof. reflexivity. Qed.

Lemma split_b2s_head (p : string) :
  includesChar (hd "" (split slash p)) backslash = false ->
  hd "" (split slash (backslashesToSlashes p)) = hd "" (split slash p).
Proof.
  induction p as [|a r IH]; [reflexivity|].
  rewrite b2s_cons.
  destruct (Ascii.eqb a slash) eqn:Es.
  - apply Ascii.eqb_eq in Es. subst a. reflexivity.
  - destruct (split_cons slash a r Es) as (h & t & Hr & Hp).
    rewrite Hp, Hr in *. cbn [hd] in *. intros Hfree.
    cbn [includesChar] in Hfree.
    apply orb_false_iff in Hfree as [Ha Hh]. rewrite Ha.
    destruct (split_cons slash a (backslashesToSlashes r) Es) as (h' & t' & Hr' & Hp').
    rewrite Hp'. rewrite Hr' in IH. cbn [hd] in *. f_equal. now apply IH.
Qed.

Lemma in_tl {A : Type} (x : A) (l : list A) : In x (tl l) -> In x l.
Proof. destruct l; simpl; tauto. Qed.

Lemma in_hd_tl (x : string) (l : list string) :
  l <> [] -> In x l -> x = hd "" l \/ In x (tl l).
Proof. destruct l as [|y l]; [contradiction|]. simpl. intros _ [->|H]; tauto. Qed.

Lemma hd_in (l : list string) : l <> [] -> In (hd "" l) l.
Proof. destruct l; [contradiction|]. simpl. tauto. Qed.

Lemma split_b2s_tail (p s : string) :
  In s (tl (split slash p)) ->
  includesChar s backslash = false ->
  In s (tl (split slash (backslashesToSlashes p))).
Proof.
  induction p as [|a r IH]; [simpl; tauto|].
  rewrite b2s_cons. intros Hin Hfree.
  destruct (Ascii.eqb a slash) eqn:Es.
  - apply Ascii.eqb_eq in Es. subst a.
    change (if Ascii.eqb slash backslash then slash else slash) with slash.
    rewrite split_sep in *. simpl tl in *.
    destruct (in_hd_tl s (split slash r) (split_nonempty slash r) Hin) as [Hhd|Htl].
    + subst s. rewrite <- split_b2s_head by assumption.
      apply hd_in, split_nonempty.
    + apply in_tl. now apply IH.
  - destruct (split_cons slash a r Es) as (h & t & Hr & Hp).
    rewrite Hp in Hin. simpl tl in Hin.
    assert (Hin' : In s (tl (split slash r))) by (rewrite Hr; exact Hin).
    specialize (IH Hin' Hfree).
    destruct (Ascii.eqb a backslash) eqn:Eb.
    + change (if true then slash else a) with slash. rewrite split_sep. simpl tl. now apply in_tl.
    + change (if false then slash else a) with a.
      destruct (split_cons slash a (backslashesToSlashes r) Es) as (h' & t' & Hr' & Hp').
      rewrite Hp'. simpl tl. rewrite Hr' in IH. exact IH.
Qed.

(** A segment free of backslashes survives their replacement by slashes. *)
Lemma split_b2s (p s : string) :
  In s (split slash p) ->
  includesChar s backslash = false ->
  In s (split slash (backslashesToSlashes p)).
Proof.
  intros Hin Hfree.
  destruct (in_hd_tl s _ (split_nonempty slash p) Hin) as [Hhd|Htl].
  - subst s. rewrite <- split_b2s_head by assumption. apply hd_in, split_nonempty.
  - apply in_tl. now apply split_b2s_tail.
Qed.

Lemma ws_not_slash (c : ascii) : is_ws c = true -> Ascii.eqb c slash = false.
Proof.
  intros H. destruct (Ascii.eqb c slash) eqn:E; [|reflexivity].
  apply Ascii.eqb_eq in E. subst c. discriminate.
Qed.

Lemma split_trimStart (q : string) :
  In ".." (split slash q) -> In ".." (split slash (trimStart q)).
Proof.
  induction q as [|c r IH]; [tauto|]. simpl trimStart.
  destruct (is_ws c) eqn:W; [|tauto].
  destruct (split_cons slash c r (ws_not_slash c W)) as (h & t & Hr & Hp).
  rewrite Hp. intros [Heq|Hin].
  - inversion Heq; subst. discriminate.
  - apply IH. rewrite Hr. now right.
Qed.

Lemma split_single (c : ascii) (x h : string) : split c x = [h] -> x = h.
Proof.
  revert h. induction x as [|a r IH]; intros h H.
  - simpl in H. now inversion H.
  - destruct (Ascii.eqb a c) eqn:E.
    + apply Ascii.eqb_eq in E. subst a. rewrite split_sep in H.
      inversion H as [[H0 H1]]. now apply split_nonempty in H1.
    + destruct (split_cons c a r E) as (h0 & t & Hr & Hp).
      rewrite Hp in H. inversion H; subst. f_equal. now apply IH.
Qed.

Lemma trimEnd_cons (c : ascii) (r : string) :
  trimEnd (String c r)
  = match trimEnd r with
    | EmptyString => if is_ws c then EmptyString else String c EmptyString
    | r' => String c r'
    end.
Proof. reflexivity. Qed.

Lemma mapLast_cons {A : Type} (f : A -> A) (x : A) (l : list A) :
  l <> [] -> mapLast f (x :: l) = x :: mapLast f l.
Proof. destruct l; [contradiction | reflexivity]. Qed.

(** Trimming the end of a string trims its last segment. *)
Lemma split_trimEnd (c : ascii) (s : string) :
  is_ws c = false ->
  split c (trimEnd s) = mapLast trimEnd (split c s).
Proof.
  intros Hc. induction s as [|a r IH]; [reflexivity|].
  rewrite trimEnd_cons.
  destruct (Ascii.eqb a c) eqn:E.
  - apply Ascii.eqb_eq in E. subst a. rewrite split_sep. rewrite Hc.
    rewrite mapLast_cons by apply split_nonempty. rewrite <- IH.
    destruct (trimEnd r) as [|b x]; [simpl; now rewrite Ascii.eqb_refl|].
    now rewrite split_sep.
  - destruct (split_cons c a r E) as (h & t & Hr & Hp). rewrite Hp.
    rewrite Hr in IH.
    destruct (trimEnd r) as [|b x] eqn:Ht.
    + destruct t as [|t0 t].
      * cbn [mapLast] in *. simpl in IH. inversion IH as [Hh].
        rewrite trimEnd_cons, <- Hh.
        destruct (is_ws a); [reflexivity|]. simpl. now rewrite E.
      * rewrite mapLast_cons in IH by discriminate. simpl in IH.
        inversion IH as [[H0 H1]]. destruct t; discriminate.
    + destruct (split_cons c a (String b x) E) as (h' & t' & Hr' & Hp').
      rewrite Hp'. rewrite Hr' in IH.
      destruct t as [|t0 t].
      * cbn [mapLast] in *. inversion IH; subst.
        apply split_single in Hr'. rewrite trimEnd_cons. now rewrite <- Hr'.
      * rewrite mapLast_cons in * by discriminate. inversion IH; subst. reflexivity.
Qed.

Lemma in_mapLast {A : Type} (f : A -> A) (x : A) (l : list A) :
  f x = x -> In x l -> In x (mapLast f l).
Proof.
  intros Hf. induction l as [|y l IH]; [tauto|].
  intros [->|Hin]; cbn [mapLast]; destruct l as [|z l].
  - left. exact Hf.
  - now left.
  - contradiction.
  - right. now apply IH.
Qed.

Lemma trim_keeps_parent_segment (q : string) :
  In ".." (split slash q) -> In ".." (split slash (trim q)).
Proof.
  intros H. unfold trim. rewrite split_trimEnd by reflexivity.
  apply in_mapLast; [reflexivity|]. now apply split_trimStart.
Qed.

Lemma trim_keeps_leading_slash (r : string) :
  exists t, trim (String slash r) = String slash t.
Proof.
  unfold trim. change (trimStart (String slash r)) with (String slash r).
  rewrite trimEnd_cons. destruct (trimEnd r); eexists; reflexivity.
Qed.

(** Every pattern that is absolute or has a [..] segment is unsafe for
    [hasUnsafeGlobSegments]. *)
Lemma escapes_unsafe (p : string) : escapes p -> hasUnsafeGlobSegments p = true.
Proof.
  unfold hasUnsafeGlobSegments. intros [Habs|Hseg].
  - destruct p as [|a r]; [discriminate|].
    unfold isAbsolute in Habs. simpl in Habs. rewrite andb_true_r in Habs.
    apply Ascii.eqb_eq in Habs. subst a.
    change (backslashesToSlashes (String "/" r)) with (String slash (backslashesToSlashes r)).
    destruct (trim_keeps_leading_slash (backslashesToSlashes r)) as [t ->].
    reflexivity.
  - assert (Hin : In ".." (split slash (trim (backslashesToSlashes p)))).
    { apply trim_keeps_parent_segment. apply split_b2s; [exact Hseg | reflexivity]. }
    destruct (trim (backslashesToSlashes p)) as [|a t] eqn:E.
    + simpl in Hin. destruct Hin as [Hin|[]]. discriminate.
    + cbn [nonEmpty negb]. destruct (isAbsolute (String a t)); [reflexivity|].
      apply existsb_exists. exists "..". split; [exact Hin | reflexivity].
Qed.

End GlobFacts.

(** ** The policy checker *)

Section PolicyFacts.

Import JsStr PosixPath Policy Stated.

Lemma under_turn_budget (o : ToolCallPolicyInput) :
  (turnIndex o < maxTurns o - 1)%Z -> (turnIndex o >=? maxTurns o - 1)%Z = false.
Proof. intros H. rewrite Z.geb_leb. apply Z.leb_gt. exact H. Qed.

Lemma under_call_budget (o : ToolCallPolicyInput) :
  (toolCalls o < maxToolCalls o)%Z -> (toolCalls o >=? maxToolCalls o)%Z = false.
Proof. intros H. rewrite Z.geb_leb. apply Z.leb_gt. exact H. Qed.

Lemma restricted_lengths (sc : ResolvedScope) :
  restricted sc ->
  (List.length (allowedRoots sc) =? 0)%nat && (List.length (allowedFiles sc) =? 0)%nat = false.
Proof.
  intros [H|H].
  - destruct (allowedRoots sc); [contradiction | reflexivity].
  - destruct (allowedFiles sc); [contradiction|]. apply andb_false_r.
Qed.

Lemma path_sensitive_listed (name : string) :
  In name pathSensitiveTools -> existsb (String.eqb name) pathSensitiveTools = true.
Proof.
  intros H. apply existsb_exists. exists name. split; [exact H | apply String.eqb_refl].
Qed.

(** The glob test of the checker, read off [globArgument]. *)
Lemma unsafeArgument_find (o : ToolCallPolicyInput) :
  unsafeArgument "find" "pattern" (toolName o) (normalizeToolInput (input o))
  = if String.eqb (toolName o) "find" then
      match globArgument o with
      | Some p => if hasUnsafeGlobSegments p then Some p else None
      | None => None
      end
    else None.
Proof.
  unfold unsafeArgument, globArgument.
  destruct (String.eqb (toolName o) "find"); reflexivity.
Qed.

Lemma unsafeArgument_grep (o : ToolCallPolicyInput) :
  String.eqb (toolName o) "find" = false ->
  unsafeArgument "grep" "glob" (toolName o) (normalizeToolInput (input o))
  = if String.eqb (toolName o) "grep" then
      match globArgument o with
      | Some p => if hasUnsafeGlobSegments p then Some p else None
      | None => None
      end
    else None.
Proof.
  intros Hfind. unfold unsafeArgument, globArgument. rewrite Hfind.
  destruct (String.eqb (toolName o) "grep"); reflexivity.
Qed.

Lemma safe_globs_pass (o : ToolCallPolicyInput) :
  noUnsafeGlob o ->
  unsafeArgument "find" "pattern" (toolName o) (normalizeToolInput (input o)) = None
  /\ unsafeArgument "grep" "glob" (toolName o) (normalizeToolInput (input o)) = None.
Proof.
  intros Hsafe. unfold noUnsafeGlob in Hsafe.
  rewrite unsafeArgument_find.
  destruct (String.eqb (toolName o) "find") eqn:Ef.
  - split.
    + destruct (globArgument o) as [p|]; [|reflexivity].
      now rewrite (Hsafe p eq_refl).
    + unfold unsafeArgument. apply String.eqb_eq in Ef. rewrite Ef. reflexivity.
  - split; [reflexivity|]. rewrite unsafeArgument_grep by assumption.
    destruct (String.eqb (toolName o) "grep"); [|reflexivity].
    destruct (globArgument o) as [p|]; [|reflexivity].
    now rewrite (Hsafe p eq_refl).
Qed.

Lemma allowedByRoot_spec (pcwd resolved : string) (roots : list string) :
  existsb (fun root => isWithinPath pcwd resolved root) roots = true
  <-> exists root, In root roots /\ liesPlainlyWithin pcwd resolved root.
Proof.
  rewrite existsb_exists. split; intros (root & Hin & H); exists root; split; auto;
    now apply isWithinPath_spec.
Qed.

Lemma allowedByFile_spec (resolved : string) (files : list string) :
  existsb (fun file => String.eqb resolved file) files = true <-> In resolved files.
Proof.
  rewrite existsb_exists. split.
  - intros (file & Hin & H). apply String.eqb_eq in H. now subst.
  - intros H. exists resolved. split; [exact H | apply String.eqb_refl].
Qed.

(** Below both budgets, for a path-sensitive tool under a non-empty scope
    and without an unsafe glob, the verdict is the scope test alone. *)
Lemma path_call_verdict (pcwd : string) (o : ToolCallPolicyInput) :
  In (toolName o) pathSensitiveTools ->
  underBudget o ->
  restricted (scope o) ->
  noUnsafeGlob o ->
  getToolCallPolicyViolation pcwd o
  = if existsb (fun root => isWithinPath pcwd (testedPath pcwd o) root)
               (allowedRoots (scope o))
       || existsb (fun file => String.eqb (testedPath pcwd o) file)
                  (allowedFiles (scope o))
    then None
    else Some (outOfScopeMessage (toolName o) (pathArgument o) (scope o)).
Proof.
  intros Htool [Hturn Hcalls] Hscope Hsafe.
  unfold getToolCallPolicyViolation.
  rewrite (under_turn_budget o Hturn), (under_call_budget o Hcalls).
  rewrite (path_sensitive_listed _ Htool). cbn [negb].
  rewrite (restricted_lengths _ Hscope).
  destruct (safe_globs_pass o Hsafe) as [-> ->].
  reflexivity.
Qed.

End PolicyFacts.

Section PolicyClaims.

Import JsStr PosixPath Policy Stated.

(** C1, as stated, fails twice.  A path argument written [@/etc/passwd]
    resolves, as it stands, below the working directory, yet the checker
    strips the [@] first and reports the path out of scope.  And a path
    below a directory named [..cache] of the allowed root lies within that
    root, yet the checker reports it out of scope. *)
Lemma stated_scope_rule_fails :
  ~ statedScopeRule "/" atPathCall /\ ~ statedScopeRule "/" dottedNameCall.
Proof.
  split; intros H.
  - destruct H as [Hiff _].
    + left. reflexivity.
    + split; reflexivity.
    + left. discriminate.
    + intros p Hp. discriminate.
    + assert (Hin : inScope "/" atPathCall (plainlyResolvedPath "/" atPathCall)).
      { left. exists "/work/repo". split; [left; reflexivity|].
        exists ["@"; "etc"; "passwd"]. reflexivity. }
      apply Hiff in Hin. vm_compute in Hin. discriminate.
  - destruct H as [Hiff _].
    + left. reflexivity.
    + split; reflexivity.
    + left. discriminate.
    + intros p Hp. discriminate.
    + assert (Hin : inScope "/" dottedNameCall (plainlyResolvedPath "/" dottedNameCall)).
      { left. exists "/work/repo". split; [left; reflexivity|].
        exists ["..cache"; "notes.md"]. reflexivity. }
      apply Hiff in Hin. vm_compute in Hin. discriminate.
Qed.

(** C1 (amended).  For a call of [read], [grep], [find] or [ls] below both
    budgets, under a non-empty scope and without an unsafe find pattern or
    grep glob, let the tested path be the path argument ([path], else
    [file_path], else the current directory), trimmed, freed of one leading
    [@] and resolved against the scope's working directory.  If the tested
    path lies within an allowed root (the root itself included) with no
    first segment below the root that begins with two dots, or equals an
    allowed file, no violation is returned.  If it lies within no allowed
    root and equals no allowed file, the out-of-scope violation naming the
    path argument is returned. *)
Theorem scope_check_on_tested_path (pcwd : string) (o : ToolCallPolicyInput) :
  In (toolName o) pathSensitiveTools ->
  underBudget o ->
  restricted (scope o) ->
  noUnsafeGlob o ->
  (plainlyInScope pcwd o (testedPath pcwd o) ->
   getToolCallPolicyViolation pcwd o = None)
  /\ (~ inScope pcwd o (testedPath pcwd o) ->
      getToolCallPolicyViolation pcwd o
      = Some (outOfScopeMessage (toolName o) (pathArgument o) (scope o))).
Proof.
  intros Htool Hbudget Hscope Hsafe.
  rewrite (path_call_verdict pcwd o Htool Hbudget Hscope Hsafe).
  split.
  - intros [Hroot|Hfile].
    + apply allowedByRoot_spec in Hroot. now rewrite Hroot.
    + apply allowedByFile_spec in Hfile. rewrite Hfile. now rewrite orb_true_r.
  - intros Hout.
    destruct (existsb _ (allowedRoots (scope o))) eqn:Er.
    + exfalso. apply Hout. left.
      apply allowedByRoot_spec in Er. destruct Er as (root & Hin & Hwithin).
      exists root. split; [exact Hin | now apply liesPlainlyWithin_liesWithin].
    + destruct (existsb _ (allowedFiles (scope o))) eqn:Ef; [|reflexivity].
      exfalso. apply Hout. right. now apply allowedByFile_spec.
Qed.

Lemma scope_check_on_tested_path_witness :
  getToolCallPolicyViolation "/" readmeCall = None.
Proof.
  apply (scope_check_on_tested_path "/" readmeCall).
  - left. reflexivity.
  - split; reflexivity.
  - left. discriminate.
  - intros p Hp. discriminate.
  - left. exists "/work/repo". split; [left; reflexivity|].
    exists ["README.md"]. split; reflexivity.
Defined.

(** C2, as stated, fails: under an open scope (no allowed root and no
    allowed file) a [find] whose pattern starts with [..] is not reported. *)
Lemma unsafe_glob_passes_open_scope :
  globArgument openScopeFind = Some "../**/*.ts"
  /\ escapes "../**/*.ts"
  /\ getToolCallPolicyViolation "/" openScopeFind = None.
Proof.
  split; [reflexivity|]. split; [|reflexivity].
  right. left. reflexivity.
Qed.

(** C2 (amended).  Under a non-empty scope, a [find] with a string pattern,
    or a [grep] with a string glob, that is absolute or has a [..] segment
    is always reported; below both budgets the report is the one about the
    pattern or glob itself, whatever the path argument. *)
Theorem unsafe_glob_refused_under_scope (pcwd : string) (o : ToolCallPolicyInput)
    (p : string) :
  globArgument o = Some p ->
  escapes p ->
  restricted (scope o) ->
  (exists reason, getToolCallPolicyViolation pcwd o = Some reason)
  /\ (underBudget o ->
      getToolCallPolicyViolation pcwd o
      = Some (if String.eqb (toolName o) "find" then findPatternMessage p
              else grepGlobMessage p)).
Proof.
  intros Hglob Hesc Hscope.
  pose proof (escapes_unsafe p Hesc) as Hunsafe.
  assert (Htool : In (toolName o) pathSensitiveTools).
  { unfold globArgument in Hglob.
    destruct (String.eqb (toolName o) "find") eqn:Ef.
    - apply String.eqb_eq in Ef. rewrite Ef. simpl. tauto.
    - destruct (String.eqb (toolName o) "grep") eqn:Eg; [|discriminate].
      apply String.eqb_eq in Eg. rewrite Eg. simpl. tauto. }
  assert (Hbelow : underBudget o ->
            getToolCallPolicyViolation pcwd o
            = Some (if String.eqb (toolName o) "find" then findPatternMessage p
                    else grepGlobMessage p)).
  { intros [Hturn Hcalls]. unfold getToolCallPolicyViolation.
    rewrite (under_turn_budget o Hturn), (under_call_budget o Hcalls).
    rewrite (path_sensitive_listed _ Htool). cbn [negb].
    rewrite (restricted_lengths _ Hscope).
    rewrite unsafeArgument_find.
    destruct (String.eqb (toolName o) "find") eqn:Ef.
    - now rewrite Hglob, Hunsafe.
    - rewrite unsafeArgument_grep by assumption.
      unfold globArgument in Hglob. rewrite Ef in Hglob.
      destruct (String.eqb (toolName o) "grep") eqn:Eg; [|discriminate].
      unfold globArgument. rewrite Ef, Eg, Hglob, Hunsafe. reflexivity. }
  split; [|exact Hbelow].
  destruct (Z.lt_ge_cases (turnIndex o) (maxTurns o - 1)) as [Hturn|Hturn].
  - destruct (Z.lt_ge_cases (toolCalls o) (maxToolCalls o)) as [Hcalls|Hcalls].
    + eexists. apply Hbelow. now split.
    + unfold getToolCallPolicyViolation.
      rewrite (under_turn_budget o Hturn).
      replace (toolCalls o >=? maxToolCalls o)%Z with true
        by (symmetry; rewrite Z.geb_leb; now apply Z.leb_le).
      eexists. reflexivity.
  - unfold getToolCallPolicyViolation.
    replace (turnIndex o >=? maxTurns o - 1)%Z with true
      by (symmetry; rewrite Z.geb_leb; now apply Z.leb_le).
    eexists. reflexivity.
Qed.

Lemma unsafe_glob_refused_under_scope_witness :
  getToolCallPolicyViolation "/" scopedFind
  = Some (findPatternMessage "../**/*.ts").
Proof.
  refine (proj2 (unsafe_glob_refused_under_scope "/" scopedFind "../**/*.ts" _ _ _) _).
  - reflexivity.
  - right. left. reflexivity.
  - left. discriminate.
  - split; reflexivity.
Defined.

(** C3, as stated, fails: with [toolCalls = maxToolCalls] on the last
    allowed turn the report is the one about the turn budget. *)
Lemma turn_budget_masks_call_budget :
  toolCalls spentCall = maxToolCalls spentCall
  /\ getToolCallPolicyViolation "/" spentCall = Some (turnBudgetMessage 5 6)
  /\ getToolCallPolicyViolation "/" spentCall <> Some (toolCallBudgetMessage 24 24).
Proof.
  split; [reflexivity|]. split; [reflexivity|]. vm_compute. discriminate.
Qed.

(** C3 (amended).  With [toolCalls = maxToolCalls] and
    [turnIndex < maxTurns - 1] the checker reports the tool-call-budget
    violation, whatever the tool, its input and the scope. *)
Theorem call_budget_reported_below_turn_budget (pcwd : string)
    (o : ToolCallPolicyInput) :
  toolCalls o = maxToolCalls o ->
  (turnIndex o < maxTurns o - 1)%Z ->
  getToolCallPolicyViolation pcwd o
  = Some (toolCallBudgetMessage (toolCalls o) (maxToolCalls o)).
Proof.
  intros Hcalls Hturn. unfold getToolCallPolicyViolation.
  rewrite (under_turn_budget o Hturn).
  replace (toolCalls o >=? maxToolCalls o)%Z with true; [reflexivity|].
  symmetry. rewrite Z.geb_leb. apply Z.leb_le. rewrite Hcalls. apply Z.le_refl.
Qed.

Lemma call_budget_reported_below_turn_budget_witness :
  getToolCallPolicyViolation "/" lastCallOfBudget
  = Some (toolCallBudgetMessage 24 24).
Proof.
  apply (call_budget_reported_below_turn_budget "/" lastCallOfBudget).
  - reflexivity.
  - reflexivity.
Defined.

End PolicyClaims.

(** ** The policy hook *)

Section HookClaims.

Import JsStr Policy.

Lemma violation_text_nonempty (pcwd : string) (o : ToolCallPolicyInput) (reason : string) :
  getToolCallPolicyViolation pcwd o = Some reason -> nonEmpty reason = true.
Proof.
  unfold getToolCallPolicyViolation.
  repeat match goal with
         | |- context [if ?c then _ else _] => destruct c
         | |- context [match ?c with Some _ => _ | None => _ end] => destruct c
         end;
    intros H; inversion H; reflexivity.
Qed.

(** C5.  When the checker reports a violation on the final allowed turn
    ([turnIndex >= maxTurns - 1]) the hook blocks that call with the reason,
    leaves the reason in [turnBudgetBlocked] (the first one recorded stays),
    does not ask for an abort and touches nothing else.  When it reports one
    on an earlier turn the hook blocks the call, leaves the reason in
    [violation] (the first one recorded stays) and asks for the abort. *)
Theorem hook_soft_stop_on_final_turn_hard_stop_before (pcwd : string)
    (scope : ResolvedScope) (maxTurns maxToolCalls : Z)
    (policyState : Hook.ReplicantPolicyState) (name : string) (input : JsValue)
    (reason : string) :
  getToolCallPolicyViolation pcwd
    {| toolName := name; Policy.input := input;
       turnIndex := Hook.turnIndex policyState;
       toolCalls := Hook.toolCalls policyState;
       Policy.maxTurns := maxTurns; Policy.maxToolCalls := maxToolCalls;
       Policy.scope := scope |} = Some reason ->
  let step := Hook.onToolCall pcwd scope maxTurns maxToolCalls policyState name input in
  Hook.returned step = Some {| Hook.block := true; Hook.reason := reason |}
  /\ Hook.toolCalls (Hook.state step) = Hook.toolCalls policyState
  /\ Hook.turnIndex (Hook.state step) = Hook.turnIndex policyState
  /\ ((Hook.turnIndex policyState >= maxTurns - 1)%Z ->
      Hook.abortRequested step = false
      /\ Hook.turnBudgetBlocked (Hook.state step)
         = Some (match Hook.turnBudgetBlocked policyState with
                 | Some first => first
                 | None => reason
                 end)
      /\ Hook.violation (Hook.state step) = Hook.violation policyState)
  /\ ((Hook.turnIndex policyState < maxTurns - 1)%Z ->
      Hook.abortRequested step = true
      /\ Hook.violation (Hook.state step)
         = Some (match Hook.violation policyState with
                 | Some first => first
                 | None => reason
                 end)
      /\ Hook.turnBudgetBlocked (Hook.state step) = Hook.turnBudgetBlocked policyState).
Proof.
  intros Hreason step. subst step. unfold Hook.onToolCall.
  rewrite Hreason. rewrite (violation_text_nonempty _ _ _ Hreason).
  destruct (Hook.turnIndex policyState >=? maxTurns - 1)%Z eqn:E; cbn;
    rewrite Z.geb_leb in E.
  - apply Z.leb_le in E.
    split; [reflexivity|]. split; [reflexivity|]. split; [reflexivity|]. split.
    + intros _. repeat split.
    + intros Hlt. lia.
  - apply Z.leb_gt in E.
    split; [reflexivity|]. split; [reflexivity|]. split; [reflexivity|]. split.
    + intros Hge. lia.
    + intros _. repeat split.
Qed.

Lemma hook_soft_stop_on_final_turn_hard_stop_before_witness :
  let step :=
    Hook.onToolCall "/" Stated.repoScope 6 24
      {| Hook.turnIndex := 5; Hook.toolCalls := 2;
         Hook.violation := None; Hook.turnBudgetBlocked := None |}
      "read" (JObj [("path", JStr "README.md")]) in
  Hook.abortRequested step = false
  /\ Hook.turnBudgetBlocked (Hook.state step) = Some (turnBudgetMessage 5 6)
  /\ Hook.violation (Hook.state step) = None.
Proof.
  refine (proj1 (proj2 (proj2 (proj2
    (hook_soft_stop_on_final_turn_hard_stop_before "/" Stated.repoScope 6 24
       {| Hook.turnIndex := 5; Hook.toolCalls := 2;
          Hook.violation := None; Hook.turnBudgetBlocked := None |}
       "read" (JObj [("path", JStr "README.md")]) (turnBudgetMessage 5 6) _)))) _).
  - reflexivity.
  - simpl. lia.
Defined.

End HookClaims.

(** ** The run supervisor *)

Section RunFacts.

Import JsStr Supervisor StatedRun.

Variables maxBytes maxLines : nat.

Lemma run_unfolds (options : RunReplicantSubprocessOptions) (script : SessionScript) :
  factoryFailure script = None ->
  runReplicantSubprocess maxBytes maxLines options script
  = settle maxBytes maxLines (policyAtSettle script) (promptFailure script)
           (settledState options script).
Proof. intros H. unfold runReplicantSubprocess. now rewrite H. Qed.

Lemma absorbMessage_budgets (message : JsValue) (d : ReplicantSubprocessDetails) :
  maxTurns (absorbMessage message d) = maxTurns d
  /\ maxToolCalls (absorbMessage message d) = maxToolCalls d.
Proof. unfold absorbMessage. split_branches; split; reflexivity. Qed.

Lemma react_keeps (st : RunState) (s : Stimulus) :
  maxTurns (current (react st s)) = maxTurns (current st)
  /\ maxToolCalls (current (react st s)) = maxToolCalls (current st)
  /\ abortedBySignal (react st s) = abortedBySignal st || isSignal s.
Proof.
  destruct s as [event now|]; cbn [react isSignal].
  - rewrite orb_false_r. unfold onSessionEvent.
    destruct (absorbMessage_budgets (Js.get event "message") (current st)) as [Ht Hc].
    split_branches; cbn; auto.
  - cbn. now rewrite orb_true_r.
Qed.

Lemma fold_react_keeps (l : list Stimulus) (st : RunState) :
  maxTurns (current (fold_left react l st)) = maxTurns (current st)
  /\ maxToolCalls (current (fold_left react l st)) = maxToolCalls (current st)
  /\ abortedBySignal (fold_left react l st) = abortedBySignal st || existsb isSignal l.
Proof.
  revert st. induction l as [|s l IH]; intros st; cbn [fold_left existsb].
  - now rewrite orb_false_r.
  - destruct (IH (react st s)) as (Ht & Hc & Ha).
    destruct (react_keeps st s) as (Ht' & Hc' & Ha').
    rewrite Ht, Hc, Ha, Ht', Hc', Ha'. now rewrite orb_assoc.
Qed.

Lemma consultLog_keeps (log : list JsValue) (st : RunState) :
  maxTurns (current (consultLog log st)) = maxTurns (current st)
  /\ maxToolCalls (current (consultLog log st)) = maxToolCalls (current st)
  /\ abortedBySignal (consultLog log st) = abortedBySignal st.
Proof.
  unfold consultLog. destruct (getLastAssistantMessage log) as [m|]; cbn; auto.
  destruct (absorbMessage_budgets m (current st)). auto.
Qed.

Lemma settledState_facts (options : RunReplicantSubprocessOptions) (script : SessionScript) :
  maxTurns (current (settledState options script)) = effectiveMaxTurns options
  /\ maxToolCalls (current (settledState options script)) = effectiveMaxToolCalls options
  /\ abortedBySignal (settledState options script) = signalFired script.
Proof.
  unfold settledState, signalFired.
  match goal with
  | |- context [consultLog ?log ?st] =>
      destruct (consultLog_keeps log st) as (-> & -> & ->)
  end.
  match goal with
  | |- context [fold_left react ?l ?st] =>
      destruct (fold_react_keeps l st) as (-> & -> & ->)
  end.
  destruct (signalAbortedAtBoot script); cbn; auto.
Qed.

Lemma settle_budgets (policy : Hook.ReplicantPolicyState) (promptError : option string)
    (st : RunState) :
  maxTurns (detailsOf (settle maxBytes maxLines policy promptError st))
  = maxTurns (current st)
  /\ maxToolCalls (detailsOf (settle maxBytes maxLines policy promptError st))
     = maxToolCalls (current st).
Proof.
  unfold settle, failWith. split_branches; cbn; auto.
Qed.

Lemma byteLength_app (a b : string) :
  byteLength (a ++ b) = (byteLength a + byteLength b)%nat.
Proof. induction a as [|c a IH]; simpl; [reflexivity | rewrite IH; lia]. Qed.

Lemma byteLength_join_lines (line : string) (rest : list string) :
  byteLength (join (String newline "") (line :: rest))
  = (byteLength line + joinedBytes false rest)%nat.
Proof.
  revert line. induction rest as [|next rest IH]; intros line.
  - simpl. lia.
  - rewrite join_cons, !byteLength_app, IH. simpl. lia.
Qed.

Lemma leadingLines_head (lines : list string) (linesLeft : nat) (first : bool)
    (used ceiling : nat) :
  exists k, (k <= linesLeft)%nat
            /\ leadingLines lines linesLeft first used ceiling = firstn k lines.
Proof.
  revert linesLeft first used.
  induction lines as [|line rest IH]; intros linesLeft first used.
  - exists 0%nat. split; [lia|]. destruct linesLeft; reflexivity.
  - destruct linesLeft as [|n]; [exists 0%nat; split; [lia | reflexivity]|].
    cbn [leadingLines].
    destruct (ceiling <? used + _)%nat; [exists 0%nat; split; [lia | reflexivity]|].
    destruct (IH n false (used + (byteLength line + (if first then 0 else 1)))%nat)
      as (k & Hk & ->).
    exists (S k). split; [lia | reflexivity].
Qed.

Lemma leadingLines_bytes (lines : list string) (linesLeft : nat) (first : bool)
    (used ceiling : nat) :
  (used <= ceiling)%nat ->
  (used + joinedBytes first (leadingLines lines linesLeft first used ceiling)
   <= ceiling)%nat.
Proof.
  revert linesLeft first used.
  induction lines as [|line rest IH]; intros linesLeft first used Hused.
  - destruct linesLeft; simpl; lia.
  - destruct linesLeft as [|n]; [simpl; lia|].
    cbn [leadingLines].
    destruct (ceiling <? used + _)%nat eqn:E; [simpl; lia|].
    apply Nat.ltb_ge in E. cbn [joinedBytes].
    specialize (IH n false _ E). lia.
Qed.

Lemma withinCeiling_dec (s : string) :
  (lineCount s <=? maxLines)%nat && (byteLength s <=? maxBytes)%nat = true
  <-> withinCeiling maxBytes maxLines s.
Proof.
  unfold withinCeiling. rewrite andb_true_iff, !Nat.leb_le. tauto.
Qed.

(** What the truncation helper returns. *)
Lemma truncateHead_spec (s : string) :
  (withinCeiling maxBytes maxLines s ->
   truncateHead s maxBytes maxLines = {| content := s; truncated := false |})
  /\ (~ withinCeiling maxBytes maxLines s ->
      truncated (truncateHead s maxBytes maxLines) = true
      /\ exists k, (k <= maxLines)%nat
           /\ content (truncateHead s maxBytes maxLines)
              = join (String newline "") (firstn k (split newline s))
           /\ (byteLength (content (truncateHead s maxBytes maxLines)) <= maxBytes)%nat).
Proof.
  unfold truncateHead. fold (lineCount s).
  destruct ((lineCount s <=? maxLines)%nat && (byteLength s <=? maxBytes)%nat) eqn:E.
  - apply withinCeiling_dec in E. split; [reflexivity | tauto].
  - split.
    + intros H. apply withinCeiling_dec in H. congruence.
    + intros _. split; [reflexivity|]. cbn [content].
      destruct (leadingLines_head (split newline s) maxLines true 0 maxBytes)
        as (k & Hk & Hhead).
      exists k. split; [exact Hk|]. split; [now rewrite Hhead|].
      pose proof (leadingLines_bytes (split newline s) maxLines true 0 maxBytes
                    (Nat.le_0_l _)) as Hbytes.
      destruct (leadingLines (split newline s) maxLines true 0 maxBytes) as [|line rest].
      * simpl. lia.
      * rewrite byteLength_join_lines. cbn [joinedBytes] in Hbytes. lia.
Qed.

Lemma joinedBytes_join (lines : list string) :
  byteLength (join (String newline "") lines) = joinedBytes true lines.
Proof.
  destruct lines as [|line rest]; [reflexivity|].
  rewrite byteLength_join_lines. cbn [joinedBytes]. lia.
Qed.

Lemma joinedBytes_firstn (lines : list string) (first : bool) (a b : nat) :
  (a <= b)%nat ->
  (joinedBytes first (firstn a lines) <= joinedBytes first (firstn b lines))%nat.
Proof.
  revert first a b. induction lines as [|line rest IH]; intros first a b Hab.
  - now rewrite !firstn_nil.
  - destruct a as [|a]; [cbn; lia|]. destruct b as [|b]; [lia|].
    cbn [firstn joinedBytes]. specialize (IH false a b). lia.
Qed.

(** The lines kept are as many as fit: all that the line ceiling allows, or
    else one more line would go over the byte ceiling. *)
Lemma leadingLines_longest (lines : list string) (linesLeft : nat) (first : bool)
    (used ceiling : nat) :
  exists k,
    (k <= linesLeft)%nat /\ (k <= List.length lines)%nat
    /\ leadingLines lines linesLeft first used ceiling = firstn k lines
    /\ (k = Nat.min linesLeft (List.length lines)
        \/ ((k < Nat.min linesLeft (List.length lines))%nat
            /\ (ceiling < used + joinedBytes first (firstn (S k) lines))%nat)).
Proof.
  revert linesLeft first used.
  induction lines as [|line rest IH]; intros linesLeft first used.
  - exists 0%nat. cbn [List.length]. rewrite Nat.min_0_r.
    split; [lia|]. split; [lia|]. split; [destruct linesLeft; reflexivity | now left].
  - destruct linesLeft as [|n].
    + exists 0%nat. split; [lia|]. split; [lia|]. split; [reflexivity | now left].
    + cbn [leadingLines].
      destruct (ceiling <? used + _)%nat eqn:E.
      * apply Nat.ltb_lt in E. exists 0%nat. cbn [List.length].
        split; [lia|]. split; [lia|]. split; [reflexivity|].
        right. split; [lia|]. cbn [firstn joinedBytes]. lia.
      * destruct (IH n false (used + (byteLength line + (if first then 0 else 1)))%nat)
          as (k & Hk & Hlen & -> & Hmax).
        exists (S k). cbn [List.length].
        split; [lia|]. split; [lia|]. split; [reflexivity|].
        destruct Hmax as [->|[Hlt Hover]]; [left; lia|].
        right. split; [lia|].
        change (firstn (S (S k)) (line :: rest)) with (line :: firstn (S k) rest).
        cbn [joinedBytes]. lia.
Qed.

(** What the truncation helper keeps of a text over the ceiling. *)
Lemma truncateHead_longest (s : string) :
  ~ withinCeiling maxBytes maxLines s ->
  exists k,
    (k <= maxLines)%nat /\ (k <= lineCount s)%nat
    /\ content (truncateHead s maxBytes maxLines)
       = join (String newline "") (firstn k (split newline s))
    /\ (byteLength (content (truncateHead s maxBytes maxLines)) <= maxBytes)%nat
    /\ (k = Nat.min maxLines (lineCount s)
        \/ ((k < Nat.min maxLines (lineCount s))%nat
            /\ (maxBytes < byteLength (join (String newline "")
                                        (firstn (S k) (split newline s))))%nat)).
Proof.
  intros Hover. destruct (truncateHead_spec s) as [_ Hcut].
  destruct (Hcut Hover) as (_ & _ & _ & _ & Hbytes).
  unfold truncateHead in *. fold (lineCount s) in *.
  destruct ((lineCount s <=? maxLines)%nat && (byteLength s <=? maxBytes)%nat) eqn:E;
    [apply withinCeiling_dec in E; contradiction|].
  cbn [content] in *.
  destruct (leadingLines_longest (split newline s) maxLines true 0 maxBytes)
    as (k & Hk & Hlen & Hhead & Hmax).
  exists k. fold (lineCount s) in Hlen, Hmax. rewrite Hhead in *.
  split; [exact Hk|]. split; [exact Hlen|]. split; [reflexivity|].
  split; [exact Hbytes|]. rewrite joinedBytes_join. exact Hmax.
Qed.

(** The successful exit of [settle]. *)
Lemma settle_resolved (policy : Hook.ReplicantPolicyState) (promptError : option string)
    (st : RunState) (r : ReplicantSubprocessResult) :
  settle maxBytes maxLines policy promptError st = Resolved r ->
  let cut := truncateHead (shownText (text st)) maxBytes maxLines in
  finalText r = (if truncated cut then content cut ++ truncationMarker else content cut)
  /\ finalTextTruncated (truncation (details r)) = truncated cut.
Proof.
  unfold settle, failWith, MAX_FINAL_TEXT_BYTES, MAX_FINAL_TEXT_LINES, shownText.
  destruct (truthyText (Hook.violation policy)); [discriminate|].
  destruct (abortedBySignal st); [discriminate|].
  destruct promptError; [discriminate|].
  destruct (if nonEmpty (trim (text st)) then None else _); [discriminate|].
  destruct (stopReasonIs (current st) "error"); [discriminate|].
  destruct (stopReasonIs (current st) "aborted"); [discriminate|].
  intros H. inversion H; subst. cbn. split; reflexivity.
Qed.

End RunFacts.

Section RunClaims.

Import JsStr Supervisor StatedRun.

Variables maxBytes maxLines : nat.

(** C4.  Once the prompt call has settled, [runReplicantSubprocess] ends by
    the first of these that applies: (1) a recorded policy violation is
    raised as the error, phase [error]; (2) a fired cancellation signal
    raises the aborted error, phase [aborted]; (3) the error thrown by the
    prompt call is raised again, phase [error]; (4) a blank final text
    together with a recorded turn-budget block raises the block text, phase
    [error]; (5) stop reason [error] raises an error, phase [error]; (6) stop
    reason [aborted] raises an error, phase [aborted]; (7) the run completes
    with phase [done] and exit code 0.  Every error exit has exit code 1. *)
Theorem terminal_outcome_priority (options : RunReplicantSubprocessOptions)
    (script : SessionScript) :
  factoryFailure script = None ->
  let policy := policyAtSettle script in
  let st := settledState options script in
  let out := runReplicantSubprocess maxBytes maxLines options script in
  (forall v, recorded (Hook.violation policy) = Some v ->
     ending out = (Some v, error, Some 1%Z)
     /\ errorMessage (detailsOf out) = Some v)
  /\ (recorded (Hook.violation policy) = None ->
      (signalFired script = true ->
         ending out = (Some "Replicant subagent was aborted.", aborted, Some 1%Z))
      /\ (signalFired script = false ->
          (forall e, promptFailure script = Some e ->
             ending out = (Some e, error, Some 1%Z)
             /\ errorMessage (detailsOf out) = Some e)
          /\ (promptFailure script = None ->
              (forall b, blank (text st) ->
                 recorded (Hook.turnBudgetBlocked policy) = Some b ->
                 ending out = (Some b, error, Some 1%Z)
                 /\ errorMessage (detailsOf out) = Some b)
              /\ (~ blank (text st) \/ recorded (Hook.turnBudgetBlocked policy) = None ->
                  (stopReason (current st) = Some "error" ->
                     ending out = (Some (stopReasonText "error" (current st)), error,
                                   Some 1%Z))
                  /\ (stopReason (current st) <> Some "error" ->
                      (stopReason (current st) = Some "aborted" ->
                         ending out = (Some (stopReasonText "aborted" (current st)),
                                       aborted, Some 1%Z))
                      /\ (stopReason (current st) <> Some "aborted" ->
                          ending out = (None, done, Some 0%Z)
                          /\ exists r, out = Resolved r)))))).
Proof.
  intros Hfactory policy st out.
  subst out. rewrite (run_unfolds maxBytes maxLines options script Hfactory).
  fold policy. fold st.
  destruct (settledState_facts options script) as (_ & _ & Hsignal).
  fold st in Hsignal. unfold recorded, blank, settle.
  split.
  { intros v Hv. rewrite Hv. split; reflexivity. }
  intros Hnone. rewrite Hnone. rewrite Hsignal. split.
  { intros Hfired. rewrite Hfired. reflexivity. }
  intros Hquiet. rewrite Hquiet. split.
  { intros e He. rewrite He. split; reflexivity. }
  intros Hprompt. rewrite Hprompt. split.
  { intros b Hblank Hb. rewrite Hblank, Hb. split; reflexivity. }
  intros Hnoblock.
  assert (Hpass : (if nonEmpty (trim (text st)) then None
                   else truthyText (Hook.turnBudgetBlocked policy)) = None).
  { destruct (nonEmpty (trim (text st))) eqn:E; [reflexivity|].
    destruct Hnoblock as [Hnb|Hnb]; [now elim Hnb | exact Hnb]. }
  rewrite Hpass. unfold stopReasonIs. split.
  { intros Hstop. rewrite Hstop. reflexivity. }
  intros Hnoerr.
  assert (Herr : match stopReason (current st) with
                 | Some r => String.eqb r "error"
                 | None => false
                 end = false).
  { destruct (stopReason (current st)) as [r|]; [|reflexivity].
    destruct (String.eqb r "error") eqn:E; [|reflexivity].
    apply String.eqb_eq in E. subst r. now elim Hnoerr. }
  rewrite Herr. split.
  { intros Hstop. rewrite Hstop. reflexivity. }
  intros Hnoabort.
  assert (Habort : match stopReason (current st) with
                   | Some r => String.eqb r "aborted"
                   | None => false
                   end = false).
  { destruct (stopReason (current st)) as [r|]; [|reflexivity].
    destruct (String.eqb r "aborted") eqn:E; [|reflexivity].
    apply String.eqb_eq in E. subst r. now elim Hnoabort. }
  rewrite Habort. split; [reflexivity | eexists; reflexivity].
Qed.

End RunClaims.

Lemma terminal_outcome_priority_witness :
  StatedRun.ending
    (Supervisor.runReplicantSubprocess 51200 2000 StatedRun.sampleOptions
       StatedRun.crowdedScript)
  = (Some "out of scope", Supervisor.error, Some 1%Z).
Proof.
  refine (proj1 (proj1 (terminal_outcome_priority 51200 2000 StatedRun.sampleOptions
                          StatedRun.crowdedScript _) "out of scope" _)).
  - reflexivity.
  - reflexivity.
Defined.

Section CeilingClaims.

Import JsStr Supervisor StatedRun.

Variables maxBytes maxLines : nat.

(** C6 (amended).  On the successful path, a non-empty final text over the
    ceiling is cut to its leading whole lines, as many as fit: exactly
    [maxLines] lines when the text has more and these fit in [maxBytes]
    bytes, and in general the longest run of leading lines that is within
    both ceilings; the truncation marker is appended and
    [finalTextTruncated] is set.  A non-empty final text at or below the
    ceiling is returned as it is, without marker, and the flag is false; an
    empty final text is returned as the placeholder [(no output)], without
    marker and with the flag false. *)
Theorem final_text_ceiling (options : RunReplicantSubprocessOptions)
    (script : SessionScript) (r : ReplicantSubprocessResult) :
  runReplicantSubprocess maxBytes maxLines options script = Resolved r ->
  let t := text (settledState options script) in
  (t <> "" -> ~ withinCeiling maxBytes maxLines t ->
     finalTextTruncated (truncation (details r)) = true
     /\ exists k head,
          (k <= maxLines)%nat /\ (k <= lineCount t)%nat
          /\ head = join (String newline "") (firstn k (split newline t))
          /\ (byteLength head <= maxBytes)%nat
          /\ (k = Nat.min maxLines (lineCount t)
              \/ ((k < Nat.min maxLines (lineCount t))%nat
                  /\ (maxBytes < byteLength (join (String newline "")
                                              (firstn (S k) (split newline t))))%nat))
          /\ finalText r = head ++ truncationMarker)
  /\ (t <> "" -> withinCeiling maxBytes maxLines t ->
      finalText r = t /\ finalTextTruncated (truncation (details r)) = false)
  /\ (t = "" -> withinCeiling maxBytes maxLines "(no output)" ->
      finalText r = "(no output)"
      /\ finalTextTruncated (truncation (details r)) = false)
  /\ (t <> "" -> (maxLines < lineCount t)%nat ->
      (byteLength (join (String newline "") (firstn maxLines (split newline t)))
       <= maxBytes)%nat ->
      finalText r
      = join (String newline "") (firstn maxLines (split newline t)) ++ truncationMarker
      /\ finalTextTruncated (truncation (details r)) = true).
Proof.
  intros Hrun t.
  assert (Hfactory : factoryFailure script = None).
  { unfold runReplicantSubprocess in Hrun.
    destruct (factoryFailure script); [discriminate | reflexivity]. }
  rewrite (run_unfolds maxBytes maxLines options script Hfactory) in Hrun.
  apply settle_resolved in Hrun. fold t in Hrun. cbv zeta in Hrun.
  destruct Hrun as [Htext Hflag]. rewrite Htext, Hflag.
  assert (Hshown : t <> "" -> shownText t = t).
  { intros Hne. destruct t; [contradiction | reflexivity]. }
  assert (Hcut : t <> "" -> ~ withinCeiling maxBytes maxLines t ->
            truncated (truncateHead (shownText t) maxBytes maxLines) = true
            /\ exists k,
                 (k <= maxLines)%nat /\ (k <= lineCount t)%nat
                 /\ content (truncateHead (shownText t) maxBytes maxLines)
                    = join (String newline "") (firstn k (split newline t))
                 /\ (byteLength (content (truncateHead (shownText t) maxBytes maxLines))
                     <= maxBytes)%nat
                 /\ (k = Nat.min maxLines (lineCount t)
                     \/ ((k < Nat.min maxLines (lineCount t))%nat
                         /\ (maxBytes < byteLength (join (String newline "")
                                                     (firstn (S k) (split newline t))))%nat))).
  { intros Hne Hover. rewrite (Hshown Hne).
    destruct (truncateHead_spec maxBytes maxLines t) as [_ Hspec].
    destruct (Hspec Hover) as [Htrunc _].
    split; [exact Htrunc | now apply truncateHead_longest]. }
  split; [|split; [|split]].
  - intros Hne Hover.
    destruct (Hcut Hne Hover) as (Htrunc & k & Hk & Hlen & Hhead & Hbytes & Hmax).
    rewrite Htrunc. split; [reflexivity|].
    exists k, (content (truncateHead (shownText t) maxBytes maxLines)).
    repeat (split; [assumption|]). reflexivity.
  - intros Hne Hwithin. rewrite (Hshown Hne).
    destruct (truncateHead_spec maxBytes maxLines t) as [Hspec _].
    rewrite (Hspec Hwithin). split; reflexivity.
  - intros Hempty Hwithin. rewrite Hempty. cbn [shownText nonEmpty].
    destruct (truncateHead_spec maxBytes maxLines "(no output)") as [Hspec _].
    rewrite (Hspec Hwithin). split; reflexivity.
  - intros Hne Hlines Hfit.
    assert (Hover : ~ withinCeiling maxBytes maxLines t)
      by (unfold withinCeiling; lia).
    destruct (Hcut Hne Hover) as (Htrunc & k & Hk & Hlen & Hhead & Hbytes & Hmax).
    rewrite Htrunc, Hhead. split; [|reflexivity].
    destruct Hmax as [->|[Hlt Htoo]]; [now rewrite Nat.min_l by lia|].
    exfalso. rewrite !joinedBytes_join in *.
    pose proof (joinedBytes_firstn (split newline t) true (S k) maxLines) as Hmono.
    lia.
Qed.

(** C10.  A budget option that is omitted, not finite or not strictly
    positive gives the default (8 turns, 40 tool calls); a finite positive
    one gives its floor.  The effective budgets are the ones in the details
    record of every outcome, the ones handed to the session factory, and the
    ones the default session's policy hook checks against. *)
Theorem effective_budgets (pcwd : string) (options : RunReplicantSubprocessOptions)
    (script : SessionScript) :
  let out := runReplicantSubprocess maxBytes maxLines options script in
  (unusableBudget (optMaxTurns options) -> effectiveMaxTurns options = 8%Z)
  /\ (unusableBudget (optMaxToolCalls options) -> effectiveMaxToolCalls options = 40%Z)
  /\ (forall q, optMaxTurns options = Some (Finite q) -> (0 < q)%Q ->
        effectiveMaxTurns options = Qfloor q)
  /\ (forall q, optMaxToolCalls options = Some (Finite q) -> (0 < q)%Q ->
        effectiveMaxToolCalls options = Qfloor q)
  /\ maxTurns (detailsOf out) = effectiveMaxTurns options
  /\ maxToolCalls (detailsOf out) = effectiveMaxToolCalls options
  /\ inMaxTurns (factoryInput options) = effectiveMaxTurns options
  /\ inMaxToolCalls (factoryInput options) = effectiveMaxToolCalls options
  /\ defaultToolCallHook pcwd (factoryInput options)
     = Hook.onToolCall pcwd (resolveScope pcwd (cwd options) (scope options))
                       (effectiveMaxTurns options) (effectiveMaxToolCalls options).
Proof.
  intros out.
  assert (Hdefault : forall v fallback, unusableBudget v ->
                       effectiveBudget v fallback = fallback).
  { intros v fallback [->|[->|[->|[->|(q & -> & Hq)]]]]; try reflexivity.
    unfold effectiveBudget. apply Qle_bool_iff in Hq. now rewrite Hq. }
  assert (Hfloor : forall q fallback, (0 < q)%Q ->
                     effectiveBudget (Some (Finite q)) fallback = Qfloor q).
  { intros q fallback Hq. unfold effectiveBudget.
    destruct (Qle_bool q 0) eqn:E; [|reflexivity].
    apply Qle_bool_iff in E. exfalso. exact (Qlt_not_le _ _ Hq E). }
  split; [intros H; now apply Hdefault|].
  split; [intros H; now apply Hdefault|].
  split; [intros q Hv Hq; unfold effectiveMaxTurns; rewrite Hv; now apply Hfloor|].
  split; [intros q Hv Hq; unfold effectiveMaxToolCalls; rewrite Hv; now apply Hfloor|].
  assert (Hdetails : maxTurns (detailsOf out) = effectiveMaxTurns options
                     /\ maxToolCalls (detailsOf out) = effectiveMaxToolCalls options).
  { subst out. unfold runReplicantSubprocess.
    destruct (factoryFailure script) eqn:Hf; [split; reflexivity|].
    match goal with
    | |- context [settle _ _ ?p ?e ?st] =>
        destruct (settle_budgets maxBytes maxLines p e st) as [-> ->]
    end.
    destruct (settledState_facts options script) as (Ht & Hc & _).
    unfold settledState in Ht, Hc. now rewrite Ht, Hc. }
  destruct Hdetails as [-> ->].
  repeat split; reflexivity.
Qed.

End CeilingClaims.

(** C6, as stated, fails: a run that settles with an empty final text,
    which is below any ceiling, returns the placeholder [(no output)]
    instead of the text as it is. *)
Lemma empty_final_text_is_replaced :
  let t := Supervisor.text (StatedRun.settledState StatedRun.sampleOptions
                              StatedRun.silentScript) in
  StatedRun.withinCeiling 51200 2000 t
  /\ exists r,
       Supervisor.runReplicantSubprocess 51200 2000 StatedRun.sampleOptions
         StatedRun.silentScript = Supervisor.Resolved r
       /\ Supervisor.finalText r = "(no output)"
       /\ Supervisor.finalText r <> t.
Proof.
  cbv zeta. split.
  - split; apply Nat.leb_le; vm_compute; reflexivity.
  - eexists. split; [vm_compute; reflexivity|]. split; [reflexivity|].
    vm_compute. discriminate.
Qed.

Lemma final_text_ceiling_witness :
  exists r,
    Supervisor.runReplicantSubprocess 51200 2000 StatedRun.sampleOptions
      (StatedRun.answeringScript "final answer") = Supervisor.Resolved r
    /\ Supervisor.finalText r = "final answer"
    /\ Supervisor.finalTextTruncated (Supervisor.truncation (Supervisor.details r)) = false.
Proof.
  eexists. split; [vm_compute; reflexivity|].
  refine (proj1 (proj2 (final_text_ceiling 51200 2000 StatedRun.sampleOptions
                          (StatedRun.answeringScript "final answer") _ _)) _ _).
  - vm_compute. reflexivity.
  - vm_compute. discriminate.
  - split; apply Nat.leb_le; vm_compute; reflexivity.
Defined.

Lemma effective_budgets_witness :
  Supervisor.effectiveMaxTurns StatedRun.fractionalOptions = 2%Z
  /\ Supervisor.effectiveMaxToolCalls StatedRun.fractionalOptions = 40%Z.
Proof.
  split.
  - refine (proj1 (proj2 (proj2 (effective_budgets 51200 2000 "/"
              StatedRun.fractionalOptions StatedRun.silentScript))) (5 # 2) _ _).
    + reflexivity.
    + reflexivity.
  - refine (proj1 (proj2 (effective_budgets 51200 2000 "/"
              StatedRun.fractionalOptions StatedRun.silentScript)) _).
    right. right. right. right. exists (-3)%Q. split; [reflexivity|]. discriminate.
Defined.

(** ** The repository resolver *)

Section SlugClaims.

Import JsStr Offworld StatedResolver.

Lemma split_at_first (c : ascii) (q : string) :
  includesChar q c = true ->
  exists before rest,
    q = before ++ String c rest
    /\ includesChar before c = false
    /\ split c q = before :: split c rest.
Proof.
  induction q as [|a r IH]; [discriminate|].
  cbn [includesChar]. destruct (Ascii.eqb a c) eqn:E.
  - intros _. apply Ascii.eqb_eq in E. subst a.
    exists "", r. repeat split. apply split_sep.
  - cbn [orb]. intros H. destruct (IH H) as (before & rest & Hq & Hfree & Hsplit).
    exists (String a before), rest. split; [now rewrite Hq|]. split.
    + cbn [includesChar]. now rewrite E, Hfree.
    + destruct (split_cons c a r E) as (h & t & Hr & Hp).
      rewrite Hp. rewrite Hsplit in Hr. now inversion Hr.
Qed.

Lemma split_free (c : ascii) (s : string) :
  includesChar s c = false -> split c s = [s].
Proof.
  induction s as [|a r IH]; [reflexivity|].
  cbn [includesChar]. intros H. apply orb_false_iff in H as [Ha Hr].
  destruct (split_cons c a r Ha) as (h & t & Hsplit & Hp).
  rewrite Hp. rewrite (IH Hr) in Hsplit. now inversion Hsplit.
Qed.

(** C9, as stated, fails: for a qualified name with two colons the slug is
    the text between them, not the text after the second one. *)
Lemma slug_is_not_after_last_colon :
  includesChar "github.com:owner:repo" colon = true
  /\ toRepoSlug (WithQualifiedName (Some "github.com:owner:repo")) = "owner"
  /\ afterLastColon "github.com:owner:repo" = "repo"
  /\ toRepoSlug (WithQualifiedName (Some "github.com:owner:repo"))
     <> afterLastColon "github.com:owner:repo".
Proof. repeat split. vm_compute. discriminate. Qed.

(** C9 (amended).  With no full name at hand and a qualified name holding a
    colon, the slug is the text that follows the first colon, up to the
    next colon or the end of the name; with exactly one colon that is the
    text after it. *)
Theorem slug_follows_first_colon (q : string) :
  includesChar q colon = true ->
  exists before rest,
    q = before ++ String colon rest
    /\ includesChar before colon = false
    /\ toRepoSlug (WithQualifiedName (Some q)) = hd "" (split colon rest)
    /\ includesChar (toRepoSlug (WithQualifiedName (Some q))) colon = false
    /\ (includesChar rest colon = false ->
        toRepoSlug (WithQualifiedName (Some q)) = rest).
Proof.
  intros H. destruct (split_at_first colon q H) as (before & rest & Hq & Hfree & Hsplit).
  exists before, rest. split; [exact Hq|]. split; [exact Hfree|].
  assert (Hslug : toRepoSlug (WithQualifiedName (Some q)) = hd "" (split colon rest)).
  { unfold toRepoSlug. rewrite H, Hsplit.
    destruct (split colon rest) eqn:E; [now apply split_nonempty in E | reflexivity]. }
  split; [exact Hslug|]. split.
  - rewrite Hslug. pose proof (split_segments_free colon rest) as Hall.
    destruct (split colon rest) eqn:E; [reflexivity|]. now inversion Hall.
  - intros Hrest. rewrite Hslug, (split_free colon rest Hrest). reflexivity.
Qed.

Lemma slug_follows_first_colon_witness :
  exists before rest,
    "github.com:tanstack/pacer" = before ++ String colon rest
    /\ includesChar before colon = false
    /\ toRepoSlug (WithQualifiedName (Some "github.com:tanstack/pacer"))
       = hd "" (split colon rest)
    /\ includesChar (toRepoSlug (WithQualifiedName (Some "github.com:tanstack/pacer")))
         colon = false
    /\ (includesChar rest colon = false ->
        toRepoSlug (WithQualifiedName (Some "github.com:tanstack/pacer")) = rest).
Proof.
  apply (slug_follows_first_colon "github.com:tanstack/pacer").
  reflexivity.
Defined.

End SlugClaims.

Section ResolverClaims.

Import JsStr Offworld StatedResolver.

Variable parseShow : string -> option MapShowJson.t.
Variable parseSearch : string -> option (list MapSearchEntry.t).
Variable numberToString : Q -> string.
Variable extractRepoHintFromTask : string -> option string.

Lemma selectCandidate_without_ui (ctx : Host) (candidates : list MapSearchEntry.t) :
  hasUI ctx = false ->
  (2 <= List.length candidates)%nat ->
  exists e, selectCandidate numberToString ctx candidates = Failed e
            /\ code e = repo_ambiguous.
Proof.
  intros Hui Hlen. unfold selectCandidate. rewrite Hui.
  destruct candidates as [|a [|b rest]]; simpl in Hlen; try lia.
  eexists. split; reflexivity.
Qed.

(** C7.  When the map search returns two or more candidates and the
    context has no UI, the disambiguation picks none of them and the
    resolution fails with [repo_ambiguous], whatever the scores; when the
    search returns exactly one candidate, that candidate is selected without
    any disambiguation, in every context. *)
Theorem ambiguity_is_never_guessed (ctx : Host) (options : ResolveRepoOptions)
    (matches : list MapSearchEntry.t) :
  mapSearch parseSearch (beforePull ctx) (extractSearchTerm (task options))
  = Fulfilled matches ->
  (hasUI ctx = false ->
   (2 <= List.length matches)%nat ->
   (exists e, selectCandidate numberToString ctx matches = Failed e
              /\ code e = repo_ambiguous)
   /\ (exitStatus (exec (beforePull ctx) ["--version"]) = 0%Z ->
       falsy (hintOf extractRepoHintFromTask options) = true ->
       exists e,
         resolveRepoWithOffworld parseShow parseSearch numberToString
           extractRepoHintFromTask ctx options = Failed e
         /\ code e = repo_ambiguous))
  /\ (forall only, matches = [only] ->
        selectCandidate numberToString ctx matches = Fulfilled only
        /\ searchAndSelect parseSearch numberToString ctx (task options)
           = Fulfilled (MapSearchEntry.fullName only,
                        [(MapSearchEntry.fullName only, MapSearchEntry.score only)])).
Proof.
  intros Hsearch. split.
  - intros Hui Hlen.
    destruct (selectCandidate_without_ui ctx matches Hui Hlen) as (e & He & Hcode).
    split; [now exists e|].
    intros Hversion Hhint. exists e. split; [|exact Hcode].
    unfold resolveRepoWithOffworld, ensureOwInstalled, runOw.
    cbn [commandHead allowlist existsb String.eqb Ascii.eqb Bool.eqb orb negb andThen].
    rewrite Hversion. cbn [Z.eqb negb andThen].
    unfold hintOf in Hhint. rewrite Hhint.
    unfold searchAndSelect. rewrite Hsearch. cbn [andThen].
    destruct matches as [|a [|b rest]]; simpl in Hlen; try lia.
    cbn [List.length Nat.eqb]. rewrite He. reflexivity.
  - intros only ->. split; [reflexivity|].
    unfold searchAndSelect. rewrite Hsearch. reflexivity.
Qed.





End ResolverClaims.

Lemma ambiguity_is_never_guessed_witness :
  exists e,
    Offworld.resolveRepoWithOffworld StatedResolver.sampleParseShow
      StatedResolver.sampleParseSearch StatedResolver.plainNumber StatedResolver.noHint
      StatedResolver.sampleHost StatedResolver.searchingOptions = Offworld.Failed e
    /\ Offworld.code e = Offworld.repo_ambiguous.
Proof.
  refine (proj2 (proj1 (ambiguity_is_never_guessed StatedResolver.sampleParseShow
            StatedResolver.sampleParseSearch StatedResolver.plainNumber
            StatedResolver.noHint StatedResolver.sampleHost
            StatedResolver.searchingOptions StatedResolver.twoMatches _) _ _) _ _).
  - reflexivity.
  - reflexivity.
  - simpl. lia.
  - reflexivity.
  - reflexivity.
Defined.


(** ** The repository's own tests, replayed on the model *)

Section ReplayedTests.

Import JsStr Supervisor StatedRun.

Example replay_out_of_scope_read :
  Policy.getToolCallPolicyViolation "/work/repo"
    (Stated.sampleCall "read" [("path", JStr "/etc/passwd")] 0 0 Stated.repoScope)
  = Some "Replicant subagent attempted out-of-scope read path: /etc/passwd. Allowed roots: /work/repo. Allowed files: (none).".
Proof. reflexivity. Qed.

Example replay_unsafe_find_glob :
  Policy.getToolCallPolicyViolation "/work/repo" Stated.scopedFind
  = Some "Replicant subagent attempted out-of-scope find pattern: ../**/*.ts. Parent-directory and absolute patterns are not allowed.".
Proof. reflexivity. Qed.

Example replay_tool_call_budget :
  Policy.getToolCallPolicyViolation "/work/repo" Stated.lastCallOfBudget
  = Some "Replicant subagent tool call budget exceeded (24/24). Narrow the task for focused exploration.".
Proof. reflexivity. Qed.

Example replay_turn_budget :
  Policy.getToolCallPolicyViolation "/work/repo"
    (Stated.sampleCall "read" [("path", JStr "README.md")] 5 0 Stated.repoScope)
  = Some "Replicant subagent turn budget exceeded (6/6) before producing a final answer.".
Proof. reflexivity. Qed.

Example replay_in_scope_read :
  Policy.getToolCallPolicyViolation "/work/repo"
    (Stated.sampleCall "read" [("path", JStr "/work/repo/README.md")] 0 0 Stated.repoScope)
  = None.
Proof. reflexivity. Qed.

Example replay_stop_reason_error :
  ending (runReplicantSubprocess 51200 2000 sampleOptions upstreamFailureScript)
  = (Some "Replicant subagent reported stopReason=error: upstream failed", error,
     Some 1%Z).
Proof. vm_compute. reflexivity. Qed.

Example replay_signal_cancelled :
  ending (runReplicantSubprocess 51200 2000 sampleOptions cancelledScript)
  = (Some "Replicant subagent was aborted.", aborted, Some 1%Z).
Proof. vm_compute. reflexivity. Qed.

Example replay_answer_after_budget_block :
  exists r,
    runReplicantSubprocess 51200 2000 sampleOptions (blockedScript "final answer")
    = Resolved r
    /\ finalText r = "final answer" /\ phase (details r) = done.
Proof. eexists. split; [vm_compute; reflexivity|]. split; reflexivity. Qed.

Example replay_no_answer_after_budget_block :
  ending (runReplicantSubprocess 51200 2000 sampleOptions
            {| factoryFailure := None; signalAbortedAtBoot := false; stimuli := [];
               promptFailure := None; messages := [];
               policyAtSettle := policyAtSettle (blockedScript "") |})
  = (Some "Replicant subagent turn budget exceeded (6/6) before producing a final answer.",
     error, Some 1%Z).
Proof. vm_compute. reflexivity. Qed.

Example replay_truncation_to_2000_lines :
  exists r,
    runReplicantSubprocess 51200 2000 sampleOptions (readingScript (numberedLines 2505))
    = Resolved r
    /\ finalTextTruncated (truncation (details r)) = true
    /\ finalText r = numberedLines 2000 ++ truncationMarker
    /\ phase (details r) = done
    /\ toolCalls (details r) = 1%Z
    /\ toolErrors (details r) = 0%Z
    /\ stopReason (details r) = Some "end_turn".
Proof.
  eexists. split; [vm_compute; reflexivity|].
  split; [reflexivity|]. split; [vm_compute; reflexivity|].
  repeat split.
Qed.

End ReplayedTests.

(* ===================================================================== *)
(** * Further properties *)
(* ===================================================================== *)

(** ** Resolved paths *)

Section ResolveFacts.

Import JsStr PosixPath Policy Stated StatedMore.

Lemma split_app_sep (c : ascii) (a b : string) :
  split c (a ++ String c b) = (split c a ++ split c b)%list.
Proof.
  induction a as [|x a IH].
  - simpl append. now rewrite split_sep.
  - change (String x a ++ String c b) with (String x (a ++ String c b)).
    destruct (Ascii.eqb x c) eqn:E.
    + apply Ascii.eqb_eq in E. subst x. now rewrite !split_sep, IH.
    + destruct (split_cons c x (a ++ String c b) E) as (h & t & Hr & Hp).
      destruct (split_cons c x a E) as (h0 & t0 & Hr0 & Hp0).
      rewrite Hp, Hp0. rewrite IH, Hr0 in Hr. simpl in Hr.
      inversion Hr; subst. reflexivity.
Qed.

Lemma split_join (segs : list string) :
  segs <> [] ->
  Forall (fun s => includesChar s slash = false) segs ->
  split slash (join "/" segs) = segs.
Proof.
  induction segs as [|s rest IH]; [contradiction|].
  intros _ Hall. inversion Hall as [|? ? Hs Hrest]; subst.
  rewrite join_cons. destruct rest as [|s' rest].
  - now apply split_free.
  - change (s ++ "/" ++ join "/" (s' :: rest))
      with (s ++ String slash (join "/" (s' :: rest))).
    rewrite split_app_sep, (split_free slash s Hs), IH; [reflexivity | discriminate | assumption].
Qed.

Lemma ordinary_free (s : string) : ordinaryName s -> includesChar s slash = false.
Proof. unfold ordinaryName. tauto. Qed.

Lemma pushSegment_ordinary (above : bool) (stack : list string) (s : string) :
  ordinaryName s -> pushSegment above stack s = s :: stack.
Proof.
  intros (H0 & H1 & H2 & _). unfold pushSegment.
  destruct (String.eqb s "") eqn:E0; [apply String.eqb_eq in E0; contradiction|].
  destruct (String.eqb s ".") eqn:E1; [apply String.eqb_eq in E1; contradiction|].
  destruct (String.eqb s "..") eqn:E2; [apply String.eqb_eq in E2; contradiction|].
  reflexivity.
Qed.

Lemma fold_pushSegment_ordinary (above : bool) (names stack : list string) :
  Forall ordinaryName names ->
  fold_left (pushSegment above) names stack = (rev names ++ stack)%list.
Proof.
  revert stack. induction names as [|s names IH]; intros stack Hall; [reflexivity|].
  inversion Hall; subst. cbn [fold_left rev].
  rewrite pushSegment_ordinary by assumption. rewrite IH by assumption.
  now rewrite <- app_assoc.
Qed.

Lemma normalizeSegments_app_ordinary (above : bool) (before names : list string) :
  Forall ordinaryName names ->
  normalizeSegments above (before ++ names)
  = (normalizeSegments above before ++ names)%list.
Proof.
  intros Hall. unfold normalizeSegments.
  rewrite fold_left_app, fold_pushSegment_ordinary by assumption.
  now rewrite rev_app_distr, rev_involutive.
Qed.

Lemma normalizeSegments_app_empty (above : bool) (before : list string) :
  normalizeSegments above (before ++ [""]) = normalizeSegments above before.
Proof. unfold normalizeSegments. now rewrite fold_left_app. Qed.

Lemma pushSegment_keeps_ordinary (stack : list string) (seg : string) :
  includesChar seg slash = false ->
  Forall ordinaryName stack ->
  Forall ordinaryName (pushSegment false stack seg).
Proof.
  intros Hfree Hstack. unfold pushSegment.
  destruct (String.eqb seg "") eqn:E0; [exact Hstack|].
  destruct (String.eqb seg ".") eqn:E1; [exact Hstack|]. cbn [orb].
  destruct (String.eqb seg "..") eqn:E2.
  - destruct stack as [|top below]; [constructor|].
    destruct (String.eqb top ".."); [exact Hstack | now inversion Hstack].
  - constructor; [|exact Hstack].
    repeat split; try exact Hfree; intros ->; discriminate.
Qed.

Lemma normalizeSegments_ordinary (segs : list string) :
  Forall (fun s => includesChar s slash = false) segs ->
  Forall ordinaryName (normalizeSegments false segs).
Proof.
  intros Hall. unfold normalizeSegments. apply Forall_rev.
  assert (H : forall stack, Forall ordinaryName stack ->
                Forall ordinaryName (fold_left (pushSegment false) segs stack)).
  { induction Hall as [|s segs Hs Hsegs IH]; intros stack Hstack; [exact Hstack|].
    cbn [fold_left]. apply IH. now apply pushSegment_keeps_ordinary. }
  apply H. constructor.
Qed.

Lemma resolveScan_absolute (pcwd : string) (revArgs : list string) (acc : string) :
  isAbsolute pcwd = true -> snd (resolveScan (revArgs ++ [pcwd]) acc) = true.
Proof.
  intros Habs. revert acc. induction revArgs as [|p rest IH]; intros acc.
  - cbn [app resolveScan]. destruct pcwd as [|c r]; [discriminate|].
    cbn [nonEmpty]. now rewrite Habs.
  - cbn [app resolveScan]. destruct (nonEmpty p); [|apply IH].
    destruct (isAbsolute p); [reflexivity | apply IH].
Qed.

Lemma resolveSegments_ordinary (pcwd : string) (args : list string) :
  isAbsolute pcwd = true ->
  exists segs, resolveSegments pcwd args = (true, segs) /\ Forall ordinaryName segs.
Proof.
  intros Habs. unfold resolveSegments.
  pose proof (resolveScan_absolute pcwd (rev args) "" Habs) as Hscan.
  destruct (resolveScan (rev args ++ [pcwd]) "") as [joined absolute].
  cbn [snd] in Hscan. subst absolute. eexists. split; [reflexivity|].
  apply normalizeSegments_ordinary, split_segments_free.
Qed.

(** The segments of an absolute path printed from ordinary names are those
    names. *)
Lemma resolveSegments_render (pcwd : string) (segs : list string) :
  Forall ordinaryName segs ->
  resolveSegments pcwd [render (true, segs)] = (true, segs).
Proof.
  intros Hall. unfold resolveSegments, render.
  cbn [rev app resolveScan].
  change ("/" ++ join "/" segs) with (String slash (join "/" segs)).
  cbn [nonEmpty isAbsolute startsWith]. rewrite Ascii.eqb_refl. cbn [andb negb].
  f_equal.
  change (String slash (join "/" segs) ++ "/" ++ "")
    with (String slash (join "/" segs ++ String slash "")).
  rewrite split_sep, split_app_sep. cbn [split].
  change ("" :: (split slash (join "/" segs) ++ [""])%list)
    with (([""] ++ split slash (join "/" segs)) ++ [""])%list.
  rewrite normalizeSegments_app_empty.
  destruct segs as [|s rest]; [reflexivity|].
  rewrite split_join; [| discriminate | eapply Forall_impl; [|exact Hall]; apply ordinary_free].
  rewrite normalizeSegments_app_ordinary by assumption. reflexivity.
Qed.

(** With an absolute working directory of the process, [path.resolve]
    returns an absolute path printed from ordinary names, and resolving
    that result again gives it back. *)
Lemma resolve_canonical (pcwd : string) (args : list string) :
  isAbsolute pcwd = true ->
  isAbsolute (resolve pcwd args) = true
  /\ (exists segs, Forall ordinaryName segs
                   /\ resolve pcwd args = "/" ++ join "/" segs)
  /\ resolve pcwd [resolve pcwd args] = resolve pcwd args.
Proof.
  intros Habs. unfold resolve at 1 2 4 5.
  destruct (resolveSegments_ordinary pcwd args Habs) as (segs & Hsegs & Hall).
  rewrite Hsegs. split; [reflexivity|]. split; [now exists segs|].
  unfold resolve. now rewrite (resolveSegments_render pcwd segs Hall).
Qed.

Lemma resolve_from_absolute (pcwd cwd p : string) :
  isAbsolute p = true -> resolve pcwd [cwd; p] = resolve pcwd [p].
Proof.
  intros Habs. unfold resolve, resolveSegments. cbn [rev app resolveScan].
  destruct p as [|c r]; [discriminate|]. cbn [nonEmpty]. now rewrite Habs.
Qed.

(** X1.  With an absolute working directory of the process, every root and
    every file of a resolved scope is an absolute path printed from ordinary
    names (no empty segment, no [.], no [..]); there are as many of them as
    were given; and resolving a resolved scope again changes nothing. *)
Theorem resolved_scope_is_canonical (pcwd cwd : string)
    (scope : option Supervisor.Scope) :
  isAbsolute pcwd = true ->
  let resolved := Supervisor.resolveScope pcwd cwd scope in
  Forall (fun p => isAbsolute p = true
                   /\ exists segs, Forall ordinaryName segs /\ p = "/" ++ join "/" segs)
         (Policy.allowedRoots resolved ++ Policy.allowedFiles resolved)%list
  /\ List.length (Policy.allowedRoots resolved)
     = List.length match scope with Some sc => Supervisor.allowedRoots sc | None => [] end
  /\ Supervisor.resolveScope pcwd cwd
       (Some {| Supervisor.allowedRoots := Policy.allowedRoots resolved;
                Supervisor.allowedFiles := Some (Policy.allowedFiles resolved) |})
     = resolved.
Proof.
  intros Habs resolved. subst resolved. unfold Supervisor.resolveScope.
  cbn [Policy.allowedRoots Policy.allowedFiles Supervisor.allowedRoots
       Supervisor.allowedFiles].
  set (roots := match scope with Some sc => Supervisor.allowedRoots sc | None => [] end).
  set (files := match scope with
                | Some sc => match Supervisor.allowedFiles sc with
                             | Some fs => fs
                             | None => []
                             end
                | None => []
                end).
  assert (Hagain : forall l,
            map (fun p => resolve pcwd [cwd; p]) (map (fun p => resolve pcwd [cwd; p]) l)
            = map (fun p => resolve pcwd [cwd; p]) l).
  { intros l. rewrite map_map. apply map_ext. intros p.
    destruct (resolve_canonical pcwd [cwd; p] Habs) as (Hp & _ & Hfix).
    now rewrite (resolve_from_absolute pcwd cwd _ Hp). }
  split; [|split].
  - rewrite <- map_app. apply Forall_forall. intros p Hin.
    apply in_map_iff in Hin as (given & <- & _).
    destruct (resolve_canonical pcwd [cwd; given] Habs) as (Hp & Hsegs & _). now split.
  - apply length_map.
  - now rewrite !Hagain.
Qed.

Lemma resolved_scope_is_canonical_witness :
  Policy.allowedRoots
    (Supervisor.resolveScope "/home/u" "/clones/repo"
       (Some {| Supervisor.allowedRoots := ["./src/../lib//"]; Supervisor.allowedFiles := None |}))
  = ["/clones/repo/lib"]
  /\ Forall (fun p => isAbsolute p = true
                      /\ exists segs, Forall ordinaryName segs /\ p = "/" ++ join "/" segs)
         ["/clones/repo/lib"].
Proof.
  split; [reflexivity|].
  exact (proj1 (resolved_scope_is_canonical "/home/u" "/clones/repo"
                  (Some {| Supervisor.allowedRoots := ["./src/../lib//"];
                           Supervisor.allowedFiles := None |}) eq_refl)).
Defined.

End ResolveFacts.

(** ** More on the policy checker *)

Section PolicyMore.

Import JsStr PosixPath Policy Stated StatedMore.

Lemma absolute_nonEmpty (p : string) : isAbsolute p = true -> nonEmpty p = true.
Proof. destruct p; [discriminate | reflexivity]. Qed.

Lemma segmentsOf_absolute (pcwd base : string) :
  isAbsolute base = true ->
  resolveSegments pcwd [base] = (true, normalizeSegments false (split slash base)).
Proof.
  intros Habs. unfold resolveSegments. cbn [rev app resolveScan].
  rewrite (absolute_nonEmpty base Habs), Habs. cbn [negb]. f_equal.
  change (base ++ "/" ++ "") with (base ++ String slash "").
  rewrite split_app_sep. cbn [split]. apply normalizeSegments_app_empty.
Qed.

Lemma join_ordinary_relative (names : list string) :
  Forall ordinaryName names -> names <> [] ->
  nonEmpty (join "/" names) = true /\ isAbsolute (join "/" names) = false.
Proof.
  intros Hall Hne. destruct names as [|n rest]; [contradiction|].
  inversion Hall as [|? ? (H0 & _ & _ & Hfree) _]; subst.
  rewrite join_cons. destruct n as [|a n]; [contradiction|].
  cbn [includesChar] in Hfree. apply orb_false_iff in Hfree as [Ha _].
  unfold isAbsolute. destruct rest; cbn; unfold slash in Ha; rewrite Ha; auto.
Qed.

(** A relative path of ordinary names resolves to the base followed by
    those names. *)
Lemma resolveSegments_under (pcwd base : string) (names : list string) :
  isAbsolute base = true ->
  Forall ordinaryName names -> names <> [] ->
  resolveSegments pcwd [base; join "/" names]
  = (true, (normalizeSegments false (split slash base) ++ names)%list).
Proof.
  intros Habs Hall Hne.
  destruct (join_ordinary_relative names Hall Hne) as [Hnonempty Hrel].
  unfold resolveSegments. cbn [rev app resolveScan].
  rewrite Hnonempty, Hrel, (absolute_nonEmpty base Habs), Habs. cbn [negb]. f_equal.
  change (base ++ "/" ++ join "/" names ++ "/" ++ "")
    with (base ++ String slash (join "/" names ++ String slash "")).
  rewrite !split_app_sep. cbn [split].
  rewrite split_join;
    [| exact Hne | eapply Forall_impl; [|exact Hall]; apply ordinary_free].
  rewrite app_assoc, normalizeSegments_app_empty.
  now apply normalizeSegments_app_ordinary.
Qed.

Lemma resolveSegments_dot (pcwd base : string) :
  isAbsolute base = true ->
  resolveSegments pcwd [base; "."]
  = (true, normalizeSegments false (split slash base)).
Proof.
  intros Habs. unfold resolveSegments. cbn [rev app resolveScan nonEmpty].
  change (isAbsolute ".") with false. cbv iota.
  rewrite (absolute_nonEmpty base Habs), Habs. cbn [negb]. f_equal.
  change (base ++ "/" ++ "." ++ "/" ++ "")
    with (base ++ String slash ("." ++ String slash "")).
  rewrite !split_app_sep. cbn [split].
  unfold normalizeSegments. now rewrite !fold_left_app.
Qed.

Lemma production_root (pcwd : string) (r : ResolvedRepo.t) :
  isAbsolute (ResolvedRepo.clonePath r) = true ->
  allowedRoots (Index.productionScope pcwd r)
  = [render (true, normalizeSegments false (split slash (ResolvedRepo.clonePath r)))]
  /\ cwd (Index.productionScope pcwd r) = ResolvedRepo.clonePath r.
Proof.
  intros Habs. split; [|reflexivity].
  unfold Index.productionScope, Supervisor.resolveScope, Index.subprocessScope.
  cbn [allowedRoots Supervisor.allowedRoots map]. f_equal.
  unfold resolve, resolveSegments. cbn [rev app resolveScan].
  rewrite (absolute_nonEmpty _ Habs), Habs. cbn [negb].
  change (ResolvedRepo.clonePath r ++ "/" ++ "")
    with (ResolvedRepo.clonePath r ++ String slash "").
  rewrite split_app_sep. cbn [split]. now rewrite normalizeSegments_app_empty.
Qed.

(** X2.  In the scope the tool entry point builds from a resolved
    repository with an absolute clone path, a call of a path-sensitive tool
    below both budgets and without unsafe glob is allowed whenever its path
    argument is absent or [.], or is, once trimmed and freed of a leading
    [@], a relative path of ordinary names whose first name does not begin
    with two dots. *)
Theorem ordinary_paths_allowed_in_production (pcwd : string) (r : ResolvedRepo.t)
    (tool : string) (input : JsValue) (turn calls maxTurn maxCalls : Z)
    (names : list string) :
  let o := {| toolName := tool; Policy.input := input; turnIndex := turn;
              toolCalls := calls; maxTurns := maxTurn; maxToolCalls := maxCalls;
              scope := Index.productionScope pcwd r |} in
  isAbsolute (ResolvedRepo.clonePath r) = true ->
  In tool pathSensitiveTools ->
  underBudget o ->
  noUnsafeGlob o ->
  Forall ordinaryName names ->
  match names with
  | [] => normalizeToolPath (pathArgument o) = "."
  | first :: _ => normalizeToolPath (pathArgument o) = join "/" names
                  /\ startsWith first ".." = false
  end ->
  getToolCallPolicyViolation pcwd o = None.
Proof.
  intros o Habs Htool Hbudget Hsafe Hall Hpath.
  destruct (production_root pcwd r Habs) as [Hroot Hcwd].
  set (base := normalizeSegments false (split slash (ResolvedRepo.clonePath r))) in *.
  assert (Hbase : Forall ordinaryName base)
    by apply normalizeSegments_ordinary, split_segments_free.
  assert (Hscope : restricted (scope o)).
  { left. cbn [scope o]. rewrite Hroot. discriminate. }
  rewrite (path_call_verdict pcwd o Htool Hbudget Hscope Hsafe).
  assert (Hwithin : liesPlainlyWithin pcwd (testedPath pcwd o) (render (true, base))).
  { unfold liesPlainlyWithin, segmentsOf.
    rewrite (resolveSegments_render pcwd base Hbase). cbn [snd].
    unfold testedPath, resolve. cbn [scope o]. rewrite Hcwd.
    destruct names as [|first rest].
    - rewrite Hpath, (resolveSegments_dot pcwd _ Habs). fold base.
      rewrite (resolveSegments_render pcwd base Hbase). cbn [snd].
      exists []. split; [now rewrite app_nil_r | exact I].
    - destruct Hpath as [Hpath Hfirst].
      rewrite Hpath, (resolveSegments_under pcwd _ _ Habs Hall) by discriminate.
      fold base. rewrite (resolveSegments_render pcwd (base ++ first :: rest));
        [| apply Forall_app; split; assumption].
      cbn [snd]. exists (first :: rest). split; [reflexivity | exact Hfirst]. }
  assert (Hallowed : existsb (fun root => isWithinPath pcwd (testedPath pcwd o) root)
                            (allowedRoots (scope o)) = true).
  { apply allowedByRoot_spec. exists (render (true, base)). split; [|exact Hwithin].
    cbn [scope o]. rewrite Hroot. now left. }
  now rewrite Hallowed.
Qed.

End PolicyMore.

Section VerdictFacts.

Import JsStr PosixPath Policy Stated StatedMore.

Lemma geb_true (a b : Z) : (a >=? b)%Z = true <-> (b <= a)%Z.
Proof. rewrite Z.geb_leb. apply Z.leb_le. Qed.

Lemma geb_false (a b : Z) : (a >=? b)%Z = false <-> (a < b)%Z.
Proof. rewrite Z.geb_leb. apply Z.leb_gt. Qed.

Lemma listed_tool (name : string) :
  existsb (String.eqb name) pathSensitiveTools = true <-> In name pathSensitiveTools.
Proof.
  split; [|apply path_sensitive_listed].
  intros H. apply existsb_exists in H as (x & Hin & Heq).
  apply String.eqb_eq in Heq. now subst.
Qed.

Lemma open_scope_lengths (sc : ResolvedScope) :
  (List.length (allowedRoots sc) =? 0)%nat && (List.length (allowedFiles sc) =? 0)%nat = true
  <-> ~ restricted sc.
Proof.
  unfold restricted. destruct (allowedRoots sc) as [|x xs], (allowedFiles sc) as [|y ys];
    cbn; split; intros H.
  - intros [F|F]; now apply F.
  - reflexivity.
  - discriminate.
  - exfalso. apply H. right. discriminate.
  - discriminate.
  - exfalso. apply H. left. discriminate.
  - discriminate.
  - exfalso. apply H. left. discriminate.
Qed.

Lemma passing_globs_safe (o : ToolCallPolicyInput) :
  unsafeArgument "find" "pattern" (toolName o) (normalizeToolInput (input o)) = None ->
  unsafeArgument "grep" "glob" (toolName o) (normalizeToolInput (input o)) = None ->
  noUnsafeGlob o.
Proof.
  rewrite unsafeArgument_find. intros Hfind Hgrep p Hp.
  destruct (String.eqb (toolName o) "find") eqn:Ef.
  - rewrite Hp in Hfind. destruct (hasUnsafeGlobSegments p); [discriminate | reflexivity].
  - rewrite unsafeArgument_grep in Hgrep by assumption.
    destruct (String.eqb (toolName o) "grep") eqn:Eg.
    + rewrite Hp in Hgrep. destruct (hasUnsafeGlobSegments p); [discriminate | reflexivity].
    + unfold globArgument in Hp. rewrite Ef, Eg in Hp. discriminate.
Qed.

Lemma allowed_is_under_budget (pcwd : string) (o : ToolCallPolicyInput) :
  getToolCallPolicyViolation pcwd o = None -> underBudget o.
Proof.
  unfold getToolCallPolicyViolation.
  destruct (turnIndex o >=? maxTurns o - 1)%Z eqn:Et; [discriminate|].
  destruct (toolCalls o >=? maxToolCalls o)%Z eqn:Ec; [discriminate|].
  apply geb_false in Et, Ec. intros _. now split.
Qed.

(** X3.  The checker lets a call through exactly when both budgets have
    room and the tool is not path-sensitive, or the scope is open, or the
    call has no unsafe glob and its tested path is accepted by the scope
    test.  In particular nothing is let through at or over a budget. *)
Theorem verdict_allows_exactly (pcwd : string) (o : ToolCallPolicyInput) :
  getToolCallPolicyViolation pcwd o = None
  <-> underBudget o
      /\ (~ In (toolName o) pathSensitiveTools
          \/ ~ restricted (scope o)
          \/ (noUnsafeGlob o /\ plainlyInScope pcwd o (testedPath pcwd o))).
Proof.
  split.
  - unfold getToolCallPolicyViolation.
    destruct (turnIndex o >=? maxTurns o - 1)%Z eqn:Et; [discriminate|].
    destruct (toolCalls o >=? maxToolCalls o)%Z eqn:Ec; [discriminate|].
    apply geb_false in Et, Ec. intros H. split; [now split|].
    destruct (existsb (String.eqb (toolName o)) pathSensitiveTools) eqn:El.
    + cbn [negb] in H.
      destruct ((List.length (allowedRoots (scope o)) =? 0)%nat
                && (List.length (allowedFiles (scope o)) =? 0)%nat) eqn:Es.
      * right. left. now apply open_scope_lengths.
      * right. right.
        destruct (unsafeArgument "find" "pattern" _ _) eqn:Ef; [discriminate|].
        destruct (unsafeArgument "grep" "glob" _ _) eqn:Eg; [discriminate|].
        split; [now apply passing_globs_safe|].
        fold (pathArgument o) in H. fold (testedPath pcwd o) in H.
        destruct (existsb _ (allowedRoots (scope o))) eqn:Er.
        -- left. now apply allowedByRoot_spec.
        -- destruct (existsb _ (allowedFiles (scope o))) eqn:Ea; [|discriminate].
           right. now apply allowedByFile_spec.
    + left. intros Hin. apply listed_tool in Hin. congruence.
  - intros [[Ht Hc] Hcases].
    destruct (existsb (String.eqb (toolName o)) pathSensitiveTools) eqn:El.
    + destruct ((List.length (allowedRoots (scope o)) =? 0)%nat
                && (List.length (allowedFiles (scope o)) =? 0)%nat) eqn:Es.
      * unfold getToolCallPolicyViolation.
        apply geb_false in Ht, Hc. now rewrite Ht, Hc, El, Es.
      * apply listed_tool in El.
        assert (Hscope : restricted (scope o)).
        { unfold restricted.
          destruct (allowedRoots (scope o)) eqn:Er; [|left; discriminate].
          destruct (allowedFiles (scope o)) eqn:Ea; [|right; discriminate].
          cbn in Es. discriminate Es. }
        destruct Hcases as [Hno|[Hno|[Hsafe Hin]]]; try contradiction.
        rewrite (path_call_verdict pcwd o El (conj Ht Hc) Hscope Hsafe).
        destruct Hin as [Hroot|Hfile].
        -- apply allowedByRoot_spec in Hroot. now rewrite Hroot.
        -- apply allowedByFile_spec in Hfile. rewrite Hfile. now rewrite orb_true_r.
    + unfold getToolCallPolicyViolation.
      apply geb_false in Ht, Hc. now rewrite Ht, Hc, El.
Qed.

(** X4.  From the last allowed turn on ([turnIndex >= maxTurns - 1]) every
    call is refused with one and the same text, which reads
    [maxTurns/maxTurns] whatever the turn, the tool, the input and the
    scope. *)
Theorem final_turn_text_is_fixed (pcwd : string) (o : ToolCallPolicyInput) :
  (turnIndex o >= maxTurns o - 1)%Z ->
  getToolCallPolicyViolation pcwd o
  = Some ("Replicant subagent turn budget exceeded (" ++ ofZ (maxTurns o) ++ "/"
          ++ ofZ (maxTurns o) ++ ") before producing a final answer.").
Proof.
  intros H. unfold getToolCallPolicyViolation.
  replace (turnIndex o >=? maxTurns o - 1)%Z with true
    by (symmetry; apply geb_true; lia).
  unfold turnBudgetMessage. now rewrite Z.min_r by lia.
Qed.

Lemma final_turn_text_is_fixed_witness :
  getToolCallPolicyViolation "/"
    (sampleCall "bash" [] 9 0 openScope)
  = Some "Replicant subagent turn budget exceeded (6/6) before producing a final answer.".
Proof.
  apply (final_turn_text_is_fixed "/" (sampleCall "bash" [] 9 0 openScope)).
  simpl. lia.
Defined.

Lemma is_ws_after_replacement (a : ascii) :
  is_ws (if Ascii.eqb a backslash then slash else a) = is_ws a.
Proof.
  destruct (Ascii.eqb a backslash) eqn:E; [|reflexivity].
  apply Ascii.eqb_eq in E. now subst a.
Qed.

Lemma b2s_trimStart (s : string) :
  backslashesToSlashes (trimStart s) = trimStart (backslashesToSlashes s).
Proof.
  induction s as [|a r IH]; [reflexivity|].
  rewrite b2s_cons. cbn [trimStart]. rewrite is_ws_after_replacement.
  destruct (is_ws a); [exact IH | now rewrite b2s_cons].
Qed.

Lemma b2s_empty (s : string) : backslashesToSlashes s = "" -> s = "".
Proof. destruct s; [reflexivity | discriminate]. Qed.

Lemma b2s_trimEnd (s : string) :
  backslashesToSlashes (trimEnd s) = trimEnd (backslashesToSlashes s).
Proof.
  induction s as [|a r IH]; [reflexivity|].
  rewrite b2s_cons, !trimEnd_cons. rewrite <- IH, is_ws_after_replacement.
  destruct (trimEnd r) as [|b x]; [destruct (is_ws a); reflexivity|].
  rewrite !b2s_cons. reflexivity.
Qed.

Lemma b2s_idempotent (s : string) :
  backslashesToSlashes (backslashesToSlashes s) = backslashesToSlashes s.
Proof.
  induction s as [|a r IH]; [reflexivity|].
  rewrite !b2s_cons, IH. f_equal.
  destruct (Ascii.eqb a backslash) eqn:E; [reflexivity | now rewrite E].
Qed.

Lemma trimEnd_idempotent (s : string) : trimEnd (trimEnd s) = trimEnd s.
Proof.
  induction s as [|a r IH]; [reflexivity|].
  rewrite trimEnd_cons. destruct (trimEnd r) as [|b x] eqn:E.
  - destruct (is_ws a) eqn:W; [reflexivity|]. cbn. now rewrite W.
  - rewrite trimEnd_cons, IH. reflexivity.
Qed.

Lemma trimEnd_keeps_head (a : ascii) (r : string) :
  is_ws a = false -> exists x, trimEnd (String a r) = String a x.
Proof.
  intros W. rewrite trimEnd_cons, W. destruct (trimEnd r); eauto.
Qed.

Lemma trimStart_head (s : string) :
  trimStart s = "" \/ exists a x, trimStart s = String a x /\ is_ws a = false.
Proof.
  induction s as [|a r IH]; [now left|]. cbn [trimStart].
  destruct (is_ws a) eqn:W; [exact IH|]. right. eauto.
Qed.

Lemma trim_idempotent (s : string) : trim (trim s) = trim s.
Proof.
  unfold trim. destruct (trimStart_head s) as [->|(a & x & -> & W)]; [reflexivity|].
  destruct (trimEnd_keeps_head a x W) as [y Hy]. rewrite Hy.
  cbn [trimStart]. rewrite W, <- Hy. apply trimEnd_idempotent.
Qed.

(** X5.  The verdict on a glob does not depend on white space around it
    nor on whether its separators are written as slashes or backslashes. *)
Theorem glob_verdict_ignores_spelling (p : string) :
  hasUnsafeGlobSegments (trim p) = hasUnsafeGlobSegments p
  /\ hasUnsafeGlobSegments (backslashesToSlashes p) = hasUnsafeGlobSegments p.
Proof.
  unfold hasUnsafeGlobSegments. split.
  - assert (H : trim (backslashesToSlashes (trim p)) = trim (backslashesToSlashes p)).
    { unfold trim at 2. rewrite b2s_trimEnd, b2s_trimStart.
      fold (trim (backslashesToSlashes p)). apply trim_idempotent. }
    now rewrite H.
  - now rewrite b2s_idempotent.
Qed.

End VerdictFacts.

Lemma verdict_allows_exactly_witness : Stated.underBudget Stated.readmeCall.
Proof.
  exact (proj1 (proj1 (verdict_allows_exactly "/" Stated.readmeCall) eq_refl)).
Defined.

(** ** The policy extension over a whole session *)

Section PolicySessions.

Import JsStr Policy Session.

Variable pcwd : string.
Variable scope : ResolvedScope.
Variables maxTurns maxToolCalls : Z.

Lemma tool_call_step (policyState : Hook.ReplicantPolicyState) (tool : string)
    (input : JsValue) :
  let step := Hook.onToolCall pcwd scope maxTurns maxToolCalls policyState tool input in
  (letThrough step = true ->
   (Hook.toolCalls policyState < maxToolCalls)%Z
   /\ (Hook.turnIndex policyState < maxTurns - 1)%Z
   /\ Hook.toolCalls (Hook.state step) = (Hook.toolCalls policyState + 1)%Z)
  /\ (letThrough step = false ->
      Hook.toolCalls (Hook.state step) = Hook.toolCalls policyState)
  /\ Hook.turnIndex (Hook.state step) = Hook.turnIndex policyState.
Proof.
  cbv zeta. unfold Hook.onToolCall, letThrough.
  match goal with
  | |- context [getToolCallPolicyViolation pcwd ?o] =>
      destruct (getToolCallPolicyViolation pcwd o) as [text|] eqn:E
  end.
  - rewrite (violation_text_nonempty _ _ _ E).
    destruct (Hook.turnIndex policyState >=? maxTurns - 1)%Z; cbn;
      (split; [discriminate | split; reflexivity]).
  - cbn. split; [|split; [discriminate | reflexivity]].
    intros _. apply allowed_is_under_budget in E. destruct E as [Ht Hc].
    cbn in Ht, Hc. auto.
Qed.

Lemma policy_event_calls (policyState : Hook.ReplicantPolicyState) (event : PolicyEvent) :
  let step := onPolicyEvent pcwd scope maxTurns maxToolCalls policyState event in
  Hook.toolCalls (Hook.state step)
  = (Hook.toolCalls policyState
     + match event with
       | ToolCall _ _ => if letThrough step then 1 else 0
       | TurnStart _ => 0
       end)%Z
  /\ ((Hook.toolCalls policyState <= maxToolCalls)%Z ->
      (Hook.toolCalls (Hook.state step) <= maxToolCalls)%Z).
Proof.
  destruct event as [turn|tool input]; cbn [onPolicyEvent].
  - cbn. split; lia.
  - destruct (tool_call_step policyState tool input) as (Hyes & Hno & _).
    cbv zeta in *.
    destruct (letThrough (Hook.onToolCall pcwd scope maxTurns maxToolCalls policyState
                            tool input)).
    + destruct (Hyes eq_refl) as (Hc & _ & ->). split; lia.
    + rewrite (Hno eq_refl). split; lia.
Qed.

(** X6.  Over any sequence of turn starts and tool calls the policy record
    counts exactly the calls that were let through, and a count that starts
    within the tool-call budget never leaves it. *)
Theorem tool_call_budget_is_kept (policyState : Hook.ReplicantPolicyState)
    (events : list PolicyEvent) :
  Hook.toolCalls (runPolicy pcwd scope maxTurns maxToolCalls policyState events)
  = (Hook.toolCalls policyState
     + callsLetThrough pcwd scope maxTurns maxToolCalls policyState events)%Z
  /\ ((Hook.toolCalls policyState <= maxToolCalls)%Z ->
      (Hook.toolCalls (runPolicy pcwd scope maxTurns maxToolCalls policyState events)
       <= maxToolCalls)%Z).
Proof.
  revert policyState. induction events as [|event rest IH]; intros policyState.
  - cbn. split; lia.
  - cbn [runPolicy callsLetThrough].
    destruct (policy_event_calls policyState event) as [Hcount Hkeep]. cbv zeta in *.
    destruct (IH (Hook.state (onPolicyEvent pcwd scope maxTurns maxToolCalls
                                policyState event))) as [IHcount IHkeep].
    split.
    + rewrite IHcount, Hcount. lia.
    + intros H. apply IHkeep, Hkeep, H.
Qed.

Lemma policy_event_first_wins (policyState : Hook.ReplicantPolicyState)
    (event : PolicyEvent) :
  let after := Hook.state (onPolicyEvent pcwd scope maxTurns maxToolCalls
                             policyState event) in
  (forall v, Hook.violation policyState = Some v -> Hook.violation after = Some v)
  /\ (forall b, Hook.turnBudgetBlocked policyState = Some b ->
                Hook.turnBudgetBlocked after = Some b).
Proof.
  destruct event as [turn|tool input]; cbn [onPolicyEvent]; [cbn; auto|].
  unfold Hook.onToolCall.
  match goal with
  | |- context [getToolCallPolicyViolation pcwd ?o] =>
      destruct (getToolCallPolicyViolation pcwd o) as [text|]
  end; [|cbn; auto].
  destruct (nonEmpty text); [|cbn; auto].
  destruct (Hook.turnIndex policyState >=? maxTurns - 1)%Z; cbn;
    split; intros x Hx; rewrite Hx; reflexivity.
Qed.

(** X7.  [violation] and [turnBudgetBlocked] are written once: whatever the
    session does next, a reason that is recorded stays the recorded one. *)
Theorem recorded_reasons_stay (policyState : Hook.ReplicantPolicyState)
    (events : list PolicyEvent) :
  (forall v, Hook.violation policyState = Some v ->
     Hook.violation (runPolicy pcwd scope maxTurns maxToolCalls policyState events)
     = Some v)
  /\ (forall b, Hook.turnBudgetBlocked policyState = Some b ->
        Hook.turnBudgetBlocked
          (runPolicy pcwd scope maxTurns maxToolCalls policyState events) = Some b).
Proof.
  revert policyState. induction events as [|event rest IH]; intros policyState.
  - cbn. auto.
  - cbn [runPolicy].
    destruct (policy_event_first_wins policyState event) as [Hv Hb]. cbv zeta in *.
    destruct (IH (Hook.state (onPolicyEvent pcwd scope maxTurns maxToolCalls
                                policyState event))) as [IHv IHb].
    split; intros x Hx; [apply IHv, Hv, Hx | apply IHb, Hb, Hx].
Qed.

End PolicySessions.

Lemma tool_call_budget_is_kept_witness :
  (Hook.toolCalls
     (Session.runPolicy "/" Stated.repoScope 6 2 Supervisor.initialPolicyState
        [Session.TurnStart 0; Session.ToolCall "read" (JObj [("path", JStr "README.md")]);
         Session.ToolCall "ls" JUndefined; Session.ToolCall "ls" JUndefined;
         Session.TurnStart 1; Session.ToolCall "read" (JObj [("path", JStr "a.ts")])])
   <= 2)%Z.
Proof.
  refine (proj2 (tool_call_budget_is_kept "/" Stated.repoScope 6 2
                   Supervisor.initialPolicyState _) _).
  simpl. lia.
Defined.

Lemma recorded_reasons_stay_witness :
  Hook.violation
    (Session.runPolicy "/" Stated.repoScope 6 24
       {| Hook.turnIndex := 0; Hook.toolCalls := 1;
          Hook.violation := Some "first"; Hook.turnBudgetBlocked := None |}
       [Session.ToolCall "read" (JObj [("path", JStr "/etc/passwd")]);
        Session.TurnStart 5; Session.ToolCall "ls" JUndefined])
  = Some "first".
Proof.
  refine (proj1 (recorded_reasons_stay "/" Stated.repoScope 6 24 _ _) "first" _).
  reflexivity.
Defined.

(** ** What the supervisor keeps of a run *)

Section RunRecords.

Import JsStr Supervisor StatedRun StatedMore StatedRunMore.

Lemma isString_unique (v : JsValue) (a b : string) :
  isString v a = true -> a <> b -> isString v b = false.
Proof.
  destruct v; try discriminate. cbn. intros Ha Hne.
  apply String.eqb_eq in Ha. subst. now apply String.eqb_neq.
Qed.

Lemma absorbMessage_records (message : JsValue) (d : ReplicantSubprocessDetails) :
  events (absorbMessage message d) = events d
  /\ toolCalls (absorbMessage message d) = toolCalls d
  /\ toolErrors (absorbMessage message d) = toolErrors d
  /\ turns (absorbMessage message d) = turns d.
Proof. unfold absorbMessage. split_branches; repeat split. Qed.

Lemma lastN_all {A : Type} (k : nat) (l : list A) :
  (List.length l <= k)%nat -> lastN k l = l.
Proof. intros H. unfold lastN. now replace (List.length l - k)%nat with 0%nat by lia. Qed.

Lemma lastN_length {A : Type} (k : nat) (l : list A) :
  (List.length (lastN k l) <= k)%nat.
Proof. unfold lastN. rewrite length_skipn. lia. Qed.

Lemma lastN_length_full {A : Type} (k : nat) (l : list A) :
  (k <= List.length l)%nat -> List.length (lastN k l) = k.
Proof. intros H. unfold lastN. rewrite length_skipn. lia. Qed.

(** Pushing onto a window of the last [k] elements, then dropping the
    oldest if the window overflows, gives the window of the longer list. *)
Lemma lastN_push {A : Type} (k : nat) (l : list A) (e : A) :
  (let pushed := (lastN k l ++ [e])%list in
   if (k <? List.length pushed)%nat then tl pushed else pushed)
  = lastN k (l ++ [e]).
Proof.
  cbv zeta. destruct k as [|k].
  { unfold lastN. rewrite !Nat.sub_0_r, !skipn_all. reflexivity. }
  rewrite length_app. cbn [List.length].
  destruct (Nat.le_gt_cases (S k) (List.length l)) as [Hfull|Hshort].
  - rewrite (lastN_length_full (S k) l Hfull).
    replace (S k <? S k + 1)%nat with true by (symmetry; apply Nat.ltb_lt; lia).
    unfold lastN. rewrite length_app. cbn [List.length].
    replace (List.length l + 1 - S k)%nat with (S (List.length l - S k)) by lia.
    rewrite skipn_app.
    replace (S (List.length l - S k) - List.length l)%nat with 0%nat by lia.
    destruct (skipn (List.length l - S k) l) as [|x rest] eqn:E.
    + apply (f_equal (@List.length A)) in E. rewrite length_skipn in E. cbn in E. lia.
    + assert (Hs : skipn (S (List.length l - S k)) l = rest).
      { pose proof (skipn_skipn 1 (List.length l - S k) l) as H.
        rewrite E in H. exact (eq_sym H). }
      rewrite Hs. reflexivity.
  - rewrite (lastN_all (S k) l) by lia.
    replace (S k <? List.length l + 1)%nat with false
      by (symmetry; apply Nat.ltb_ge; lia).
    rewrite lastN_all; [reflexivity|]. rewrite length_app. cbn. lia.
Qed.

Lemma pushEvent_window (e : ToolEvent) (d : ReplicantSubprocessDetails)
    (seen : list ToolEvent) :
  events d = lastN MAX_EVENTS_TO_KEEP seen ->
  events (pushEvent e d) = lastN MAX_EVENTS_TO_KEEP (seen ++ [e]).
Proof.
  intros H. unfold pushEvent. cbn [events]. rewrite H.
  apply (lastN_push MAX_EVENTS_TO_KEEP seen e).
Qed.

Lemma react_records (st : RunState) (s : Stimulus) (seen : list ToolEvent) :
  events (current st) = lastN MAX_EVENTS_TO_KEEP seen ->
  events (current (react st s))
  = lastN MAX_EVENTS_TO_KEEP
      (seen ++ match toolEventOf s with Some e => [e] | None => [] end)
  /\ toolCalls (current (react st s))
     = (toolCalls (current st)
        + (if eventKindIs "tool_execution_start" s then 1 else 0))%Z
  /\ turns (current (react st s))
     = (turns (current st) + (if eventKindIs "turn_end" s then 1 else 0))%Z
  /\ toolErrors (current (react st s))
     = (toolErrors (current st) + (if failedToolEnd s then 1 else 0))%Z.
Proof.
  intros Hwindow. destruct s as [event now|]; cbn [react].
  2:{ cbn. rewrite app_nil_r. repeat split; try lia. exact Hwindow. }
  unfold onSessionEvent, toolEventOf, eventKindIs, failedToolEnd.
  set (kind := Js.get event "type").
  destruct (isString kind "turn_end") eqn:E1.
  { rewrite (isString_unique kind _ "tool_execution_start" E1) by discriminate.
    rewrite (isString_unique kind _ "tool_execution_end" E1) by discriminate.
    cbn. rewrite app_nil_r. repeat split; try lia. exact Hwindow. }
  destruct (isString kind "tool_execution_start") eqn:E2.
  { rewrite (isString_unique kind _ "tool_execution_end" E2) by discriminate.
    cbn [current andb]. split; [|cbn; repeat split; lia].
    now apply pushEvent_window. }
  destruct (isString kind "tool_execution_end") eqn:E3.
  { cbn [current andb]. split; [now apply pushEvent_window|].
    destruct (Js.truthy (Js.get event "isError")); cbn; repeat split; lia. }
  cbn [andb]. rewrite app_nil_r.
  destruct (isString kind "message_update").
  { cbn. repeat split; try lia. exact Hwindow. }
  destruct (isString kind "message_end" && _).
  - cbn [current].
    destruct (absorbMessage_records (Js.get event "message") (current st))
      as (He & Hc & Hr & Ht).
    cbn. rewrite He, Hc, Hr, Ht. repeat split; try lia. exact Hwindow.
  - repeat split; try lia. exact Hwindow.
Qed.

Lemma fold_react_records (l : list Stimulus) (st : RunState) (seen : list ToolEvent) :
  events (current st) = lastN MAX_EVENTS_TO_KEEP seen ->
  let after := current (fold_left react l st) in
  events after = lastN MAX_EVENTS_TO_KEEP (seen ++ toolEventsOf l)
  /\ toolCalls after
     = (toolCalls (current st) + countZ (eventKindIs "tool_execution_start") l)%Z
  /\ turns after = (turns (current st) + countZ (eventKindIs "turn_end") l)%Z
  /\ toolErrors after = (toolErrors (current st) + countZ failedToolEnd l)%Z.
Proof.
  revert st seen. induction l as [|s l IH]; intros st seen Hwindow; cbv zeta.
  - cbn. rewrite app_nil_r. repeat split; try lia. exact Hwindow.
  - cbn [fold_left toolEventsOf countZ].
    destruct (react_records st s seen Hwindow) as (He & Hc & Ht & Hr).
    destruct (IH (react st s) _ He) as (IHe & IHc & IHt & IHr). cbv zeta in *.
    rewrite IHe, IHc, IHt, IHr, Hc, Ht, Hr.
    split; [|repeat split; lia].
    f_equal. rewrite <- app_assoc. f_equal.
    destruct (toolEventOf s); reflexivity.
Qed.

Lemma settle_records (maxBytes maxLines : nat) (policy : Hook.ReplicantPolicyState)
    (promptError : option string) (st : RunState) :
  let d := detailsOf (settle maxBytes maxLines policy promptError st) in
  events d = events (current st)
  /\ toolCalls d = toolCalls (current st)
  /\ turns d = turns (current st)
  /\ toolErrors d = toolErrors (current st).
Proof.
  cbv zeta. unfold settle, failWith. split_branches; cbn; auto.
Qed.

(** X8.  Whatever the session delivers and however the run ends, the
    details record holds the tool events in order of arrival, the last 120
    of them when there were more; it counts every tool start, every turn
    end and every failed tool end. *)
Theorem run_records_are_exact (maxBytes maxLines : nat)
    (options : RunReplicantSubprocessOptions) (script : SessionScript) :
  factoryFailure script = None ->
  let d := detailsOf (runReplicantSubprocess maxBytes maxLines options script) in
  events d = lastN 120 (toolEventsOf (stimuli script))
  /\ (List.length (events d) <= 120)%nat
  /\ toolCalls d = countZ (eventKindIs "tool_execution_start") (stimuli script)
  /\ turns d = countZ (eventKindIs "turn_end") (stimuli script)
  /\ toolErrors d = countZ failedToolEnd (stimuli script).
Proof.
  intros Hfactory. cbv zeta.
  rewrite (run_unfolds maxBytes maxLines options script Hfactory).
  destruct (settle_records maxBytes maxLines (policyAtSettle script)
              (promptFailure script) (settledState options script))
    as (-> & -> & -> & ->).
  unfold settledState.
  set (booted := {| current := initialDetails options; text := "";
                    abortedBySignal := false |}).
  set (attached := if signalAbortedAtBoot script then onAbort booted else booted).
  assert (Hstart : events (current attached) = lastN MAX_EVENTS_TO_KEEP []
                   /\ toolCalls (current attached) = 0%Z
                   /\ turns (current attached) = 0%Z
                   /\ toolErrors (current attached) = 0%Z).
  { subst attached. destruct (signalAbortedAtBoot script); repeat split. }
  destruct Hstart as (He & Hc & Ht & Hr).
  destruct (fold_react_records (stimuli script) attached [] He) as (Fe & Fc & Ft & Fr).
  cbv zeta in *.
  assert (Hlog : forall st,
             events (current (consultLog (messages script) st)) = events (current st)
             /\ toolCalls (current (consultLog (messages script) st)) = toolCalls (current st)
             /\ turns (current (consultLog (messages script) st)) = turns (current st)
             /\ toolErrors (current (consultLog (messages script) st))
                = toolErrors (current st)).
  { intros st. unfold consultLog.
    destruct (getLastAssistantMessage (messages script)) as [m|]; [|auto].
    cbn [current].
    destruct (absorbMessage_records m (current st)) as (He' & Hc' & Hr' & Ht'). auto. }
  destruct (Hlog (fold_left react (stimuli script) attached)) as (-> & -> & -> & ->).
  rewrite Fe, Fc, Ft, Fr, Hc, Ht, Hr. cbn [app].
  split; [reflexivity|]. split; [apply lastN_length|]. repeat split; lia.
Qed.

End RunRecords.

Section FinalTextFacts.

Import JsStr Supervisor StatedRun StatedMore StatedRunMore.

Lemma last_assistant_in_log (log : list JsValue) (m : JsValue) :
  getLastAssistantMessage log = Some m -> In m log /\ isAssistant m = true.
Proof.
  induction log as [|x rest IH]; [discriminate|].
  cbn [getLastAssistantMessage].
  destruct (getLastAssistantMessage rest) as [found|].
  - intros H. inversion H; subst found. destruct (IH eq_refl) as [Hin Hrole].
    split; [now right | exact Hrole].
  - fold (isAssistant x). destruct (isAssistant x) eqn:E; [|discriminate].
    intros H. inversion H; subst x. split; [now left | exact E].
Qed.

(** X9.  [getLastAssistantMessage] returns the last message of the log
    whose role is [assistant], and nothing exactly when the log has none. *)
Theorem last_assistant_message_is_found (log : list JsValue) :
  match getLastAssistantMessage log with
  | Some m =>
      exists before after,
        log = (before ++ m :: after)%list
        /\ isAssistant m = true
        /\ Forall (fun x => isAssistant x = false) after
  | None => Forall (fun x => isAssistant x = false) log
  end.
Proof.
  induction log as [|m rest IH]; [constructor|].
  cbn [getLastAssistantMessage].
  destruct (getLastAssistantMessage rest) as [found|].
  - destruct IH as (before & after & Hlog & Hrole & Hafter).
    exists (m :: before), after. rewrite Hlog. auto.
  - fold (isAssistant m). destruct (isAssistant m) eqn:E.
    + exists [], rest. auto.
    + now constructor.
Qed.

Lemma comesFrom_more (seen more : list JsValue) (t : string) :
  comesFrom seen t -> comesFrom (seen ++ more) t.
Proof.
  intros [H|(m & Hin & Hrole & Htext)]; [now left|].
  right. exists m. split; [apply in_or_app; now left | auto].
Qed.

Lemma latestText_comesFrom (seen : list JsValue) (m : JsValue) (previous : string) :
  isAssistant m = true ->
  comesFrom seen previous ->
  comesFrom (seen ++ [m]) (latestText m previous).
Proof.
  intros Hrole Hprev. unfold latestText.
  destruct (nonEmpty (extractAssistantText m)).
  - right. exists m. split; [apply in_or_app; right; now left | auto].
  - now apply comesFrom_more.
Qed.

Lemma react_comesFrom (st : RunState) (s : Stimulus) (seen : list JsValue) :
  comesFrom seen (text st) ->
  comesFrom (seen ++ endedMessages [s]) (text (react st s)).
Proof.
  intros H. destruct s as [event now|]; cbn [react endedMessages].
  2:{ cbn. now rewrite app_nil_r. }
  unfold onSessionEvent.
  set (kind := Js.get event "type").
  destruct (isString kind "turn_end") eqn:E1.
  { rewrite (isString_unique kind _ "message_end" E1) by discriminate.
    cbn. now rewrite app_nil_r. }
  destruct (isString kind "tool_execution_start") eqn:E2.
  { rewrite (isString_unique kind _ "message_end" E2) by discriminate.
    cbn. now rewrite app_nil_r. }
  destruct (isString kind "tool_execution_end") eqn:E3.
  { rewrite (isString_unique kind _ "message_end" E3) by discriminate.
    cbn. now rewrite app_nil_r. }
  destruct (isString kind "message_update") eqn:E4.
  { rewrite (isString_unique kind _ "message_end" E4) by discriminate.
    cbn. now rewrite app_nil_r. }
  destruct (isString kind "message_end") eqn:E5; cbn [andb].
  - destruct (isString (Js.get (Js.get event "message") "role") "assistant") eqn:Er.
    + cbn [text]. now apply latestText_comesFrom.
    + now apply comesFrom_more.
  - now rewrite app_nil_r.
Qed.

Lemma endedMessages_app (a b : list Stimulus) :
  endedMessages (a ++ b) = (endedMessages a ++ endedMessages b)%list.
Proof.
  induction a as [|s a IH]; [reflexivity|].
  destruct s as [event now|]; cbn [app endedMessages]; [|exact IH].
  destruct (isString (Js.get event "type") "message_end"); [|exact IH].
  now rewrite IH.
Qed.

Lemma fold_react_comesFrom (l : list Stimulus) (st : RunState) (seen : list JsValue) :
  comesFrom seen (text st) ->
  comesFrom (seen ++ endedMessages l) (text (fold_left react l st)).
Proof.
  revert st seen. induction l as [|s l IH]; intros st seen H.
  - cbn. now rewrite app_nil_r.
  - cbn [fold_left]. change (s :: l) with ([s] ++ l)%list.
    rewrite endedMessages_app, app_assoc. apply IH. now apply react_comesFrom.
Qed.

(** X10.  The final text a run settles on is empty or is the text of an
    assistant message, one that a [message_end] event carried or one of the
    session's log; and when the last assistant message of the log has text,
    that text is the final text, whatever the events carried. *)
Theorem final_text_comes_from_assistant (options : RunReplicantSubprocessOptions)
    (script : SessionScript) :
  let t := text (settledState options script) in
  (t = ""
   \/ exists m,
        In m (endedMessages (stimuli script) ++ messages script)%list
        /\ isAssistant m = true
        /\ extractAssistantText m = t)
  /\ (forall m, getLastAssistantMessage (messages script) = Some m ->
        extractAssistantText m <> "" ->
        t = extractAssistantText m).
Proof.
  cbv zeta. unfold settledState.
  set (booted := {| current := initialDetails options; text := "";
                    abortedBySignal := false |}).
  set (attached := if signalAbortedAtBoot script then onAbort booted else booted).
  assert (Hstart : comesFrom [] (text attached)).
  { left. subst attached. now destruct (signalAbortedAtBoot script). }
  pose proof (fold_react_comesFrom (stimuli script) attached [] Hstart) as Hrun.
  cbn [app] in Hrun. unfold consultLog.
  destruct (getLastAssistantMessage (messages script)) as [lastAssistant|] eqn:Elast.
  - cbn [text]. split.
    + apply last_assistant_in_log in Elast as [Hin Hrole].
      unfold latestText. destruct (nonEmpty (extractAssistantText lastAssistant)).
      * right. exists lastAssistant. split; [apply in_or_app; now right | auto].
      * apply (comesFrom_more _ (messages script)) in Hrun. exact Hrun.
    + intros m Hm Htext. inversion Hm; subst. unfold latestText.
      destruct (extractAssistantText m); [contradiction | reflexivity].
  - split; [|discriminate].
    apply (comesFrom_more _ (messages script)) in Hrun. exact Hrun.
Qed.

End FinalTextFacts.

Lemma run_records_are_exact_witness :
  let d := StatedRun.detailsOf
             (Supervisor.runReplicantSubprocess 51200 2000 StatedRun.sampleOptions
                (StatedRun.readingScript "done")) in
  Supervisor.toolCalls d = 1%Z /\ List.length (Supervisor.events d) = 2%nat.
Proof.
  pose proof (run_records_are_exact 51200 2000 StatedRun.sampleOptions
                (StatedRun.readingScript "done") eq_refl) as H.
  cbv zeta in *. destruct H as (He & _ & Hc & _).
  split; [exact Hc | rewrite He; reflexivity].
Defined.

Lemma final_text_comes_from_assistant_witness :
  Supervisor.text (StatedRun.settledState StatedRun.sampleOptions
                     (StatedRun.answeringScript "final answer"))
  = "final answer".
Proof.
  refine (proj2 (final_text_comes_from_assistant StatedRun.sampleOptions
                   (StatedRun.answeringScript "final answer"))
            (StatedRun.assistantMessage "final answer" "end_turn") _ _).
  - reflexivity.
  - discriminate.
Defined.

(** ** Models and tools of a session *)

Section SessionFacts.

Import JsStr Session.

Lemma trimStart_shorter (s : string) : (String.length (trimStart s) <= String.length s)%nat.
Proof.
  induction s as [|c r IH]; [reflexivity|]. cbn [trimStart].
  destruct (is_ws c); cbn [String.length]; lia.
Qed.

Lemma trimEnd_shorter (s : string) : (String.length (trimEnd s) <= String.length s)%nat.
Proof.
  induction s as [|c r IH]; [reflexivity|]. rewrite trimEnd_cons.
  destruct (trimEnd r); [destruct (is_ws c)|]; cbn [String.length] in *; lia.
Qed.

Lemma trimmed_ends (s : string) :
  trim s = s ->
  trimEnd s = s
  /\ match s with
     | EmptyString => True
     | String c _ => is_ws c = false
     end.
Proof.
  unfold trim. destruct s as [|c r]; [auto|]. cbn [trimStart].
  destruct (is_ws c) eqn:W; [|auto].
  intros H. exfalso. apply (f_equal String.length) in H.
  pose proof (trimEnd_shorter (trimStart r)). pose proof (trimStart_shorter r).
  cbn [String.length] in H. lia.
Qed.

Lemma append_assoc (a b c : string) : (a ++ b) ++ c = a ++ b ++ c.
Proof. induction a as [|x a IH]; cbn; [reflexivity | now rewrite IH]. Qed.

Lemma trimEnd_before (x m : string) :
  m <> "" -> trimEnd m = m -> trimEnd (x ++ m) = x ++ m.
Proof.
  intros Hne Hm. induction x as [|c r IH]; [exact Hm|].
  change (String c r ++ m) with (String c (r ++ m)). rewrite trimEnd_cons, IH.
  destruct (r ++ m) eqn:E; [|reflexivity].
  destruct r; [now subst | discriminate].
Qed.

Lemma trim_between (p x m : string) :
  p <> "" -> m <> "" -> trim p = p -> trim m = m -> trim (p ++ x ++ m) = p ++ x ++ m.
Proof.
  intros Hp Hm Tp Tm.
  destruct (trimmed_ends p Tp) as [_ Hhead]. destruct (trimmed_ends m Tm) as [Hend _].
  destruct p as [|c r]; [contradiction|].
  unfold trim. change (String c r ++ x ++ m) with (String c (r ++ x ++ m)).
  cbn [trimStart]. rewrite Hhead.
  change (String c (r ++ x ++ m)) with (String c r ++ x ++ m).
  rewrite <- append_assoc. now apply trimEnd_before.
Qed.

Lemma indexOfChar_first (p x : string) (c : ascii) :
  includesChar p c = false -> indexOfChar (p ++ String c x) c = Some (String.length p).
Proof.
  induction p as [|a r IH]; cbn [includesChar append indexOfChar String.length].
  - now rewrite Ascii.eqb_refl.
  - intros H. apply orb_false_iff in H as [Ha Hr]. rewrite Ha, (IH Hr). reflexivity.
Qed.

Lemma sliceTo_prefix (p x : string) : sliceTo (String.length p) (p ++ x) = p.
Proof.
  induction p as [|a r IH]; cbn; [now destruct x | now rewrite IH].
Qed.

Lemma sliceFrom_suffix (p x : string) : sliceFrom (String.length p) (p ++ x) = x.
Proof. induction p as [|a r IH]; cbn; [now destruct x | exact IH]. Qed.

Lemma length_append (a b : string) :
  String.length (a ++ b) = (String.length a + String.length b)%nat.
Proof. induction a as [|c r IH]; cbn; [reflexivity | now rewrite IH]. Qed.

(** Parsing [p/m] when the whole is trimmed and [p] holds no slash: the
    two sides of the first slash are trimmed and must not be blank. *)
Lemma parseModel_at_first_slash (p m : string) :
  p <> "" -> m <> "" ->
  trim (p ++ "/" ++ m) = p ++ "/" ++ m ->
  includesChar p slash = false ->
  parseModel (Some (p ++ "/" ++ m))
  = if negb (nonEmpty (trim p)) || negb (nonEmpty (trim m))
    then Throws (invalidModelFormat (p ++ "/" ++ m))
    else Returns (Some {| provider := Some (trim p); modelId := trim m |}).
Proof.
  intros Hp Hm Hwhole Hfree. unfold parseModel.
  assert (Hfull : nonEmpty (p ++ "/" ++ m) = true) by (destruct p; [contradiction | reflexivity]).
  cbn [truthyText]. rewrite Hfull, Hwhole, Hfull. cbn [negb].
  change (p ++ "/" ++ m) with (p ++ String slash m).
  rewrite (indexOfChar_first p m slash Hfree).
  assert (Hlen : String.length (p ++ String slash m)
                 = (String.length p + S (String.length m))%nat)
    by (rewrite length_append; reflexivity).
  assert (Hposp : (0 < String.length p)%nat) by (destruct p; [contradiction | cbn; lia]).
  assert (Hposm : (0 < String.length m)%nat) by (destruct m; [contradiction | cbn; lia]).
  replace (String.length p =? 0)%nat with false by (symmetry; apply Nat.eqb_neq; lia).
  replace (String.length p =? String.length (p ++ String slash m) - 1)%nat with false
    by (symmetry; apply Nat.eqb_neq; lia).
  cbn [orb]. rewrite sliceTo_prefix.
  assert (Hcut : sliceFrom (String.length p + 1) (p ++ String slash m) = m).
  { replace (String.length p + 1)%nat with (String.length (p ++ String slash ""))
      by (rewrite length_append; reflexivity).
    replace (p ++ String slash m) with ((p ++ String slash "") ++ m)
      by (now rewrite append_assoc).
    apply sliceFrom_suffix. }
  now rewrite Hcut.
Qed.

(** X11.  A model written [provider/model], with both parts non-empty and
    without white space at their ends and no slash in the provider, is
    parsed back into exactly these two parts. *)
Theorem parseModel_reads_provider_and_model (p m : string) :
  p <> "" -> m <> "" -> trim p = p -> trim m = m ->
  includesChar p slash = false ->
  parseModel (Some (p ++ "/" ++ m))
  = Returns (Some {| provider := Some p; modelId := m |}).
Proof.
  intros Hp Hm Tp Tm Hfree.
  rewrite (parseModel_at_first_slash p m Hp Hm (trim_between p "/" m Hp Hm Tp Tm) Hfree).
  rewrite Tp, Tm.
  destruct p; [contradiction|]. destruct m; [contradiction|]. reflexivity.
Qed.

Lemma parseModel_reads_provider_and_model_witness :
  parseModel (Some "anthropic/claude-sonnet-4-5")
  = Returns (Some {| provider := Some "anthropic"; modelId := "claude-sonnet-4-5" |}).
Proof.
  apply (parseModel_reads_provider_and_model "anthropic" "claude-sonnet-4-5");
    try discriminate; reflexivity.
Defined.

Lemma includesChar_trimStart (s : string) (c : ascii) :
  includesChar s c = false -> includesChar (trimStart s) c = false.
Proof.
  induction s as [|a r IH]; [auto|]. cbn [trimStart].
  destruct (is_ws a); [|auto]. cbn [includesChar]. intros H.
  apply orb_false_iff in H as [_ Hr]. auto.
Qed.

Lemma includesChar_trimEnd (s : string) (c : ascii) :
  includesChar s c = false -> includesChar (trimEnd s) c = false.
Proof.
  induction s as [|a r IH]; [auto|]. rewrite trimEnd_cons. cbn [includesChar].
  intros H. apply orb_false_iff in H as [Ha Hr]. specialize (IH Hr).
  destruct (trimEnd r); [destruct (is_ws a)|]; cbn [includesChar] in *;
    try rewrite Ha; auto.
Qed.

Lemma includesChar_trim (s : string) (c : ascii) :
  includesChar s c = false -> includesChar (trim s) c = false.
Proof. intros H. now apply includesChar_trimEnd, includesChar_trimStart. Qed.

Lemma indexOfChar_none (s : string) (c : ascii) :
  indexOfChar s c = None -> includesChar s c = false.
Proof.
  induction s as [|a r IH]; [auto|]. cbn [indexOfChar includesChar].
  destruct (Ascii.eqb a c); [discriminate|].
  destruct (indexOfChar r c); [discriminate | auto].
Qed.

Lemma sliceTo_before_first (s : string) (c : ascii) (i : nat) :
  indexOfChar s c = Some i -> includesChar (sliceTo i s) c = false.
Proof.
  revert i. induction s as [|a r IH]; intros i; [discriminate|].
  cbn [indexOfChar]. destruct (Ascii.eqb a c) eqn:E.
  - intros H. inversion H; subst. reflexivity.
  - destruct (indexOfChar r c) as [j|]; [|discriminate].
    intros H. inversion H; subst. cbn [sliceTo includesChar]. rewrite E. now apply IH.
Qed.

Lemma nonEmpty_true (s : string) : nonEmpty s = true -> s <> "".
Proof. destruct s; [discriminate | discriminate]. Qed.

(** X12.  Whatever [parseModel] returns is well formed: the model id is
    never empty and has no white space at its ends; a provider, when there
    is one, is not empty, has no white space at its ends and no slash;
    without a provider the model id has no slash.  And when it throws, the
    error quotes the model as it was given. *)
Theorem parseModel_results_are_well_formed (model : option string) :
  match parseModel model with
  | Returns None => True
  | Returns (Some parsed) =>
      modelId parsed <> "" /\ trim (modelId parsed) = modelId parsed
      /\ match provider parsed with
         | Some p => p <> "" /\ trim p = p /\ includesChar p slash = false
         | None => includesChar (modelId parsed) slash = false
         end
  | Throws message => exists given, model = Some given
                                    /\ message = invalidModelFormat given
  end.
Proof.
  unfold parseModel. destruct model as [given|]; cbn [truthyText]; [|exact I].
  destruct (nonEmpty given); [|exact I].
  destruct (nonEmpty (trim given)) eqn:Hne; cbn [negb]; [|exact I].
  destruct (indexOfChar (trim given) slash) as [slashAt|] eqn:Hidx.
  - destruct ((slashAt =? 0)%nat || _); [now exists given|].
    destruct (nonEmpty (trim (sliceTo slashAt (trim given)))) eqn:Hp; cbn [negb orb];
      [|now exists given].
    destruct (nonEmpty (trim (sliceFrom (slashAt + 1) (trim given)))) eqn:Hm; cbn [negb];
      [|now exists given].
    cbn [modelId provider]. split; [now apply nonEmpty_true|].
    split; [apply trim_idempotent|]. split; [now apply nonEmpty_true|].
    split; [apply trim_idempotent|].
    now apply includesChar_trim, sliceTo_before_first.
  - cbn [modelId provider]. split; [now apply nonEmpty_true|].
    split; [apply trim_idempotent|]. now apply indexOfChar_none.
Qed.

End SessionFacts.

Section ToolFacts.

Import JsStr Session.

Lemma toolNamed_injective (a b : string) (t : ReadOnlyTool) :
  toolNamed a = Some t -> toolNamed b = Some t -> a = b.
Proof.
  unfold toolNamed.
  destruct (String.eqb a "read") eqn:A1; [apply String.eqb_eq in A1|];
  (destruct (String.eqb a "grep") eqn:A2; [apply String.eqb_eq in A2|]);
  (destruct (String.eqb a "find") eqn:A3; [apply String.eqb_eq in A3|]);
  (destruct (String.eqb a "ls") eqn:A4; [apply String.eqb_eq in A4|]);
  (destruct (String.eqb b "read") eqn:B1; [apply String.eqb_eq in B1|]);
  (destruct (String.eqb b "grep") eqn:B2; [apply String.eqb_eq in B2|]);
  (destruct (String.eqb b "find") eqn:B3; [apply String.eqb_eq in B3|]);
  (destruct (String.eqb b "ls") eqn:B4; [apply String.eqb_eq in B4|]);
  intros Ha Hb; try discriminate; try congruence; inversion Ha; subst; inversion Hb.
Qed.

Lemma seen_spec (n : string) (seen : list string) :
  existsb (String.eqb n) seen = true <-> In n seen.
Proof.
  rewrite existsb_exists. split.
  - intros (x & Hin & Heq). apply String.eqb_eq in Heq. now subst.
  - intros H. exists n. split; [exact H | apply String.eqb_refl].
Qed.

Lemma selectTools_supported (names seen : list string) (selected : list ReadOnlyTool) :
  NoDup selected ->
  (forall t, In t selected <-> exists n, In n seen /\ toolNamed n = Some t) ->
  Forall (fun n => toolNamed n <> None) names ->
  exists sel,
    selectTools names seen selected = Returns sel
    /\ NoDup sel
    /\ (forall t, In t sel <-> exists n, In n (seen ++ names) /\ toolNamed n = Some t).
Proof.
  revert seen selected.
  induction names as [|n rest IH]; intros seen selected Hnodup Hmembers Hall.
  - exists selected. rewrite app_nil_r. auto.
  - inversion Hall as [|? ? Hn Hrest]; subst. cbn [selectTools].
    destruct (existsb (String.eqb n) seen) eqn:Eseen.
    + apply seen_spec in Eseen.
      destruct (IH seen selected Hnodup Hmembers Hrest) as (sel & Hrun & Hnd & Hmem).
      exists sel. split; [exact Hrun|]. split; [exact Hnd|].
      intros t. rewrite Hmem. split; intros (x & Hin & Hx); exists x; split; auto.
      * apply in_app_or in Hin as [H|H]; apply in_or_app; [now left | right; now right].
      * apply in_app_or in Hin as [H|[H|H]]; apply in_or_app;
          [now left | subst; now left | now right].
    + destruct (toolNamed n) as [tool|] eqn:Etool; [|contradiction].
      assert (Hfresh : ~ In tool selected).
      { intros Hin. apply Hmembers in Hin as (x & Hx & Htool).
        rewrite (toolNamed_injective n x tool Etool Htool) in Eseen.
        apply seen_spec in Hx. congruence. }
      destruct (IH (n :: seen) (selected ++ [tool])%list) as (sel & Hrun & Hnd & Hmem).
      * apply NoDup_app; [exact Hnodup | repeat constructor; now intros [] |].
        intros x Hx [Hin|[]]. subst. contradiction.
      * intros t. rewrite in_app_iff, Hmembers. split.
        -- intros [(x & Hx & Ht)|[Ht|[]]]; [exists x; split; [now right | auto]|].
           subst. exists n. split; [now left | auto].
        -- intros (x & [Hx|Hx] & Ht); [subst; right; left; congruence|].
           left. now exists x.
      * exact Hrest.
      * exists sel. split; [exact Hrun|]. split; [exact Hnd|].
        intros t. rewrite Hmem. split; intros (x & Hin & Hx); exists x; split; auto.
        -- cbn [app] in Hin. destruct Hin as [H|H]; apply in_or_app.
           ++ right. now left.
           ++ apply in_app_or in H as [H|H]; [now left | right; now right].
        -- apply in_app_or in Hin as [H|[H|H]]; cbn [app].
           ++ right. apply in_or_app. now left.
           ++ now left.
           ++ right. apply in_or_app. now right.
Qed.

Lemma selectTools_throws (names seen : list string) (selected : list ReadOnlyTool)
    (message : string) :
  selectTools names seen selected = Throws message ->
  exists n, In n names /\ toolNamed n = None
            /\ message = "Replicant subagent requested unsupported tool: " ++ n.
Proof.
  revert seen selected. induction names as [|n rest IH]; intros seen selected;
    [discriminate|].
  cbn [selectTools]. destruct (existsb (String.eqb n) seen).
  - intros H. destruct (IH _ _ H) as (x & Hin & Hx). exists x. split; [now right | auto].
  - destruct (toolNamed n) eqn:E.
    + intros H. destruct (IH _ _ H) as (x & Hin & Hx). exists x. split; [now right | auto].
    + intros H. inversion H. exists n. split; [now left | auto].
Qed.

(** X13.  For tool names that are all among [read], [grep], [find] and
    [ls], [createReadOnlyToolsForSession] returns each requested tool once,
    however often it was named; and when it throws, the error names a
    requested tool that is none of the four. *)
Theorem session_tools_are_the_requested_ones (toolNames : list string) :
  (Forall (fun n => toolNamed n <> None) toolNames ->
   exists sel,
     createReadOnlyToolsForSession toolNames = Returns sel
     /\ NoDup sel
     /\ (forall t, In t sel <-> exists n, In n toolNames /\ toolNamed n = Some t))
  /\ (forall message,
        createReadOnlyToolsForSession toolNames = Throws message ->
        exists n, In n toolNames /\ toolNamed n = None
                  /\ message = "Replicant subagent requested unsupported tool: " ++ n).
Proof.
  split.
  - intros Hall. apply (selectTools_supported toolNames [] []); [constructor | | exact Hall].
    intros t. split; [intros [] | intros (n & [] & _)].
  - intros message. apply selectTools_throws.
Qed.

Lemma session_tools_are_the_requested_ones_witness :
  exists sel,
    createReadOnlyToolsForSession ["ls"; "read"; "ls"] = Returns sel /\ NoDup sel.
Proof.
  destruct (proj1 (session_tools_are_the_requested_ones ["ls"; "read"; "ls"]))
    as (sel & Hrun & Hnd & _).
  - repeat constructor; discriminate.
  - exists sel. split; assumption.
Defined.

Lemma recon_tools_supported :
  Forall (fun n => toolNamed n <> None) Index.RECON_TOOLS.
Proof. repeat constructor; discriminate. Qed.

(** X14.  The tools the entry point selects for an agent are never empty,
    are all reconnaissance tools, include every reconnaissance tool the
    agent lists, and are always accepted by
    [createReadOnlyToolsForSession], which returns at least one tool. *)
Theorem agent_tools_always_load (agent : Index.AgentDefinition) :
  Index.toolsForAgent agent <> []
  /\ (forall t, In t (Index.toolsForAgent agent) -> In t Index.RECON_TOOLS)
  /\ (forall t, In t Index.RECON_TOOLS -> In t (Index.tools agent) ->
                In t (Index.toolsForAgent agent))
  /\ exists sel,
       createReadOnlyToolsForSession (Index.toolsForAgent agent) = Returns sel
       /\ sel <> [].
Proof.
  unfold Index.toolsForAgent.
  set (wanted := fun tool => existsb (String.eqb tool) (Index.tools agent)).
  assert (Hsub : forall t, In t (filter wanted Index.RECON_TOOLS) -> In t Index.RECON_TOOLS)
    by (intros t H; now apply filter_In in H).
  set (chosen := if (0 <? List.length (filter wanted Index.RECON_TOOLS))%nat
                 then filter wanted Index.RECON_TOOLS
                 else ["read"; "grep"; "find"; "ls"]).
  assert (Hne : chosen <> []).
  { subst chosen. destruct (filter wanted Index.RECON_TOOLS); cbn; discriminate. }
  assert (Hin : forall t, In t chosen -> In t Index.RECON_TOOLS).
  { subst chosen. destruct (0 <? _)%nat; auto. }
  split; [exact Hne|]. split; [exact Hin|]. split.
  - intros t Hrecon Hagent. subst chosen.
    assert (Hf : In t (filter wanted Index.RECON_TOOLS)).
    { apply filter_In. split; [exact Hrecon|]. subst wanted. now apply seen_spec. }
    destruct (filter wanted Index.RECON_TOOLS); [contradiction | exact Hf].
  - assert (Hall : Forall (fun n => toolNamed n <> None) chosen).
    { apply Forall_forall. intros t Ht.
      exact (proj1 (Forall_forall _ _) recon_tools_supported t (Hin t Ht)). }
    destruct (selectTools_supported chosen [] [] (NoDup_nil _)) as (sel & Hrun & _ & Hmem).
    + intros t. split; [intros [] | intros (n & [] & _)].
    + exact Hall.
    + exists sel. split; [exact Hrun|].
      destruct chosen as [|first rest]; [contradiction|].
      inversion Hall as [|? ? Hfirst _]; subst.
      destruct (toolNamed first) as [tool|] eqn:E; [|contradiction].
      assert (Hsel : In tool sel) by (apply Hmem; exists first; split; [now left | auto]).
      intros ->. contradiction.
Qed.

End ToolFacts.

(** ** The commands of a resolution *)

Section CommandFacts.

Import JsStr Offworld StatedResolver StatedMore.

Variable parseShow : string -> option MapShowJson.t.
Variable parseSearch : string -> option (list MapSearchEntry.t).
Variable numberToString : Q -> string.
Variable extractRepoHintFromTask : string -> option string.

Ltac tidy_log :=
  repeat first [rewrite <- app_assoc | rewrite app_nil_r | progress (cbn [app])].

Lemma ensure_logged (m : HostState) :
  Commands.ensureOwInstalled m = ([["--version"]], ensureOwInstalled m).
Proof.
  unfold Commands.ensureOwInstalled, ensureOwInstalled, Commands.runOw, runOw.
  cbn [commandHead allowlist existsb String.eqb Ascii.eqb Bool.eqb orb negb andThen
       Commands.thenLogged Commands.quiet].
  destruct (negb (exitStatus (exec m ["--version"]) =? 0)%Z); reflexivity.
Qed.

Lemma mapShow_logged (m : HostState) (repo : string) :
  Commands.mapShow parseShow m repo
  = ([["map"; "show"; repo; "--json"]], mapShow parseShow m repo).
Proof.
  unfold Commands.mapShow, mapShow, Commands.runOw, runOw.
  cbn [commandHead allowlist existsb String.eqb Ascii.eqb Bool.eqb orb negb andThen
       Commands.thenLogged Commands.quiet firstn join String.concat String.append].
  destruct (negb (exitStatus (exec m ["map"; "show"; repo; "--json"]) =? 0)%Z); reflexivity.
Qed.

Lemma mapSearch_logged (m : HostState) (term : string) :
  Commands.mapSearch parseSearch m term
  = ([["map"; "search"; term; "--json"]], mapSearch parseSearch m term).
Proof.
  unfold Commands.mapSearch, mapSearch, Commands.runOw, runOw.
  cbn [commandHead allowlist existsb String.eqb Ascii.eqb Bool.eqb orb negb andThen
       Commands.thenLogged Commands.quiet firstn join String.concat String.append].
  destruct (negb (exitStatus (exec m ["map"; "search"; term; "--json"]) =? 0)%Z);
    reflexivity.
Qed.

Lemma pullRepo_logged (m : HostState) (repo : string) :
  Commands.pullRepo m repo = ([["pull"; repo; "--clone-only"]], pullRepo m repo).
Proof.
  unfold Commands.pullRepo, pullRepo, Commands.runOw, runOw, buildPullArgs.
  cbn [commandHead allowlist existsb String.eqb Ascii.eqb Bool.eqb orb negb andThen
       Commands.thenLogged Commands.quiet].
  destruct (negb (exitStatus (exec m ["pull"; repo; "--clone-only"]) =? 0)%Z); reflexivity.
Qed.

Lemma searchAndSelect_logged (ctx : Host) (task : string) :
  Commands.searchAndSelect parseSearch numberToString ctx task
  = ([["map"; "search"; extractSearchTerm task; "--json"]],
     searchAndSelect parseSearch numberToString ctx task).
Proof.
  unfold Commands.searchAndSelect, searchAndSelect. rewrite mapSearch_logged.
  destruct (mapSearch parseSearch (beforePull ctx) (extractSearchTerm task)) as [matches|e];
    [|reflexivity].
  cbn [Commands.thenLogged andThen].
  destruct (List.length matches =? 0)%nat; [reflexivity|].
  unfold Commands.quiet. cbn [Commands.thenLogged].
  destruct (selectCandidate numberToString ctx matches); reflexivity.
Qed.

Lemma pullMissing_logged (ctx : Host) (repo : string) :
  exists log,
    Commands.pullMissing parseShow ctx repo = (log, pullMissing parseShow ctx repo)
    /\ (log = []
        \/ (hasUI ctx = true ->
            confirm ctx "Pull repository with Offworld?"
              ("Replicant needs a local clone for " ++ repo ++ ". Run ow pull "
               ++ repo ++ " --clone-only now?") = true)
           /\ (log = [["pull"; repo; "--clone-only"]]
               \/ log = [["pull"; repo; "--clone-only"]; ["map"; "show"; repo; "--json"]]))
    /\ (forall v, pullMissing parseShow ctx repo = Fulfilled v ->
          log = [["pull"; repo; "--clone-only"]; ["map"; "show"; repo; "--json"]]).
Proof.
  unfold Commands.pullMissing, pullMissing.
  destruct (hasUI ctx && negb (confirm ctx _ _)) eqn:Hask.
  - exists []. split; [reflexivity|]. split; [now left | discriminate].
  - assert (Hconsent : hasUI ctx = true ->
              confirm ctx "Pull repository with Offworld?"
                ("Replicant needs a local clone for " ++ repo ++ ". Run ow pull "
                 ++ repo ++ " --clone-only now?") = true).
    { intros Hui. rewrite Hui in Hask. cbn [andb] in Hask.
      now apply negb_false_iff in Hask. }
    rewrite pullRepo_logged.
    destruct (pullRepo (beforePull ctx) repo) as [[]|e].
    + cbn [Commands.thenLogged andThen]. rewrite mapShow_logged.
      destruct (mapShow parseShow (afterPull ctx) repo) as [show|e].
      * eexists. split; [reflexivity|]. split; [right; split; [exact Hconsent | now right]|].
        reflexivity.
      * eexists. split; [reflexivity|]. split; [right; split; [exact Hconsent | now right]|].
        discriminate.
    + eexists. split; [reflexivity|]. split; [right; split; [exact Hconsent | now left]|].
      discriminate.
Qed.

Lemma truthy_not_falsy (o : option string) (h : string) :
  truthyText o = Some h -> falsy o = false /\ o = Some h.
Proof.
  unfold falsy. intros H. rewrite H. split; [reflexivity|].
  unfold truthyText in H. destruct o as [x|]; [|discriminate].
  destruct (nonEmpty x); [exact H | discriminate].
Qed.


(** The commands of a resolution, in order: the version check, then at
    most one search, at most one lookup, and at most one pull with its
    second lookup. *)
Lemma resolve_logged (ctx : Host) (options : ResolveRepoOptions) :
  exists searched looked fetched,
    Commands.resolveRepoWithOffworld parseShow parseSearch numberToString
      extractRepoHintFromTask ctx options
    = ((["--version"] :: searched ++ looked ++ fetched)%list,
       resolveRepoWithOffworld parseShow parseSearch numberToString
         extractRepoHintFromTask ctx options)
    /\ (if falsy (hintOf extractRepoHintFromTask options)
        then searched = []
             \/ searched = [["map"; "search"; extractSearchTerm (task options); "--json"]]
        else searched = [])
    /\ (looked = []
        \/ exists selected,
             looked = [["map"; "show"; selected; "--json"]]
             /\ forall h, truthyText (hintOf extractRepoHintFromTask options) = Some h ->
                          selected = h)
    /\ (fetched = []
        \/ exists slug,
             (hasUI ctx = true ->
              confirm ctx "Pull repository with Offworld?"
                ("Replicant needs a local clone for " ++ slug ++ ". Run ow pull "
                 ++ slug ++ " --clone-only now?") = true)
             /\ (fetched = [["pull"; slug; "--clone-only"]]
                 \/ fetched = [["pull"; slug; "--clone-only"];
                               ["map"; "show"; slug; "--json"]]))
    /\ (forall r,
          resolveRepoWithOffworld parseShow parseSearch numberToString
            extractRepoHintFromTask ctx options = Fulfilled r ->
          looked <> []
          /\ (falsy (hintOf extractRepoHintFromTask options) = false ->
              ResolvedRepo.searchCandidates r = [])
          /\ (falsy (hintOf extractRepoHintFromTask options) = true ->
              searched = [["map"; "search"; extractSearchTerm (task options); "--json"]])
          /\ match ResolvedRepo.resolvedFrom r with
             | ResolvedRepo.pulled =>
                 fetched = [["pull"; ResolvedRepo.repo r; "--clone-only"];
                            ["map"; "show"; ResolvedRepo.repo r; "--json"]]
             | ResolvedRepo.existing => fetched = []
             end).
Proof.
  unfold Commands.resolveRepoWithOffworld, resolveRepoWithOffworld.
  rewrite ensure_logged.
  change (match repoHint options with
          | Some h => Some h
          | None => extractRepoHintFromTask (task options)
          end) with (hintOf extractRepoHintFromTask options).
  set (hinted := hintOf extractRepoHintFromTask options).
  destruct (ensureOwInstalled (beforePull ctx)) as [[]|e].
  2: { exists [], [], []. cbn [Commands.thenLogged andThen app].
       split; [reflexivity|]. split; [destruct (falsy hinted); [now left | reflexivity]|].
       split; [now left|]. split; [now left | discriminate]. }
  cbn [Commands.thenLogged andThen].
  set (chosenLogged := if falsy hinted then Commands.searchAndSelect _ _ _ _ else _).
  set (chosen := if falsy hinted then searchAndSelect _ _ _ _ else _).
  assert (Hchosen : exists searched,
            chosenLogged = (searched, chosen)
            /\ (if falsy hinted
                then searched = [["map"; "search"; extractSearchTerm (task options); "--json"]]
                else searched = []
                     /\ chosen = Fulfilled (match hinted with Some h => h | None => "" end, []))).
  { subst chosenLogged chosen. destruct (falsy hinted).
    - rewrite searchAndSelect_logged. eexists. split; reflexivity.
    - exists []. split; [reflexivity|]. split; reflexivity. }
  destruct Hchosen as (searched & -> & Hsearched). clearbody chosen.
  assert (Hfirst : if falsy hinted
                   then searched = []
                        \/ searched = [["map"; "search"; extractSearchTerm (task options);
                                        "--json"]]
                   else searched = []).
  { destruct (falsy hinted); [now right | tauto]. }
  destruct chosen as [[selectedRepo searchCandidates]|e].
  2: { exists searched, [], []. cbn [Commands.thenLogged andThen app].
       tidy_log. split; [reflexivity|]. split; [exact Hfirst|].
       split; [now left|]. split; [now left | discriminate]. }
  assert (Hhint : forall h, truthyText hinted = Some h ->
                            selectedRepo = h /\ searchCandidates = []).
  { intros h Hh. destruct (truthy_not_falsy hinted h Hh) as [Hf Heq].
    rewrite Hf in Hsearched. destruct Hsearched as [_ Hc]. rewrite Heq in Hc.
    inversion Hc. auto. }
  assert (Hcands : falsy hinted = false -> searchCandidates = []).
  { intros Hf. rewrite Hf in Hsearched. destruct Hsearched as [_ Hc]. now inversion Hc. }
  assert (Hran : falsy hinted = true ->
                 searched = [["map"; "search"; extractSearchTerm (task options); "--json"]]).
  { intros Hf. now rewrite Hf in Hsearched. }
  clear Hsearched.
  cbn [Commands.thenLogged andThen].
  destruct (negb (nonEmpty selectedRepo)).
  { exists searched, [], []. unfold Commands.quiet. cbn [app]. tidy_log.
    split; [reflexivity|]. split; [exact Hfirst|].
    split; [now left|]. split; [now left | discriminate]. }
  rewrite mapShow_logged.
  assert (Hlooked : [["map"; "show"; selectedRepo; "--json"]] = []
                    \/ exists selected,
                         [["map"; "show"; selectedRepo; "--json"]]
                         = [["map"; "show"; selected; "--json"]]
                         /\ forall h, truthyText hinted = Some h -> selected = h).
  { right. exists selectedRepo. split; [reflexivity|]. intros h Hh. now apply Hhint. }
  destruct (mapShow parseShow (beforePull ctx) selectedRepo) as [show|e].
  2: { exists searched, [["map"; "show"; selectedRepo; "--json"]], [].
       cbn [Commands.thenLogged andThen app]. tidy_log.
       split; [reflexivity|]. split; [exact Hfirst|].
       split; [exact Hlooked|]. split; [now left | discriminate]. }
  cbn [Commands.thenLogged andThen].
  destruct (negb (MapShowJson.found show)).
  { exists searched, [["map"; "show"; selectedRepo; "--json"]], [].
    unfold Commands.quiet. cbn [app]. tidy_log.
    split; [reflexivity|]. split; [exact Hfirst|].
    split; [exact Hlooked|]. split; [now left | discriminate]. }
  set (effectiveRepo := toRepoSlug _).
  destruct (negb match truthyText _ with Some _ => _ | None => _ end).
  - destruct (pullMissing_logged ctx effectiveRepo) as (pulls & -> & Hpulls & Hdone).
    assert (Hfetched : pulls = []
              \/ exists slug,
                   (hasUI ctx = true ->
                    confirm ctx "Pull repository with Offworld?"
                      ("Replicant needs a local clone for " ++ slug ++ ". Run ow pull "
                       ++ slug ++ " --clone-only now?") = true)
                   /\ (pulls = [["pull"; slug; "--clone-only"]]
                       \/ pulls = [["pull"; slug; "--clone-only"];
                                   ["map"; "show"; slug; "--json"]])).
    { destruct Hpulls as [H|H]; [now left | right; now exists effectiveRepo]. }
    exists searched, [["map"; "show"; selectedRepo; "--json"]], pulls.
    destruct (pullMissing parseShow ctx effectiveRepo) as [[machine show']|e].
    2: { cbn [Commands.thenLogged andThen Commands.quiet app]. tidy_log.
         split; [reflexivity|]. split; [exact Hfirst|].
         split; [exact Hlooked|]. split; [exact Hfetched | discriminate]. }
    specialize (Hdone _ eq_refl).
    unfold Commands.quiet. cbn [Commands.thenLogged andThen app].
    destruct (negb ((0 <? _)%nat && _)).
    + tidy_log.
      split; [reflexivity|]. split; [exact Hfirst|].
      split; [exact Hlooked|]. split; [exact Hfetched | discriminate].
    + tidy_log.
      split; [reflexivity|]. split; [exact Hfirst|].
      split; [exact Hlooked|]. split; [exact Hfetched|].
      intros r Hr. inversion Hr; subst r. cbn.
      split; [discriminate|]. split; [exact Hcands|]. split; [exact Hran | exact Hdone].
  - exists searched, [["map"; "show"; selectedRepo; "--json"]], [].
    unfold Commands.quiet. cbn [Commands.thenLogged andThen app].
    destruct (negb ((0 <? _)%nat && _)).
    + tidy_log.
      split; [reflexivity|]. split; [exact Hfirst|].
      split; [exact Hlooked|]. split; [now left | discriminate].
    + tidy_log.
      split; [reflexivity|]. split; [exact Hfirst|].
      split; [exact Hlooked|]. split; [now left|].
      intros r Hr. inversion Hr; subst r. cbn.
      split; [discriminate|]. split; [exact Hcands|]. split; [exact Hran | reflexivity].
Qed.

(** X15.  Resolving a repository runs [ow] at most five times, always
    starting with the version check, and every command it runs is the
    version check, a map lookup, a map search or a clone-only pull; the
    outcome is that of [resolveRepoWithOffworld]. *)
Theorem resolver_runs_only_its_four_commands (ctx : Host) (options : ResolveRepoOptions) :
  let run := Commands.resolveRepoWithOffworld parseShow parseSearch numberToString
               extractRepoHintFromTask ctx options in
  snd run = resolveRepoWithOffworld parseShow parseSearch numberToString
              extractRepoHintFromTask ctx options
  /\ (exists rest, fst run = ["--version"] :: rest)
  /\ Forall permittedShape (fst run)
  /\ (List.length (fst run) <= 5)%nat.
Proof.
  destruct (resolve_logged ctx options)
    as (searched & looked & fetched & Hrun & Hs & Hl & Hf & _).
  cbv zeta. rewrite Hrun. cbn [fst snd].
  split; [reflexivity|]. split; [now eexists|].
  assert (Hsearch : forall term, permittedShape ["map"; "search"; term; "--json"])
    by (intros term; right; right; left; now exists term).
  assert (Hshow : forall repo, permittedShape ["map"; "show"; repo; "--json"])
    by (intros repo; right; left; now exists repo).
  assert (Hpull : forall repo, permittedShape ["pull"; repo; "--clone-only"])
    by (intros repo; right; right; right; now exists repo).
  assert (Hsearched : Forall permittedShape searched /\ (List.length searched <= 1)%nat).
  { destruct (falsy _); [destruct Hs as [->| ->] | subst searched];
      (split; [auto | cbn; lia]). }
  assert (Hlooked : Forall permittedShape looked /\ (List.length looked <= 1)%nat).
  { destruct Hl as [->|(selected & -> & _)]; (split; [auto | cbn; lia]). }
  assert (Hfetched : Forall permittedShape fetched /\ (List.length fetched <= 2)%nat).
  { destruct Hf as [->|(slug & _ & [->| ->])]; (split; [auto | cbn; lia]). }
  split.
  - constructor; [now left|]. apply Forall_app. split; [tauto|].
    apply Forall_app. tauto.
  - cbn [List.length]. rewrite !length_app. lia.
Qed.

(** X16.  A resolution pulls at most once, and the one pull it may run is
    [pull <slug> --clone-only] for a repository the user agreed to: when
    the host has a UI, the confirmation the resolver asks for that very
    repository was answered with yes, so a user who declines it gets no
    pull.  A result says [pulled] exactly when the one pull ran, for the
    repository the result names; a result that says [existing] comes from a
    resolution that pulled nothing. *)
Theorem pull_runs_once_with_consent (ctx : Host) (options : ResolveRepoOptions) :
  let run := Commands.resolveRepoWithOffworld parseShow parseSearch numberToString
               extractRepoHintFromTask ctx options in
  (filter isPull (fst run) = []
   \/ exists slug,
        filter isPull (fst run) = [buildPullArgs slug]
        /\ (hasUI ctx = true ->
            confirm ctx "Pull repository with Offworld?"
              ("Replicant needs a local clone for " ++ slug ++ ". Run ow pull "
               ++ slug ++ " --clone-only now?") = true))
  /\ (forall r,
        snd run = Fulfilled r ->
        filter isPull (fst run)
        = match ResolvedRepo.resolvedFrom r with
          | ResolvedRepo.pulled => [buildPullArgs (ResolvedRepo.repo r)]
          | ResolvedRepo.existing => []
          end).
Proof.
  destruct (resolve_logged ctx options)
    as (searched & looked & fetched & Hrun & Hs & Hl & Hf & Hr).
  cbv zeta. rewrite Hrun. cbn [fst snd].
  assert (Hsearched : filter isPull searched = []).
  { destruct (falsy _); [destruct Hs as [->| ->] | subst searched]; reflexivity. }
  assert (Hlooked : filter isPull looked = []).
  { destruct Hl as [->|(selected & -> & _)]; reflexivity. }
  assert (Hlog : filter isPull (["--version"] :: searched ++ looked ++ fetched)
                 = filter isPull fetched).
  { change (["--version"] :: searched ++ looked ++ fetched)%list
      with ([["--version"]] ++ searched ++ looked ++ fetched)%list.
    rewrite !filter_app, Hsearched, Hlooked. reflexivity. }
  rewrite Hlog. split.
  - destruct Hf as [->|(slug & Hyes & [->| ->])]; [now left | |];
      (right; exists slug; split; [reflexivity | exact Hyes]).
  - intros r Hres. destruct (Hr r Hres) as (_ & _ & _ & Hfetched).
    destruct (ResolvedRepo.resolvedFrom r); rewrite Hfetched; reflexivity.
Qed.

(** X17.  With a repository hint, given or read off the task, the
    resolver makes no map search: a successful resolution looks the hint up
    as its second command and reports no search candidates.  Without one, a
    successful resolution has searched the map for the term of the task as
    its second command. *)
Theorem hint_decides_whether_the_map_is_searched (ctx : Host)
    (options : ResolveRepoOptions) :
  let run := Commands.resolveRepoWithOffworld parseShow parseSearch numberToString
               extractRepoHintFromTask ctx options in
  (forall h,
     truthyText (hintOf extractRepoHintFromTask options) = Some h ->
     filter (isCommand "map" "search") (fst run) = []
     /\ forall r, snd run = Fulfilled r ->
                  ResolvedRepo.searchCandidates r = []
                  /\ exists rest,
                       fst run = ["--version"] :: ["map"; "show"; h; "--json"] :: rest)
  /\ (falsy (hintOf extractRepoHintFromTask options) = true ->
      forall r, snd run = Fulfilled r ->
                exists rest,
                  fst run = ["--version"]
                            :: ["map"; "search"; extractSearchTerm (task options); "--json"]
                            :: rest).
Proof.
  destruct (resolve_logged ctx options)
    as (searched & looked & fetched & Hrun & Hs & Hl & Hf & Hr).
  cbv zeta. rewrite Hrun. cbn [fst snd]. split.
  - intros h Hh. destruct (truthy_not_falsy _ _ Hh) as [Hfalsy _].
    rewrite Hfalsy in Hs. subst searched. cbn [app]. split.
    + change (["--version"] :: looked ++ fetched)%list
        with ([["--version"]] ++ looked ++ fetched)%list.
      rewrite !filter_app.
      assert (Hlooked : filter (isCommand "map" "search") looked = [])
        by (destruct Hl as [->|(selected & -> & _)]; reflexivity).
      assert (Hfetched : filter (isCommand "map" "search") fetched = [])
        by (destruct Hf as [->|(slug & _ & [->| ->])]; reflexivity).
      rewrite Hlooked, Hfetched. reflexivity.
    + intros r Hres. destruct (Hr r Hres) as (Hsome & Hcands & _ & _).
      split; [now apply Hcands|].
      destruct Hl as [->|(selected & -> & Hsel)]; [contradiction|].
      rewrite (Hsel h Hh). cbn [app]. now eexists.
  - intros Hfalsy r Hres. destruct (Hr r Hres) as (_ & _ & Hran & _).
    rewrite (Hran Hfalsy). cbn [app]. now eexists.
Qed.

End CommandFacts.

Lemma pull_runs_once_with_consent_witness :
  snd (Commands.resolveRepoWithOffworld StatedResolver.sampleParseShow
         StatedResolver.sampleParseSearch StatedResolver.plainNumber
         StatedResolver.noHint StatedResolverMore.pullingHost
         StatedResolver.hintedOptions)
  = Offworld.Fulfilled StatedResolverMore.pulledRepo
  /\ filter StatedMore.isPull
       (fst (Commands.resolveRepoWithOffworld StatedResolver.sampleParseShow
               StatedResolver.sampleParseSearch StatedResolver.plainNumber
               StatedResolver.noHint StatedResolverMore.pullingHost
               StatedResolver.hintedOptions))
     = [["pull"; "default-anton/pi-librarian"; "--clone-only"]].
Proof.
  split; [vm_compute; reflexivity|].
  refine (proj2 (pull_runs_once_with_consent StatedResolver.sampleParseShow
            StatedResolver.sampleParseSearch StatedResolver.plainNumber
            StatedResolver.noHint StatedResolverMore.pullingHost
            StatedResolver.hintedOptions) StatedResolverMore.pulledRepo _).
  vm_compute. reflexivity.
Defined.

Lemma hint_decides_whether_the_map_is_searched_witness :
  filter (StatedMore.isCommand "map" "search")
    (fst (Commands.resolveRepoWithOffworld StatedResolver.sampleParseShow
            StatedResolver.sampleParseSearch StatedResolver.plainNumber
            StatedResolver.noHint StatedResolver.sampleHost
            StatedResolver.hintedOptions)) = [].
Proof.
  refine (proj1 (proj1 (hint_decides_whether_the_map_is_searched
            StatedResolver.sampleParseShow StatedResolver.sampleParseSearch
            StatedResolver.plainNumber StatedResolver.noHint StatedResolver.sampleHost
            StatedResolver.hintedOptions) "default-anton/pi-librarian" _)).
  reflexivity.
Defined.

(** ** What a resolution returns *)

Section ResolutionFacts.

Import JsStr Offworld StatedResolver.

Variable parseShow : string -> option MapShowJson.t.
Variable parseSearch : string -> option (list MapSearchEntry.t).
Variable numberToString : Q -> string.
Variable extractRepoHintFromTask : string -> option string.




Lemma firstn_min {A : Type} (n : nat) (l : list A) :
  firstn (Nat.min n (List.length l)) l = firstn n l.
Proof.
  destruct (Nat.le_ge_cases n (List.length l)) as [H|H].
  - now rewrite Nat.min_l.
  - rewrite Nat.min_r by exact H. now rewrite firstn_all, firstn_all2.
Qed.

(** X19.  A candidate that [selectCandidate] returns is one of the first
    six it was given.  It is the only candidate, or the host has a UI and
    the user's pick is the candidate's label or, with the score suffix
    removed, its full name. *)
Theorem selection_is_among_the_six_shown (ctx : Host)
    (candidates : list MapSearchEntry.t) (c : MapSearchEntry.t) :
  selectCandidate numberToString ctx candidates = Fulfilled c ->
  In c (firstn 6 candidates)
  /\ (candidates = [c]
      \/ (hasUI ctx = true
          /\ exists picked,
               select ctx "Choose repository for replicant"
                 (map (label numberToString) (firstn 6 candidates)) = Some picked
               /\ picked <> ""
               /\ (label numberToString c = picked
                   \/ MapSearchEntry.fullName c = stripScoreSuffix picked))).
Proof.
  assert (Hgeneral :
    (if hasUI ctx then
       let options := map (fun c => (label numberToString c, c)) (firstn 6 candidates) in
       match truthyText (select ctx "Choose repository for replicant" (map fst options)) with
       | None => raise "Repository selection canceled." repo_unresolved
                   (Some "Re-run with an explicit `repo` value.")
       | Some picked =>
           match find (fun option => String.eqb (fst option) picked) options with
           | Some pickedOption => Fulfilled (snd pickedOption)
           | None =>
               match find (fun c => String.eqb (MapSearchEntry.fullName c)
                                               (stripScoreSuffix picked))
                          (firstn 6 candidates) with
               | Some matched => Fulfilled matched
               | None =>
                   raise "Repository selection did not match available candidates."
                     repo_ambiguous (Some "Re-run with an explicit `repo` value.")
               end
           end
       end
     else
       raise "Multiple Offworld map matches found; repository is ambiguous in non-interactive mode."
         repo_ambiguous
         (Some ("Re-run with an explicit `repo` value (e.g. `repo: " ++ quoted "owner/repo"
                ++ "`)."))) = Fulfilled c ->
    In c (firstn 6 candidates)
    /\ hasUI ctx = true
    /\ exists picked,
         select ctx "Choose repository for replicant"
           (map (label numberToString) (firstn 6 candidates)) = Some picked
         /\ picked <> ""
         /\ (label numberToString c = picked
             \/ MapSearchEntry.fullName c = stripScoreSuffix picked)).
  { destruct (hasUI ctx); [|(unfold raise; discriminate)].
    cbv zeta. rewrite map_map. cbn [fst].
    destruct (select ctx _ _) as [picked|] eqn:Hpick; [|(unfold raise; discriminate)].
    unfold truthyText. destruct (nonEmpty picked) eqn:Hne; [|(unfold raise; discriminate)].
    assert (Hpicked : picked <> "") by (intros ->; discriminate).
    destruct (find _ (map _ _)) as [[l x]|] eqn:Hfind.
    - intros H. inversion H; subst c. clear H.
      apply find_some in Hfind as [Hin Heq]. cbn [fst] in Heq. apply String.eqb_eq in Heq.
      apply in_map_iff in Hin as (y & Hy & Hiny). inversion Hy; subst.
      split; [exact Hiny|]. split; [reflexivity|].
      exists (label numberToString x). split; [first [exact Hpick | reflexivity]|]. split; [exact Hpicked|].
      now left.
    - destruct (find _ (firstn 6 candidates)) as [matched|] eqn:Hmatch;
        [|(unfold raise; discriminate)].
      intros H. inversion H; subst c. clear H.
      apply find_some in Hmatch as [Hin Heq]. apply String.eqb_eq in Heq.
      split; [exact Hin|]. split; [reflexivity|].
      exists picked. split; [first [exact Hpick | reflexivity]|]. split; [exact Hpicked|]. now right. }
  unfold selectCandidate. rewrite firstn_min.
  destruct candidates as [|a [|b rest]].
  - intros H. destruct (Hgeneral H) as (Hin & _). destruct Hin.
  - intros H. inversion H; subst. split; [now left | now left].
  - intros H. destruct (Hgeneral H) as (Hin & Hui & Hpick).
    split; [exact Hin|]. right. split; [exact Hui | exact Hpick].
Qed.

End ResolutionFacts.


Example full_name_of_the_entry_is_the_repo :
  exists r,
    Offworld.resolveRepoWithOffworld StatedResolverMore.namedParseShow
      StatedResolver.sampleParseSearch StatedResolver.plainNumber StatedResolver.noHint
      StatedResolver.sampleHost StatedResolver.hintedOptions = Offworld.Fulfilled r
    /\ ResolvedRepo.repo r = "anton/librarian:fork"
    /\ ResolvedRepo.qualifiedName r = "github.com:default-anton/pi-librarian".
Proof. eexists. split; [vm_compute; reflexivity|]. split; reflexivity. Qed.

Lemma selection_is_among_the_six_shown_witness :
  In (StatedResolver.entry "default-anton/pi-librarian" (11 # 100))
     (firstn 6 StatedResolver.twoMatches).
Proof.
  refine (proj1 (selection_is_among_the_six_shown StatedResolver.plainNumber
            StatedResolverMore.choosingHost StatedResolver.twoMatches
            (StatedResolver.entry "default-anton/pi-librarian" (11 # 100)) _)).
  vm_compute. reflexivity.
Defined.

(** ** The inputs of a resolution *)

Section InputFacts.

Import JsStr Schemas StatedInputs.

Lemma substring_length (n : nat) (s : string) :
  (String.length (substring 0 n s) <= n)%nat.
Proof.
  revert s. induction n as [|n IH]; intros s; destruct s as [|c r]; cbn; try lia.
  specialize (IH r). lia.
Qed.

Lemma substring_shorter (n : nat) (s : string) :
  (String.length (substring 0 n s) <= String.length s)%nat.
Proof.
  revert s. induction n as [|n IH]; intros s; destruct s as [|c r]; cbn; try lia.
  specialize (IH r). lia.
Qed.

Lemma substring_anyChar (test : ascii -> bool) (n : nat) (s : string) :
  anyChar test s = false -> anyChar test (substring 0 n s) = false.
Proof.
  revert s. induction n as [|n IH]; intros s; destruct s as [|c r]; cbn; auto.
  intros H. apply orb_false_iff in H as [Hc Hr]. now rewrite Hc, IH.
Qed.

Lemma substring_spacedOnce (n : nat) (s : string) :
  spacedOnce s = true -> spacedOnce (substring 0 n s) = true.
Proof.
  revert s. induction n as [|n IH]; intros s; destruct s as [|c r]; cbn [substring]; auto.
  cbn [spacedOnce]. intros H. apply andb_true_iff in H as [Hc Hr].
  rewrite (IH r Hr), andb_true_r.
  destruct (is_ws c); [|reflexivity].
  apply andb_true_iff in Hc as [Hspace Hnext]. rewrite Hspace. cbn [andb].
  destruct n as [|n]; destruct r as [|d x]; cbn [substring]; auto.
Qed.

Lemma substring_headNotSpace (n : nat) (s : string) :
  headNotSpace s -> headNotSpace (substring 0 n s).
Proof. destruct n, s; cbn; auto. Qed.

Lemma collapseSpaces_spaced (s : string) :
  spacedOnce (Offworld.collapseSpaces s false) = true
  /\ spacedOnce (Offworld.collapseSpaces s true) = true
  /\ headNotSpace (Offworld.collapseSpaces s true).
Proof.
  induction s as [|c r (IHfalse & IHtrue & IHhead)]; [repeat split|].
  cbn [Offworld.collapseSpaces]. destruct (is_ws c) eqn:W.
  - split; [|split; assumption].
    cbn [spacedOnce]. rewrite IHtrue.
    change (is_ws " "%char) with true. cbn [Ascii.eqb Bool.eqb andb].
    destruct (Offworld.collapseSpaces r true) as [|d x]; [reflexivity|].
    cbn in IHhead. now rewrite IHhead.
  - cbn [spacedOnce headNotSpace]. rewrite W, IHfalse. repeat split.
Qed.

Lemma collapseSpaces_shorter (s : string) (inRun : bool) :
  (String.length (Offworld.collapseSpaces s inRun) <= String.length s)%nat.
Proof.
  revert inRun. induction s as [|c r IH]; intros inRun; [reflexivity|].
  cbn [Offworld.collapseSpaces]. destruct (is_ws c); [destruct inRun|];
    cbn [String.length]; pose proof (IH true); pose proof (IH false); lia.
Qed.

Lemma collapseSpaces_head (s : string) :
  headNotSpace s -> headNotSpace (Offworld.collapseSpaces s false).
Proof.
  destruct s as [|c r]; [auto|]. cbn [headNotSpace Offworld.collapseSpaces].
  intros W. now rewrite W.
Qed.

Lemma trim_headNotSpace (s : string) : headNotSpace (trim s).
Proof.
  unfold trim. destruct (trimStart_head s) as [->|(a & x & -> & W)]; [exact I|].
  destruct (trimEnd_keeps_head a x W) as [y ->]. exact W.
Qed.

(** X20.  The term the resolver searches the map for has at most 120
    units, does not begin with white space, and holds no white space other
    than single plain spaces. *)
Theorem search_term_is_short_and_single_spaced (task : string) :
  (String.length (Offworld.extractSearchTerm task) <= 120)%nat
  /\ (String.length (Offworld.extractSearchTerm task) <= String.length task)%nat
  /\ headNotSpace (Offworld.extractSearchTerm task)
  /\ spacedOnce (Offworld.extractSearchTerm task) = true.
Proof.
  unfold Offworld.extractSearchTerm. split; [apply substring_length|]. split; [|split].
  - etransitivity; [apply substring_shorter|].
    etransitivity; [apply collapseSpaces_shorter|].
    unfold trim. etransitivity; [apply trimEnd_shorter | apply trimStart_shorter].
  - apply substring_headNotSpace, collapseSpaces_head, trim_headNotSpace.
  - apply substring_spacedOnce, collapseSpaces_spaced.
Qed.

End InputFacts.

(** ** Repository hints and validated parameters *)

Section HintFacts.

Import JsStr Schemas StatedInputs.

Lemma afterPrefix_length (atoms : list Atom) (s r : string) :
  afterPrefix atoms s = Some r ->
  String.length s = (List.length atoms + String.length r)%nat.
Proof.
  revert s. induction atoms as [|a rest IH]; intros s.
  - intros H. now inversion H.
  - destruct s as [|c x]; [discriminate|]. cbn [afterPrefix].
    destruct (atomMatches a c); [|discriminate].
    intros H. cbn [String.length List.length]. now rewrite (IH x H).
Qed.

Lemma afterPrefix_anyChar (test : ascii -> bool) (atoms : list Atom) (s r : string) :
  afterPrefix atoms s = Some r -> anyChar test s = false -> anyChar test r = false.
Proof.
  revert s. induction atoms as [|a rest IH]; intros s.
  - intros H. now inversion H.
  - destruct s as [|c x]; [discriminate|]. cbn [afterPrefix anyChar].
    destruct (atomMatches a c); [|discriminate].
    intros H Hs. apply orb_false_iff in Hs as [_ Hx]. now apply (IH x).
Qed.

Lemma afterPrefix_grows (atoms : list Atom) (s t : string) :
  afterPrefix atoms s = None ->
  afterPrefix atoms (s ++ t) <> None ->
  (String.length s < List.length atoms)%nat
  /\ afterPrefix (skipn (String.length s) atoms) t <> None.
Proof.
  revert s. induction atoms as [|a rest IH]; intros s; [discriminate|].
  destruct s as [|c x].
  - intros _ H. split; [cbn; lia | exact H].
  - cbn [afterPrefix String.append]. destruct (atomMatches a c); [|contradiction].
    intros Hs Hst. destruct (IH x Hs Hst) as [Hlen Hrest].
    split; [cbn; lia | exact Hrest].
Qed.

Lemma afterPrefix_app (front back : list Atom) (s : string) :
  afterPrefix (front ++ back) s
  = match afterPrefix front s with
    | Some r => afterPrefix back r
    | None => None
    end.
Proof.
  revert s. induction front as [|a rest IH]; intros s; [reflexivity|].
  destruct s as [|c x]; [reflexivity|]. cbn [afterPrefix app].
  destruct (atomMatches a c); [apply IH | reflexivity].
Qed.

Lemma afterPrefix_lits (p r : string) : afterPrefix (lits p) (p ++ r) = Some r.
Proof.
  induction p as [|c x IH]; [reflexivity|].
  cbn [lits afterPrefix String.append atomMatches]. now rewrite Ascii.eqb_refl.
Qed.


Lemma dotGit_completes_nothing (atoms : list Atom) :
  In atoms [urlPattern; plainUrlPattern; hostPattern] ->
  forall k, (k < List.length atoms)%nat -> afterPrefix (skipn k atoms) ".git" = None.
Proof.
  intros [<-|[<-|[<-|[]]]] k Hk;
    do 19 (destruct k as [|k]; [first [reflexivity | cbn in Hk; lia]|]); cbn in Hk; lia.
Qed.

Lemma unmatched_with_dotGit (atoms : list Atom) (s : string) :
  In atoms [urlPattern; plainUrlPattern; hostPattern] ->
  afterPrefix atoms s = None -> afterPrefix atoms (s ++ ".git") = None.
Proof.
  intros Hin Hs. destruct (afterPrefix atoms (s ++ ".git")) as [r|] eqn:E; [|reflexivity].
  destruct (afterPrefix_grows atoms s ".git" Hs) as [Hlen Hrest]; [congruence|].
  now rewrite (dotGit_completes_nothing atoms Hin _ Hlen) in Hrest.
Qed.

Lemma kept_means_unmatched (atoms : list Atom) (s r : string) :
  atoms <> [] -> afterPrefix atoms s = Some r -> r <> s.
Proof.
  intros Hne H -> . apply afterPrefix_length in H.
  destruct atoms; [contradiction|]. cbn in H. lia.
Qed.

Lemma stripGithubUrl_kept (s : string) :
  stripGithubUrl s = s ->
  afterPrefix urlPattern s = None /\ afterPrefix plainUrlPattern s = None.
Proof.
  unfold stripGithubUrl. fold urlPattern plainUrlPattern.
  destruct (afterPrefix urlPattern s) as [r|] eqn:E1.
  - intros ->. now apply kept_means_unmatched in E1.
  - destruct (afterPrefix plainUrlPattern s) as [r|] eqn:E2; [|auto].
    intros ->. now apply kept_means_unmatched in E2.
Qed.

Lemma stripGithubHost_kept (s : string) :
  stripGithubHost s = s -> afterPrefix hostPattern s = None.
Proof.
  unfold stripGithubHost. fold hostPattern.
  destruct (afterPrefix hostPattern s) as [r|] eqn:E; [|auto].
  intros ->. now apply kept_means_unmatched in E.
Qed.

Lemma stripDotGit_suffix (s : string) : stripDotGit (s ++ ".git") = s.
Proof.
  induction s as [|c r IH]; [reflexivity|].
  cbn [String.append stripDotGit]. rewrite IH.
  destruct (String.eqb (String c (r ++ ".git")) ".git") eqn:E; [|reflexivity].
  apply String.eqb_eq in E. apply (f_equal String.length) in E.
  cbn [String.length] in E. rewrite length_append in E. cbn in E. lia.
Qed.

Lemma normalizeRepoHint_of_trimmed (x s : string) :
  x <> "" -> trim x = x ->
  stripDotGit (stripGithubHost (stripGithubUrl x)) = s ->
  trim s = s ->
  normalizeRepoHint (Some x) = Some s.
Proof.
  intros Hx Tx Hs Ts. unfold normalizeRepoHint.
  assert (Hne : nonEmpty x = true) by (destruct x; [contradiction | reflexivity]).
  cbn [truthyText]. rewrite Hne, Tx, Hne. cbn [negb]. now rewrite Hs, Ts.
Qed.

Lemma spelling_normalizes (prefix body s : string) :
  In prefix githubPrefixes ->
  body <> "" -> trim body = body ->
  stripGithubUrl body = body -> stripGithubHost body = body ->
  stripDotGit body = s -> trim s = s ->
  normalizeRepoHint (Some (prefix ++ body)) = Some s.
Proof.
  intros Hin Hne Tb Hurl Hhost Hgit Ts.
  assert (Htrim : prefix <> "" -> trim (prefix ++ body) = prefix ++ body).
  { intros Hp. destruct Hin as [<-|[<-|[<-|[<-|[<-|[]]]]]]; try contradiction;
      (apply (trim_between _ "" body); [discriminate | exact Hne | reflexivity | exact Tb]). }
  assert (Hfull : prefix <> "" -> prefix ++ body <> "")
    by (intros Hp; destruct prefix; [contradiction | discriminate]).
  destruct Hin as [<-|[<-|[<-|[<-|[<-|[]]]]]].
  - change ("" ++ body) with body.
    apply normalizeRepoHint_of_trimmed; auto. now rewrite Hurl, Hhost.
  - apply normalizeRepoHint_of_trimmed; [now apply Hfull | now apply Htrim | | exact Ts].
    change (stripGithubUrl ("https://github.com/" ++ body)) with body.
    now rewrite Hhost.
  - apply normalizeRepoHint_of_trimmed; [now apply Hfull | now apply Htrim | | exact Ts].
    change (stripGithubUrl ("http://github.com/" ++ body)) with body.
    now rewrite Hhost.
  - apply normalizeRepoHint_of_trimmed; [now apply Hfull | now apply Htrim | | exact Ts].
    change (stripGithubUrl ("github.com/" ++ body)) with ("github.com/" ++ body).
    change (stripGithubHost ("github.com/" ++ body)) with body. exact Hgit.
  - apply normalizeRepoHint_of_trimmed; [now apply Hfull | now apply Htrim | | exact Ts].
    change (stripGithubUrl ("github.com:" ++ body)) with ("github.com:" ++ body).
    change (stripGithubHost ("github.com:" ++ body)) with body. exact Hgit.
Qed.

(** X21.  The spellings of a GitHub repository normalize to the same hint:
    for a name [s] that is not empty, has no white space at its ends and
    does not itself begin with a host prefix, every spelling [s.git],
    [https://github.com/s.git], [http://github.com/s.git],
    [github.com/s.git] and [github.com:s.git] gives [s], and so do the same
    spellings without [.git] when [s] does not end in [.git]. *)
Theorem github_spellings_normalize_alike (s prefix : string) :
  s <> "" -> trim s = s ->
  stripGithubUrl s = s -> stripGithubHost s = s ->
  In prefix githubPrefixes ->
  normalizeRepoHint (Some (prefix ++ s ++ ".git")) = Some s
  /\ (stripDotGit s = s -> normalizeRepoHint (Some (prefix ++ s)) = Some s).
Proof.
  intros Hne Ts Hurl Hhost Hin. split.
  - destruct (stripGithubUrl_kept s Hurl) as [Hu1 Hu2].
    pose proof (stripGithubHost_kept s Hhost) as Hh.
    apply spelling_normalizes; auto.
    + destruct s; [contradiction | discriminate].
    + apply (trim_between s "" ".git"); [exact Hne | discriminate | exact Ts | reflexivity].
    + unfold stripGithubUrl. fold urlPattern plainUrlPattern.
      rewrite (unmatched_with_dotGit urlPattern s), (unmatched_with_dotGit plainUrlPattern s);
        cbn [In]; auto.
    + unfold stripGithubHost. fold hostPattern.
      rewrite (unmatched_with_dotGit hostPattern s); cbn [In]; auto.
    + apply stripDotGit_suffix.
  - intros Hgit. now apply spelling_normalizes.
Qed.

(** X22.  The dot of [github.com] in the host pattern stands for any unit
    but a line terminator: a hint [github?com/s] or [github?com:s], with
    any such unit for [?], loses its first eleven units as a host prefix. *)
Theorem host_dot_stands_for_any_unit (c sep : ascii) (s : string) :
  atomMatches Dot c = true ->
  sep = slash \/ sep = colon ->
  s <> "" -> trim s = s -> stripDotGit s = s ->
  normalizeRepoHint (Some ("github" ++ String c "com" ++ String sep s)) = Some s.
Proof.
  intros Hc Hsep Hne Ts Hgit.
  apply normalizeRepoHint_of_trimmed; [discriminate | | | exact Ts].
  - exact (trim_between "github" (String c "com" ++ String sep "") s
             ltac:(discriminate) Hne eq_refl Ts).
  - change (stripGithubUrl ("github" ++ String c "com" ++ String sep s))
      with ("github" ++ String c "com" ++ String sep s).
    assert (Hhost : stripGithubHost ("github" ++ String c "com" ++ String sep s) = s).
    { unfold stripGithubHost, githubHost.
      rewrite <- !app_assoc, afterPrefix_app, afterPrefix_lits.
      change (String c "com" ++ String sep s) with (String c ("com" ++ String sep s)).
      cbn [app afterPrefix]. rewrite Hc.
      change (afterPrefix (lits "com" ++ [OneOf [colon; slash]]) ("com" ++ String sep s))
        with (afterPrefix [OneOf [colon; slash]] (String sep s)).
      cbn [afterPrefix atomMatches existsb].
      destruct Hsep as [->| ->]; reflexivity. }
    now rewrite Hhost.
Qed.

Lemma anyChar_trimStart (test : ascii -> bool) (s : string) :
  anyChar test s = false -> anyChar test (trimStart s) = false.
Proof.
  induction s as [|c r IH]; [auto|]. cbn [trimStart]. destruct (is_ws c); [|auto].
  cbn [anyChar]. intros H. apply orb_false_iff in H as [_ Hr]. auto.
Qed.

Lemma anyChar_trimEnd (test : ascii -> bool) (s : string) :
  anyChar test s = false -> anyChar test (trimEnd s) = false.
Proof.
  induction s as [|c r IH]; [auto|]. rewrite trimEnd_cons. cbn [anyChar].
  intros H. apply orb_false_iff in H as [Hc Hr]. specialize (IH Hr).
  destruct (trimEnd r) as [|d x].
  - destruct (is_ws c); [reflexivity|]. cbn [anyChar]. now rewrite Hc.
  - cbn [anyChar] in *. now rewrite Hc, IH.
Qed.

Lemma trim_shrinks (test : ascii -> bool) (s : string) :
  (String.length (trim s) <= String.length s)%nat
  /\ (anyChar test s = false -> anyChar test (trim s) = false).
Proof.
  unfold trim. split.
  - etransitivity; [apply trimEnd_shorter | apply trimStart_shorter].
  - intros H. now apply anyChar_trimEnd, anyChar_trimStart.
Qed.

Lemma afterPrefix_shrinks (test : ascii -> bool) (atoms : list Atom) (s r : string) :
  afterPrefix atoms s = Some r ->
  (String.length r <= String.length s)%nat
  /\ (anyChar test s = false -> anyChar test r = false).
Proof.
  intros H. split; [apply afterPrefix_length in H; lia|].
  now apply (afterPrefix_anyChar test atoms).
Qed.

Lemma stripGithubUrl_shrinks (test : ascii -> bool) (s : string) :
  (String.length (stripGithubUrl s) <= String.length s)%nat
  /\ (anyChar test s = false -> anyChar test (stripGithubUrl s) = false).
Proof.
  unfold stripGithubUrl. fold urlPattern plainUrlPattern.
  destruct (afterPrefix urlPattern s) as [r|] eqn:E1;
    [now apply (afterPrefix_shrinks test _ _ _ E1)|].
  destruct (afterPrefix plainUrlPattern s) as [r|] eqn:E2;
    [now apply (afterPrefix_shrinks test _ _ _ E2)|].
  auto.
Qed.

Lemma stripGithubHost_shrinks (test : ascii -> bool) (s : string) :
  (String.length (stripGithubHost s) <= String.length s)%nat
  /\ (anyChar test s = false -> anyChar test (stripGithubHost s) = false).
Proof.
  unfold stripGithubHost.
  destruct (afterPrefix _ s) as [r|] eqn:E; [now apply (afterPrefix_shrinks test _ _ _ E)|].
  auto.
Qed.

Lemma stripDotGit_shrinks (test : ascii -> bool) (s : string) :
  (String.length (stripDotGit s) <= String.length s)%nat
  /\ (anyChar test s = false -> anyChar test (stripDotGit s) = false).
Proof.
  induction s as [|c r [IHlen IHany]]; [auto|]. cbn [stripDotGit].
  destruct (String.eqb (String c r) ".git").
  - split; [cbn; lia | reflexivity].
  - cbn [String.length anyChar]. split; [lia|].
    intros H. apply orb_false_iff in H as [Hc Hr]. now rewrite Hc, IHany.
Qed.

Lemma clean_space_is_no_control (c : ascii) :
  isForbidden c = false -> is_ws c = false -> isControl c = false.
Proof.
  unfold isForbidden. intros Hf Hw.
  destruct (isControl c); [|reflexivity]. cbn [andb] in Hf.
  destruct (Ascii.eqb c newline) eqn:E1; [apply Ascii.eqb_eq in E1; now subst c|].
  destruct (Ascii.eqb c (chr 9)) eqn:E2; [apply Ascii.eqb_eq in E2; now subst c|].
  discriminate.
Qed.

Lemma collapseSpaces_no_control (s : string) (inRun : bool) :
  anyChar isForbidden s = false ->
  anyChar isControl (Offworld.collapseSpaces s inRun) = false.
Proof.
  revert inRun. induction s as [|c r IH]; intros inRun; [reflexivity|].
  cbn [anyChar Offworld.collapseSpaces]. intros H. apply orb_false_iff in H as [Hc Hr].
  destruct (is_ws c) eqn:W.
  - destruct inRun; [now apply IH|]. cbn [anyChar]. now rewrite IH.
  - cbn [anyChar]. now rewrite (clean_space_is_no_control c Hc W), IH.
Qed.

(** X23.  Parameters that pass [validateParams] are handed on unchanged,
    and what the resolver makes of them stays clean: the task has at most
    4000 units, the search term drawn from it holds no control character at
    all, and the normalized repository hint, when there is one, has at most
    200 units, no control character other than tab and line feed, and no
    white space at its ends. *)
Theorem validated_inputs_stay_clean (params checked : Index.ReplicantParams) :
  Index.validateParams params = Returns checked ->
  checked = params
  /\ (String.length (Offworld.task (Index.resolverOptions checked)) <= 4000)%nat
  /\ anyChar isControl
       (Offworld.extractSearchTerm (Offworld.task (Index.resolverOptions checked))) = false
  /\ forall h,
       Offworld.repoHint (Index.resolverOptions checked) = Some h ->
       (String.length h <= 200)%nat
       /\ anyChar isForbidden h = false
       /\ trim h = h.
Proof.
  unfold Index.validateParams.
  destruct (MAX_TASK_LENGTH <? String.length (Index.task params))%nat eqn:Htask;
    [discriminate|].
  destruct (Index.tooLong (Index.repo params) MAX_REPO_LENGTH) eqn:Hrepo; [discriminate|].
  destruct (Index.tooLong (Index.cwd params) MAX_CWD_LENGTH); [discriminate|].
  destruct (assertNoControlChars (Index.task params) "task") eqn:Hclean; [|discriminate].
  destruct (Index.checkOptional (Index.repo params) "repo") eqn:Hhint; [|discriminate].
  destruct (Index.checkOptional (Index.cwd params) "cwd"); [|discriminate].
  intros H. inversion H; subst checked. clear H.
  cbn [Index.resolverOptions Offworld.task Offworld.repoHint].
  apply Nat.ltb_ge in Htask.
  unfold assertNoControlChars in Hclean.
  destruct (anyChar isForbidden (Index.task params)) eqn:Hc; [discriminate|].
  split; [reflexivity|]. split; [exact Htask|]. split.
  - unfold Offworld.extractSearchTerm.
    apply substring_anyChar, collapseSpaces_no_control.
    now apply (trim_shrinks isForbidden).
  - intros h. unfold normalizeRepoHint, Index.tooLong, Index.checkOptional in *.
    destruct (truthyText (Index.repo params)) as [given|]; [|discriminate].
    apply Nat.ltb_ge in Hrepo. unfold assertNoControlChars in Hhint.
    destruct (anyChar isForbidden given) eqn:Hg; [discriminate|].
    destruct (negb (nonEmpty (trim given))); [discriminate|].
    intros Hh. inversion Hh; subst h. clear Hh.
    set (a := trim given).
    set (b := stripGithubUrl a). set (c := stripGithubHost b). set (d := stripDotGit c).
    destruct (trim_shrinks isForbidden given) as [La Ca].
    destruct (stripGithubUrl_shrinks isForbidden a) as [Lb Cb].
    destruct (stripGithubHost_shrinks isForbidden b) as [Lc Cc].
    destruct (stripDotGit_shrinks isForbidden c) as [Ld Cd].
    destruct (trim_shrinks isForbidden d) as [Le Ce].
    fold a in La, Ca. fold b in Lb, Cb. fold c in Lc, Cc. fold d in Ld, Cd.
    unfold MAX_REPO_LENGTH in Hrepo.
    split; [lia|]. split; [exact (Ce (Cd (Cc (Cb (Ca Hg))))) | apply trim_idempotent].
Qed.

End HintFacts.

Lemma github_spellings_normalize_alike_witness :
  Schemas.normalizeRepoHint (Some "https://github.com/tanstack/pacer.git")
  = Some "tanstack/pacer".
Proof.
  refine (proj1 (github_spellings_normalize_alike "tanstack/pacer" "https://github.com/"
                   _ _ _ _ _)).
  - discriminate.
  - reflexivity.
  - reflexivity.
  - reflexivity.
  - right. left. reflexivity.
Defined.

Lemma host_dot_stands_for_any_unit_witness :
  Schemas.normalizeRepoHint (Some "github-com/pacer") = Some "pacer".
Proof.
  refine (host_dot_stands_for_any_unit "-"%char "/"%char "pacer" _ _ _ _ _).
  - reflexivity.
  - left. reflexivity.
  - discriminate.
  - reflexivity.
  - reflexivity.
Defined.

Lemma validated_inputs_stay_clean_witness :
  Schemas.anyChar Schemas.isControl
    (Offworld.extractSearchTerm
       (Offworld.task
          (Index.resolverOptions
             {| Index.task := "trace the" ++ String (JsStr.chr 9) "policy hook";
                Index.repo := Some " github.com/tanstack/pacer.git ";
                Index.cwd := None |}))) = false.
Proof.
  refine (proj1 (proj2 (proj2 (validated_inputs_stay_clean
            {| Index.task := "trace the" ++ String (JsStr.chr 9) "policy hook";
               Index.repo := Some " github.com/tanstack/pacer.git ";
               Index.cwd := None |} _ _)))).
  vm_compute. reflexivity.
Defined.

(** ** The entry point's model and display paths *)

Section EntryFacts.

Import JsStr PosixPath StatedMore.

(** X24.  A host model whose provider and id are strings, not blank, the
    provider free of slashes, takes precedence over the agent's model and
    is read back by [parseModel] as exactly that provider and id, trimmed;
    the id may itself hold slashes. *)
Theorem host_model_reaches_the_session (model : JsValue) (p m : string)
    (agentModel : option string) :
  Js.asString (Js.get model "provider") = Some p ->
  Js.asString (Js.get model "id") = Some m ->
  trim p <> "" -> trim m <> "" ->
  includesChar p slash = false ->
  Index.modelFromContext model = Some (trim p ++ "/" ++ trim m)
  /\ Session.parseModel (Some (Index.modelForRecon (Index.modelFromContext model) agentModel))
     = Returns (Some {| Session.provider := Some (trim p); Session.modelId := trim m |}).
Proof.
  intros Hp Hm Hpne Hmne Hfree.
  assert (Hctx : Index.modelFromContext model = Some (trim p ++ "/" ++ trim m)).
  { unfold Index.modelFromContext. rewrite Hp, Hm.
    destruct (trim p) as [|a x]; [contradiction|].
    destruct (trim m) as [|b y]; [contradiction|]. reflexivity. }
  split; [exact Hctx|]. rewrite Hctx. cbn [Index.modelForRecon].
  rewrite parseModel_at_first_slash; auto.
  - rewrite !trim_idempotent.
    destruct (trim p) as [|a x]; [contradiction|].
    destruct (trim m) as [|b y]; [contradiction|]. reflexivity.
  - apply trim_between; auto using trim_idempotent.
  - now apply includesChar_trim.
Qed.

(** X25.  Shown relative to the clone, a relative path of ordinary names
    whose first name does not begin with two dots is shown as these names
    joined by slashes, backslashes turned into slashes, and [.] is shown as
    [.], whatever the working directory of the process. *)
Theorem display_path_is_relative_to_the_clone (pcwd root : string)
    (names : list string) :
  isAbsolute root = true ->
  Forall ordinaryName names ->
  match names with
  | [] => True
  | first :: _ => startsWith first ".." = false
  end ->
  Index.toRepoRelativeDisplayPath pcwd
    match names with
    | [] => "."
    | _ => join "/" names
    end (Some root)
  = match names with
    | [] => "."
    | _ => backslashesToSlashes (join "/" names)
    end.
Proof.
  intros Habs Hall Hfirst. unfold Index.toRepoRelativeDisplayPath.
  cbn [truthyText]. rewrite (absolute_nonEmpty root Habs).
  set (base := normalizeSegments false (split slash root)).
  assert (Hbase : Forall ordinaryName base)
    by apply normalizeSegments_ordinary, split_segments_free.
  assert (Hroot : resolve pcwd [root] = render (true, base)).
  { unfold resolve. now rewrite (segmentsOf_absolute pcwd root Habs). }
  rewrite Hroot.
  assert (Habsolute : isAbsolute (render (true, base)) = true) by reflexivity.
  assert (Hagain : normalizeSegments false (split slash (render (true, base))) = base).
  { pose proof (segmentsOf_absolute pcwd _ Habsolute) as H1.
    rewrite (resolveSegments_render pcwd base Hbase) in H1. now inversion H1. }
  assert (Hfrom : segmentsOf pcwd (render (true, base)) = base).
  { unfold segmentsOf. now rewrite (resolveSegments_render pcwd base Hbase). }
  destruct names as [|first rest].
  - change (isAbsolute ".") with false. cbv iota.
    unfold resolve. rewrite (resolveSegments_dot pcwd _ Habsolute), Hagain.
    unfold relative. rewrite Hfrom.
    replace base with (base ++ [])%list at 2 by apply app_nil_r.
    rewrite stripCommon_prefix. reflexivity.
  - destruct (join_ordinary_relative (first :: rest) Hall) as [_ Hrel]; [discriminate|].
    rewrite Hrel. unfold resolve.
    rewrite (resolveSegments_under pcwd _ _ Habsolute Hall), Hagain by discriminate.
    unfold relative. rewrite Hfrom. unfold segmentsOf.
    rewrite (resolveSegments_render pcwd (base ++ first :: rest));
      [| apply Forall_app; split; assumption].
    cbn [snd]. rewrite stripCommon_prefix. cbn [List.length repeat app].
    assert (Hproper : Stated.properSegment first).
    { inversion Hall as [|? ? (H0 & _ & _ & Hfree) _]; subst. now split. }
    rewrite (proper_join_nonempty first rest Hproper), proper_join_dots, Hfirst.
    now rewrite (proper_join_relative first rest Hproper).
Qed.

End EntryFacts.

Lemma host_model_reaches_the_session_witness :
  Session.parseModel
    (Some (Index.modelForRecon
             (Index.modelFromContext
                (JObj [("provider", JStr "openrouter"); ("id", JStr " anthropic/claude ")]))
             None))
  = Returns (Some {| Session.provider := Some "openrouter";
                     Session.modelId := "anthropic/claude" |}).
Proof.
  refine (proj2 (host_model_reaches_the_session
            (JObj [("provider", JStr "openrouter"); ("id", JStr " anthropic/claude ")])
            "openrouter" " anthropic/claude " None _ _ _ _ _)).
  - reflexivity.
  - reflexivity.
  - discriminate.
  - discriminate.
  - reflexivity.
Defined.

Lemma display_path_is_relative_to_the_clone_witness :
  Index.toRepoRelativeDisplayPath "/home/u" "src/index.ts" (Some "/clones/pi-librarian")
  = "src/index.ts".
Proof.
  refine (display_path_is_relative_to_the_clone "/home/u" "/clones/pi-librarian"
            ["src"; "index.ts"] _ _ _).
  - reflexivity.
  - repeat constructor; discriminate.
  - reflexivity.
Defined.

Lemma ordinary_paths_allowed_in_production_witness :
  Policy.getToolCallPolicyViolation "/home/u"
    {| Policy.toolName := "read";
       Policy.input := JObj [("path", JStr " @src/index.ts")];
       Policy.turnIndex := 0; Policy.toolCalls := 0;
       Policy.maxTurns := Index.MAX_TURNS; Policy.maxToolCalls := Index.MAX_TOOL_CALLS;
       Policy.scope := Index.productionScope "/home/u" StatedRunMore.sampleRepo |}
  = None.
Proof.
  refine (ordinary_paths_allowed_in_production "/home/u" StatedRunMore.sampleRepo "read"
            (JObj [("path", JStr " @src/index.ts")]) 0 0 Index.MAX_TURNS
            Index.MAX_TOOL_CALLS ["src"; "index.ts"] _ _ _ _ _ _).
  - reflexivity.
  - left. reflexivity.
  - split; reflexivity.
  - intros p Hp. discriminate.
  - repeat constructor; discriminate.
  - split; reflexivity.
Defined.
